(** * The cleanlab example notebooks as effectful programs

    The repository is three Jupyter notebooks.  Each one is glue code: it
    moves tables and arrays between calls into pandas, scikit-learn, XGBoost,
    cleanlab, PyTorch/timm and Keras.  The embedding keeps that shape.

    - A notebook is a program in a small free monad ([prog]): every call into
      an external library is a [Call] node carrying the call and its
      arguments, every [!cmd] line is a [Bang] node, an exception raised by
      the interpreter or by numpy/pandas indexing is a [Raise] node.
    - The data the notebooks shuffle around (data frames, index arrays, 2-D
      arrays, image data sets) is modelled concretely, with the indexing
      operations the cells use written out, including what they do out of
      range.
    - A run interprets the calls with an environment ([env]); it returns the
      result (a value or the exception that reached the top level), the final
      world and the trace of calls made. *)

From Stdlib Require Import ZArith List String Ascii Bool Floats Lia.
From stdpp Require Import base option list gmap strings pretty.

Set Warnings "-inexact-float".
Open Scope string_scope.
Open Scope list_scope.

(* ===================================================================== *)
(** * Python run time: exceptions, programs, runs                         *)
(* ===================================================================== *)

(** The exceptions that can reach the top level of a cell.  None of them is
    defined by the notebooks: the first five are raised by the interpreter or
    inside numpy/pandas indexing, [LibraryError] stands for whatever an
    external call raises. *)
Inductive exn : Type :=
| KeyError (key : string)
| IndexError (msg : string)
| ValueError (msg : string)
| ZeroDivisionError
| NameError (name : string)
| LibraryError (library : string) (msg : string).

Section Prog.
Context {E : Type -> Type}.

(** Programs over the call signature [E]. *)
Inductive prog (R : Type) : Type :=
| Ret (r : R)
| Raise (e : exn)
| Call {X : Type} (c : E X) (k : X -> prog R)
| Bang (cmd : string) (k : prog R).

Global Arguments Ret {R} r.
Global Arguments Raise {R} e.
Global Arguments Call {R X} c k.
Global Arguments Bang {R} cmd k.

Fixpoint bind {A B} (p : prog A) (f : A -> prog B) : prog B :=
  match p with
  | Ret a => f a
  | Raise e => Raise e
  | Call c k => Call c (fun x => bind (k x) f)
  | Bang cmd k => Bang cmd (bind k f)
  end.

(** One library call, result returned as is. *)
Definition call {X} (c : E X) : prog X := Call c Ret.

(** A [!cmd] line. *)
Definition bang (cmd : string) : prog unit := Bang cmd (Ret tt).

(** [for x in xs: s = body(x, s)] *)
Fixpoint for_in {A S} (xs : list A) (body : A -> S -> prog S) (s : S) : prog S :=
  match xs with
  | [] => Ret s
  | x :: xs' => bind (body x s) (for_in xs' body)
  end.

(** A loop body that may [break]. *)
Inductive control (S : Type) : Type :=
| Continue (s : S)
| Break (s : S).
Global Arguments Continue {S} s.
Global Arguments Break {S} s.

Fixpoint for_break {A S} (xs : list A) (body : A -> S -> prog (control S)) (s : S)
  : prog S :=
  match xs with
  | [] => Ret s
  | x :: xs' =>
      bind (body x s) (fun c =>
        match c with
        | Continue s' => for_break xs' body s'
        | Break s' => Ret s'
        end)
  end.

(** ** Runs *)

(** What the outside world does: [lib] answers a library call with a value
    or an exception, [shell] runs a [!cmd] line.  A failing shell command
    raises nothing in IPython, so [shell] only changes the world. *)
Record env (W : Type) : Type := Env {
  lib : forall X, E X -> W -> (exn + X) * W;
  shell : string -> W -> W
}.
Global Arguments Env {W} lib shell.
Global Arguments lib {W} e {X} c w.
Global Arguments shell {W} e cmd w.

(** One entry of the trace: a library call with its outcome, or a shell line. *)
Inductive entry : Type :=
| Called {X : Type} (c : E X) (r : exn + X)
| Shelled (cmd : string).

Record outcome (W R : Type) : Type := Outcome {
  result : exn + R;
  world : W;
  trace : list entry
}.
Global Arguments Outcome {W R} result world trace.
Global Arguments result {W R} o.
Global Arguments world {W R} o.
Global Arguments trace {W R} o.

Definition logged {W R} (t : entry) (o : outcome W R) : outcome W R :=
  Outcome (result o) (world o) (t :: trace o).

Fixpoint run {W R} (h : env W) (p : prog R) (w : W) : outcome W R :=
  match p with
  | Ret r => Outcome (inr r) w []
  | Raise e => Outcome (inl e) w []
  | Call c k =>
      match lib h c w with
      | (inl e, w') => Outcome (inl e) w' [Called c (inl e)]
      | (inr x, w') => logged (Called c (inr x)) (run h (k x) w')
      end
  | Bang cmd k => logged (Shelled cmd) (run h k (shell h cmd w))
  end.

(** ** What a program does whatever the libraries answer *)

(** [safe P post hist p]: started after the calls [hist], every call [p]
    makes is allowed by [P] (which sees the calls made so far, with their
    answers), and if [p] returns, [post] holds of the calls made and the
    value. *)
Fixpoint safe (P : list entry -> forall X, E X -> Prop) {R}
    (post : list entry -> R -> Prop) (hist : list entry) (p : prog R) : Prop :=
  match p with
  | Ret r => post hist r
  | Raise _ => True
  | Call c k => P hist _ c /\ forall x, safe P post (hist ++ [Called c (inr x)]) (k x)
  | Bang cmd k => safe P post (hist ++ [Shelled cmd]) k
  end.

(** [must Q post p]: on every path, [p] makes a call that, with its answer,
    satisfies [Q], or it raises, or it returns a value satisfying [post]. *)
Fixpoint must (Q : entry -> Prop) {R} (post : R -> Prop) (p : prog R) : Prop :=
  match p with
  | Ret r => post r
  | Raise _ => True
  | Call c k => forall x, Q (Called c (inr x)) \/ must Q post (k x)
  | Bang _ k => must Q post k
  end.

(** The calls of a trace. *)
Definition entry_call (P : forall X, E X -> Prop) (t : entry) : Prop :=
  match t with
  | Called c _ => P _ c
  | Shelled _ => False
  end.

Definition entry_failed (e : exn) (t : entry) : Prop :=
  match t with
  | Called _ (inl e') => e' = e
  | _ => False
  end.

(** Every call of the trace [tr] is allowed by [P], which sees the entries
    before it ([hist] and the earlier part of [tr]). *)
Fixpoint each_call (P : list entry -> forall X, E X -> Prop) (hist tr : list entry) : Prop :=
  match tr with
  | [] => True
  | t :: tr' =>
      match t with
      | Called c _ => P hist _ c
      | Shelled _ => True
      end /\ each_call P (hist ++ [t]) tr'
  end.

(** Every failing call of the run ends it: the exception it raised is the
    result of the run, and the call is the last entry of the trace. *)
Definition propagates {W R} (o : outcome W R) : Prop :=
  Forall (fun t => forall e, entry_failed e t ->
                     result o = inl e /\ exists pre, trace o = pre ++ [t])
         (trace o).

(** Every call the program can make satisfies [P], whatever was called
    before. *)
Definition only (P : forall X, E X -> Prop) {R} (p : prog R) : Prop :=
  forall hist, safe (fun _ => P) (fun _ _ => True) hist p.

(** The program calls no library: it returns or raises at once (indexing
    and arithmetic done by the notebook itself). *)
Definition no_call {R} (p : prog R) : Prop :=
  match p with
  | Ret _ | Raise _ => True
  | _ => False
  end.

(** Partial correctness of a run in a given environment: from a world
    satisfying [pre], if the program returns, [post] holds of the value and
    the world. *)
Definition triple {W R} (h : env W) (pre : W -> Prop) (p : prog R)
    (post : R -> W -> Prop) : Prop :=
  forall w, pre w ->
    match result (run h p w) with
    | inr r => post r (world (run h p w))
    | inl _ => True
    end.

(** The same with an invariant of the world: started in a world satisfying
    [Inv], if the program returns, [Inv] holds again and [post] holds of the
    value. *)
Definition keeps {W R} (h : env W) (Inv : W -> Prop) (p : prog R) (post : R -> Prop) : Prop :=
  triple h Inv p (fun r w => Inv w /\ post r).
End Prog.

Arguments prog E R : clear implicits.
Arguments entry E : clear implicits.
Arguments env E W : clear implicits.
Arguments outcome E W R : clear implicits.

Declare Scope prog_scope.
Delimit Scope prog_scope with prog.
Notation "x <- p ;; q" := (bind p (fun x => q))
  (at level 100, p at next level, right associativity) : prog_scope.
Notation "p ;; q" := (bind p (fun _ => q))
  (at level 100, right associativity) : prog_scope.

(* ===================================================================== *)
(** * Values shared by the notebooks                                      *)
(* ===================================================================== *)

(** A 2-D float array (numpy array or torch tensor), row by row.  A batch of
    images is one row per image (the pixels flattened); a batch of outputs is
    one row per image and one column per class. *)
Definition ndarray : Type := list (list float).

(** Pieces of a printed f-string: literal text, an integer, a float with its
    format (["" for str(x)], [".2f"], ["round1"] for [round(x, 1)]). *)
Inductive piece : Type :=
| Txt (s : string)
| Int (n : Z)
| Flt (x : float) (fmt : string).

(** The pipeline position a call belongs to (section 2 of the spec), and
    writing a file. *)
Inductive stage : Type :=
| LoadData
| TrainModel
| DetectIssues
| ReportAccuracy
| WriteFile.

Global Instance stage_eq_dec : EqDecision stage.
Proof. solve_decision. Defined.

(** [np.zeros((n, m))] *)
Definition np_zeros (n m : nat) : ndarray := replicate n (replicate m 0%float).

(** The width every row of [a] has, if they all have the same one. *)
Definition row_width (a : ndarray) : option nat :=
  match a with
  | [] => Some 0
  | r :: rs => if forallb (fun r' => Nat.eqb (length r') (length r)) rs
               then Some (length r) else None
  end.

(** [np.concatenate(parts, axis=0)]: no array at all, or arrays whose rows
    differ in width, raise ValueError. *)
Definition np_concatenate {E} (parts : list ndarray) : prog E ndarray :=
  match parts with
  | [] => Raise (ValueError "need at least one array to concatenate")
  | _ => match row_width (concat parts) with
         | Some _ => Ret (concat parts)
         | None => Raise (ValueError "all the input array dimensions except for the concatenation axis must match exactly")
         end
  end.

(** numpy broadcasting of a 2-D value to [m] rows of [c] columns: an axis of
    the value either has the target size or size 1 (then it is repeated). *)
Definition broadcast_row (c : nat) (r : list float) : option (list float) :=
  if Nat.eqb (length r) c then Some r
  else match r with
       | [x] => Some (replicate c x)
       | _ => None
       end.

Definition broadcast_to (m c : nat) (v : ndarray) : option ndarray :=
  match mapM (broadcast_row c) v with
  | Some rows =>
      if Nat.eqb (length rows) m then Some rows
      else match rows with
           | [r] => Some (replicate m r)
           | _ => None
           end
  | None => None
  end.

(** [a[idx] = v] for an integer index array [idx]: every index must be a row
    of [a] (IndexError otherwise), [v] is broadcast to [len(idx)] rows of the
    width of [a] (ValueError otherwise), rows are stored in order, so a
    repeated index keeps the last value. *)
Definition store_rows (a : ndarray) (idx : list nat) (rows : ndarray) : ndarray :=
  fold_left (fun acc ir => <[ir.1 := ir.2]> acc) (zip idx rows) a.

Definition setitem_rows {E} (a : ndarray) (ncols : nat) (idx : list nat) (v : ndarray)
  : prog E ndarray :=
  if forallb (fun i => Nat.ltb i (length a)) idx then
    match broadcast_to (length idx) ncols v with
    | Some rows => Ret (store_rows a idx rows)
    | None => Raise (ValueError "shape mismatch: value array could not be broadcast to indexing result")
    end
  else Raise (IndexError "index is out of bounds for axis 0").

(** Several such assignments, one after the other. *)
Definition stores (a : ndarray) (ws : list (list nat * ndarray)) : ndarray :=
  fold_left (fun acc w => store_rows acc w.1 w.2) ws a.

(** [a / b] on Python ints: a float, ZeroDivisionError when [b] is 0.  (The
    counts divided here are far below 2^53, where the conversion is exact.) *)
Definition float_of_nat (n : nat) : float :=
  PrimFloat.of_uint63 (Uint63.of_Z (Z.of_nat n)).

Definition int_truediv {E} (a b : nat) : prog E float :=
  if Nat.eqb b 0 then Raise ZeroDivisionError
  else Ret (float_of_nat a / float_of_nat b)%float.

(** [os.path.join(a, b)] for a directory [a] without trailing slash and a
    relative [b]. *)
Definition os_path_join (a b : string) : string := a ++ "/" ++ b.

(** [enumerate(xs)] *)
Definition enumerate {A} (xs : list A) : list (nat * A) := zip (seq 0 (length xs)) xs.

(* ===================================================================== *)
(** * pandas data frames, as far as the notebooks use them                *)
(* ===================================================================== *)

Module pd.

(** A cell of a table. *)
Inductive value : Type :=
| VInt (z : Z)
| VStr (s : string)
| NaN.

Global Instance value_eq_dec : EqDecision value.
Proof. solve_decision. Defined.

(** A column: its dtype (["int64"], ["object"], ["category"]) and values. *)
Record Series : Type := { dtype : string; values : list value }.

Global Instance Series_eq_dec : EqDecision Series.
Proof. solve_decision. Defined.

(** A data frame: the row labels and the named columns, in order.  Every
    column has one value per row. *)
Record DataFrame : Type := {
  index : list nat;
  columns : list (string * Series)
}.

Definition nrows (df : DataFrame) : nat := length (index df).
Definition column_names (df : DataFrame) : list string := (columns df).*1.

Fixpoint lookup_column (name : string) (cols : list (string * Series)) : option Series :=
  match cols with
  | [] => None
  | (n, s) :: cols' => if String.eqb n name then Some s else lookup_column name cols'
  end.

(** [df[name]], [df.name] *)
Definition getitem {E} (df : DataFrame) (name : string) : prog E Series :=
  match lookup_column name (columns df) with
  | Some s => Ret s
  | None => Raise (KeyError name)
  end.

(** [df[name] = s]: replaces the column where it stands, or appends it. *)
Fixpoint assign_column (name : string) (s : Series) (cols : list (string * Series))
  : list (string * Series) :=
  match cols with
  | [] => [(name, s)]
  | (n, s') :: cols' =>
      if String.eqb n name then (n, s) :: cols' else (n, s') :: assign_column name s cols'
  end.

Definition setitem {E} (df : DataFrame) (name : string) (s : Series) : prog E DataFrame :=
  if Nat.eqb (length (values s)) (nrows df)
  then Ret {| index := index df; columns := assign_column name s (columns df) |}
  else Raise (ValueError "Length of values does not match length of index").

Definition string_in (name : string) (names : list string) : bool :=
  existsb (String.eqb name) names.

(** [df.drop(names, axis=1)] *)
Definition drop_columns {E} (df : DataFrame) (names : list string) : prog E DataFrame :=
  match List.find (fun n => negb (string_in n (column_names df))) names with
  | Some n => Raise (KeyError n)
  | None =>
      Ret {| index := index df;
             columns := List.filter (fun c => negb (string_in c.1 names)) (columns df) |}
  end.

(** [df[[n1, n2, ...]]] *)
Definition select_columns {E} (df : DataFrame) (names : list string) : prog E DataFrame :=
  match List.find (fun n => negb (string_in n (column_names df))) names with
  | Some n => Raise (KeyError n)
  | None =>
      Ret {| index := index df;
             columns := List.filter (fun c => string_in c.1 names) (columns df) |}
  end.

(** Rows by position; a position that is no row is left out (the callers
    below check or compute the positions). *)
Definition take {A} (l : list A) (positions : list nat) : list A :=
  omap (fun p => l !! p) positions.

Definition take_series (positions : list nat) (s : Series) : Series :=
  {| dtype := dtype s; values := take (values s) positions |}.

Definition take_rows (df : DataFrame) (positions : list nat) : DataFrame :=
  {| index := take (index df) positions;
     columns := List.map (fun c => (c.1, take_series positions c.2)) (columns df) |}.

(** The positions where [mask] is true. *)
Definition positions_where (mask : list bool) : list nat :=
  List.map fst (List.filter snd (zip (seq 0 (length mask)) mask)).

(** [df[mask]] *)
Definition where_ (df : DataFrame) (mask : list bool) : DataFrame :=
  take_rows df (positions_where mask).

(** [df.iloc[positions]] for non-negative positions. *)
Definition iloc {E} (df : DataFrame) (positions : list nat) : prog E DataFrame :=
  if forallb (fun p => Nat.ltb p (nrows df)) positions
  then Ret (take_rows df positions)
  else Raise (IndexError "positional indexers are out-of-bounds").

Definition nat_in (n : nat) (l : list nat) : bool := existsb (Nat.eqb n) l.

(** [df.drop(labels)]: the rows whose label is listed go; a listed label that
    no row carries is a KeyError. *)
Definition without_labels (df : DataFrame) (labels : list nat) : DataFrame :=
  where_ df (List.map (fun l => negb (nat_in l labels)) (index df)).

Definition drop {E} (df : DataFrame) (labels : list nat) : prog E DataFrame :=
  if forallb (fun l => nat_in l (index df)) labels
  then Ret (without_labels df labels)
  else Raise (KeyError "labels not found in axis").

(** [df.reset_index(drop=True)] *)
Definition reset_index (df : DataFrame) : DataFrame :=
  {| index := seq 0 (nrows df); columns := columns df |}.

(** [s.isin(xs)] *)
Definition isin (s : Series) (xs : list value) : list bool :=
  List.map (fun v => bool_decide (v ∈ xs)) (values s).

(** [xs.index(e)]: ValueError when [e] is not in the list. *)
Fixpoint list_index (e : value) (xs : list value) : option nat :=
  match xs with
  | [] => None
  | x :: xs' => if decide (x = e) then Some 0 else S <$> list_index e xs'
  end.

(** Positions in increasing key order, equal keys in their original order. *)
Fixpoint insert_by_key (k : nat * nat) (sorted : list (nat * nat)) : list (nat * nat) :=
  match sorted with
  | [] => [k]
  | k' :: rest => if Nat.ltb k.1 k'.1 then k :: sorted else k' :: insert_by_key k rest
  end.

Definition argsort (keys : list nat) : list nat :=
  (fold_right insert_by_key [] (zip keys (seq 0 (length keys)))).*2.

(** [df.sort_values(by=name, key=lambda column: column.map(lambda e: order.index(e)))] *)
Definition sort_values_by_position {E} (df : DataFrame) (name : string) (order : list value)
  : prog E DataFrame :=
  (column <- getitem df name ;;
   match mapM (fun e => list_index e order) (values column) with
   | Some keys => Ret (take_rows df (argsort keys))
   | None => Raise (ValueError "is not in list")
   end)%prog.

(** [df.head()] *)
Definition head (df : DataFrame) : DataFrame := take_rows df (seq 0 (Nat.min 5 (nrows df))).

(** [s1 != s2], element by element. *)
Definition ne (s1 s2 : Series) : list bool :=
  List.map (fun p => negb (bool_decide (p.1 = p.2))) (zip (values s1) (values s2)).

End pd.

(* ===================================================================== *)
(** * datalab_image_classification/train_image_classifier.ipynb           *)
(* ===================================================================== *)

Module Image.

(** ** Data *)

(** A PIL image: its mode (['L'], ['RGB'], ['P'], ['RGBA'], ...), its size
    and its raw bytes. *)
Record PILImage : Type := {
  mode : string;
  size : nat * nat;
  pixels : list Z
}.

(** The one PIL method the notebook calls itself. *)
Inductive pil : Type -> Type :=
| Image_convert (img : PILImage) (mode : string) : pil PILImage.

(** The functions of the notebook that it hands to a library as a callback. *)
Inductive callback : Type :=
| fn_convert_to_rgb.

(** torchvision transforms; [Lambda] holds a callback of the notebook. *)
Inductive transform_step : Type :=
| Lambda (f : callback)
| Resize (h w : nat)
| CenterCrop (n : nat)
| ToTensor
| Normalize (mean std : list float).

(** What [ImageFolder] holds: the images found on disk with their class
    index, the class names, and the transform applied on access. *)
Record Dataset : Type := {
  root : string;
  ds_transform : list transform_step;
  samples : list (PILImage * nat);
  classes : list string
}.

Definition targets (d : Dataset) : list nat := (samples d).*2.
Definition len (d : Dataset) : nat := length (samples d).

(** [torch.utils.data.Subset] and [DataLoader]: plain descriptions, data is
    read when the loader is iterated. *)
Record Subset : Type := { sub_dataset : Dataset; indices : list nat }.
Record DataLoader : Type := {
  dl_subset : Subset;
  dl_batch_size : nat;
  dl_shuffle : bool
}.

(** A [state_dict]: parameter name to flattened values. *)
Definition StateDict : Type := list (string * list float).

(** A timm model object. [head_classes] is the width of the classifier head
    (0 after [reset_classifier(0)]). *)
Record Module : Type := {
  arch : string;
  head_classes : nat;
  num_features : nat;
  state_dict : StateDict;
  training : bool;
  device : string
}.

Definition set_training (b : bool) (m : Module) : Module :=
  {| arch := arch m; head_classes := head_classes m; num_features := num_features m;
     state_dict := state_dict m; training := b; device := device m |}.

(** [model.to(device)] *)
Definition to (dev : string) (m : Module) : Module :=
  {| arch := arch m; head_classes := head_classes m; num_features := num_features m;
     state_dict := state_dict m; training := training m; device := dev |}.

(** [optim.Adam(model.parameters(), lr=...)]: the learning rate and Adam's
    running moments. *)
Record Optimizer : Type := { lr : float; moments : StateDict }.
Definition Adam (lr : float) : Optimizer := {| lr := lr; moments := [] |}.

Record StratifiedKFold : Type := {
  n_splits : nat;
  shuffle : bool;
  random_state : Z
}.

(** ** The external calls of the notebook *)

Inductive ev : Type -> Type :=
| ImageFolder (root : string) (transform : list transform_step) : ev Dataset
| cuda_is_available : ev bool
| kf_split (kf : StratifiedKFold) (X : Dataset) (y : list nat)
    : ev (list (list nat * list nat))
| create_model (model_name : string) (pretrained : bool) (num_classes : nat) : ev Module
| iterate (loader : DataLoader) : ev (list (ndarray * list nat))
(** [outputs = model(inputs); loss = criterion(outputs, targets);
     optimizer.zero_grad(); loss.backward(); optimizer.step()]: one
    optimisation step; the value is the updated model and optimiser and the
    loss. *)
| train_step (model : Module) (optimizer : Optimizer) (inputs : ndarray)
    (targets : list nat) : ev (Module * Optimizer * float)
| forward (model : Module) (inputs : ndarray) : ev ndarray
| torch_max (outputs : ndarray) (dim : nat) : ev (list float * list nat)
| softmax (outputs : ndarray) (dim : nat) : ev ndarray
| reset_classifier (model : Module) (num_classes : nat) : ev Module
| torch_save (sd : StateDict) (path : string) : ev unit
| torch_load (path : string) : ev StateDict
| load_state_dict (model : Module) (sd : StateDict) : ev Module
| np_save (path : string) (arr : ndarray) : ev unit
| print (msg : list piece) : ev unit.

(** No call of this notebook looks for label issues, and its prints (fold
    sizes, the training loss and the validation accuracy of each epoch) do not
    compare a model before and after cleaning. *)
Definition stages_of {X} (c : ev X) : list stage :=
  match c with
  | ImageFolder _ _ => [LoadData]
  | train_step _ _ _ _ => [TrainModel]
  | torch_save _ _ | np_save _ _ => [WriteFile]
  | _ => []
  end.

Local Abbreviation invoke := (@call ev _).
Local Abbreviation run_shell := (@bang ev).

(** ** Cell 5: data set preparation *)

Definition convert_to_rgb (img : PILImage) : prog pil PILImage :=
  (img <- (if String.eqb (mode img) "L"
           then call (Image_convert img "RGB")
           else Ret img) ;;
   Ret img)%prog.

Definition apply_callback (f : callback) : PILImage -> prog pil PILImage :=
  match f with
  | fn_convert_to_rgb => convert_to_rgb
  end.

Definition transform : list transform_step :=
  [ Lambda fn_convert_to_rgb;
    Resize 224 224;
    CenterCrop 224;
    ToTensor;
    Normalize [0.485; 0.456; 0.406]%float [0.229; 0.224; 0.225]%float ].

Definition DATA_DIR : string := "./data".

(** The kernel's variables after cell 5. *)
Record cell5_vars : Type := {
  dataset : Dataset;
  n_classes : nat;
  labels : list nat
}.

Definition cell_4 : prog ev unit :=
  (run_shell "wget -nc 'https://cleanlab-public.s3.amazonaws.com/Datalab/caltech256-subset.tar.gz'" ;;
   run_shell "mkdir -p data" ;;
   run_shell "tar -xf caltech256-subset.tar.gz -C data/")%prog.

Definition cell_5 : prog ev cell5_vars :=
  (dataset <- invoke (ImageFolder (os_path_join DATA_DIR "caltech256-subset") transform) ;;
   Ret {| dataset := dataset;
          n_classes := length (classes dataset);
          labels := targets dataset |})%prog.

(** ** Cell 7: hyperparameters *)

Definition batch_size : nat := 32.
Definition learning_rate : float := 0.00001%float.
Definition num_epochs : nat := 10.
Definition num_folds : nat := 5.
Definition patience : nat := 2.
Definition model_name : string := "swin_base_patch4_window7_224".
Definition model_prefix : string := "caltech256_subset_" ++ model_name.

Definition cell_7 : prog ev string :=
  (cuda <- invoke cuda_is_available ;;
   Ret (if cuda : bool then "cuda" else "cpu"))%prog.

(** ** Cell 9 *)

Definition kf : StratifiedKFold :=
  {| n_splits := num_folds; shuffle := true; random_state := 42 |}.

(** [f'{model_prefix}_fold_{fold + 1}.pt'] *)
Definition checkpoint_path (fold : nat) : string :=
  model_prefix ++ "_fold_" ++ pretty (fold + 1) ++ ".pt".

(** ** Cell 10: k-fold training *)

(** [(predicted == targets).sum().item()], with torch's broadcasting of a
    one-element tensor. *)
Definition count_matches (xs ys : list nat) : nat :=
  length (filter (fun p => p.1 = p.2) (zip xs ys)).

Definition eq_sum (predicted targets : list nat) : prog ev nat :=
  if Nat.eqb (length predicted) (length targets)
  then Ret (count_matches predicted targets)
  else match predicted, targets with
       | [p], _ => Ret (count_matches (replicate (length targets) p) targets)
       | _, [t] => Ret (count_matches predicted (replicate (length predicted) t))
       | _, _ => Raise (LibraryError "torch" "The size of tensor a must match the size of tensor b")
       end.

(** The variables the epoch loop updates.  [loss] is unbound until the first
    batch has been seen. *)
Record epoch_vars : Type := {
  model : Module;
  optimizer : Optimizer;
  loss : option float;
  best_val_accuracy : float;
  best_epoch : nat
}.

(** [for inputs, targets in tqdm(train_loader): ...] *)
Definition train_batches (batches : list (ndarray * list nat))
    (s : Module * Optimizer * option float) : prog ev (Module * Optimizer * option float) :=
  for_in batches
    (fun b s =>
       let '(inputs, targets) := b in
       let '(model, optimizer, _) := s in
       r <- invoke (train_step model optimizer inputs targets) ;;
       let '(model, optimizer, loss) := r in
       Ret (model, optimizer, Some loss))%prog
    s.

(** [for inputs, targets in tqdm(val_loader): ...], updating (correct, total). *)
Definition eval_batches (model : Module) (batches : list (ndarray * list nat))
  : prog ev (nat * nat) :=
  for_in batches
    (fun b s =>
       let '(inputs, targets) := b in
       let '(correct, total) := s in
       outputs <- invoke (forward model inputs) ;;
       r <- invoke (torch_max outputs 1) ;;
       let predicted := r.2 in
       let total := total + length targets in
       n <- eq_sum predicted targets ;;
       Ret (correct + n, total))%prog
    (0, 0).

Definition epoch_body (fold : nat) (train_loader val_loader : DataLoader)
    (epoch : nat) (s : epoch_vars) : prog ev (control epoch_vars) :=
  (invoke (print [Txt "Epoch "; Int (Z.of_nat (epoch + 1)); Txt "/"; Int (Z.of_nat num_epochs)]) ;;
   let model := set_training true (model s) in
   batches <- invoke (iterate train_loader) ;;
   r <- train_batches batches (model, optimizer s, loss s) ;;
   let '(model, optimizer, loss) := r in
   loss_value <- match loss with
                 | Some l => Ret l
                 | None => Raise (NameError "loss")
                 end ;;
   invoke (print [Txt "Train loss: "; Flt loss_value ".4f"]) ;;
   let model := set_training false model in
   val_batches <- invoke (iterate val_loader) ;;
   ct <- eval_batches model val_batches ;;
   let '(correct, total) := ct in
   val_accuracy <- int_truediv (100 * correct) total ;;
   invoke (print [Txt "Validation accuracy: "; Flt val_accuracy ".2f"; Txt "%"]) ;;
   s <- (if PrimFloat.ltb (best_val_accuracy s) val_accuracy
         then
           invoke (print [Txt "Saving model..."]) ;;
           invoke (torch_save (state_dict model) (checkpoint_path fold)) ;;
           Ret {| model := model; optimizer := optimizer; loss := loss;
                  best_val_accuracy := val_accuracy; best_epoch := epoch |}
         else
           Ret {| model := model; optimizer := optimizer; loss := loss;
                  best_val_accuracy := best_val_accuracy s; best_epoch := best_epoch s |}) ;;
   if Nat.ltb patience (epoch - best_epoch s)
   then
     invoke (print [Txt "Early stopping at epoch "; Int (Z.of_nat (epoch + 1))]) ;;
     Ret (Break s)
   else Ret (Continue s))%prog.

Definition fold_body (vars : cell5_vars) (device : string)
    (f : nat * (list nat * list nat)) (loss : option float) : prog ev (option float) :=
  (let '(fold, (train_idx, test_idx)) := f in
   invoke (print [Txt "Fold "; Int (Z.of_nat (fold + 1)); Txt "/"; Int (Z.of_nat num_folds)]) ;;
   invoke (print [Txt "----------"]) ;;
   let train_subset := {| sub_dataset := dataset vars; indices := train_idx |} in
   let val_subset := {| sub_dataset := dataset vars; indices := test_idx |} in
   invoke (print [Txt "Train set size: "; Int (Z.of_nat (length train_idx))]) ;;
   invoke (print [Txt "Test set size: "; Int (Z.of_nat (length test_idx))]) ;;
   let train_loader :=
     {| dl_subset := train_subset; dl_batch_size := batch_size; dl_shuffle := true |} in
   let val_loader :=
     {| dl_subset := val_subset; dl_batch_size := batch_size; dl_shuffle := false |} in
   model <- invoke (create_model model_name true (n_classes vars)) ;;
   let model := to device model in
   let optimizer := Adam learning_rate in
   s <- for_break (seq 0 num_epochs) (epoch_body fold train_loader val_loader)
          {| model := model; optimizer := optimizer; loss := loss;
             best_val_accuracy := 0%float; best_epoch := 0 |} ;;
   Ret (Image.loss s))%prog.

Definition cell_10 (vars : cell5_vars) (device : string) : prog ev unit :=
  (folds <- invoke (kf_split kf (dataset vars) (labels vars)) ;;
   for_in (enumerate folds) (fold_body vars device) None ;;
   Ret tt)%prog.

(** ** Cell 12: out-of-sample predictions and feature embeddings *)

(** [model = timm.create_model(...); model.load_state_dict(torch.load(path));
     model.eval(); model.to(device)] *)
Definition load_checkpoint (vars : cell5_vars) (device path : string) : prog ev Module :=
  (model <- invoke (create_model model_name true (n_classes vars)) ;;
   sd <- invoke (torch_load path) ;;
   model <- invoke (load_state_dict model sd) ;;
   let model := set_training false model in
   Ret (to device model))%prog.

(** [for inputs, _ in tqdm(test_loader): ...append(...)], predicted
    probabilities. *)
Definition predict_batches (model : Module) (batches : list (ndarray * list nat))
  : prog ev (list ndarray) :=
  for_in batches
    (fun b pred_probs_fold =>
       let '(inputs, _) := b in
       outputs <- invoke (forward model inputs) ;;
       outputs <- invoke (softmax outputs 1) ;;
       Ret (pred_probs_fold ++ [outputs]))%prog
    [].

(** The same loop for the feature embeddings. *)
Definition feature_batches (model : Module) (batches : list (ndarray * list nat))
  : prog ev (list ndarray) :=
  for_in batches
    (fun b features_fold =>
       let '(inputs, _) := b in
       outputs <- invoke (forward model inputs) ;;
       Ret (features_fold ++ [outputs]))%prog
    [].

Definition predict_fold (vars : cell5_vars) (device : string) (num_features : nat)
    (f : nat * (list nat * list nat)) (arrays : ndarray * ndarray)
  : prog ev (ndarray * ndarray) :=
  (let '(fold, (_, test_idx)) := f in
   let '(features, pred_probs) := arrays in
   let test_subset := {| sub_dataset := dataset vars; indices := test_idx |} in
   let test_loader :=
     {| dl_subset := test_subset; dl_batch_size := batch_size; dl_shuffle := false |} in
   model <- load_checkpoint vars device (checkpoint_path fold) ;;
   batches <- invoke (iterate test_loader) ;;
   pred_probs_fold <- predict_batches model batches ;;
   rows <- np_concatenate pred_probs_fold ;;
   pred_probs <- setitem_rows pred_probs (n_classes vars) test_idx rows ;;
   model <- load_checkpoint vars device (checkpoint_path 0) ;;
   model <- invoke (reset_classifier model 0) ;;
   batches <- invoke (iterate test_loader) ;;
   features_fold <- feature_batches model batches ;;
   rows <- np_concatenate features_fold ;;
   features <- setitem_rows features num_features test_idx rows ;;
   Ret (features, pred_probs))%prog.

Definition features_path : string := os_path_join DATA_DIR "features.npy".
Definition pred_probs_path : string := os_path_join DATA_DIR "pred_probs.npy".

Definition cell_12 (vars : cell5_vars) (device : string) : prog ev unit :=
  (model <- load_checkpoint vars device (checkpoint_path 0) ;;
   let num_features := num_features model in
   let features := np_zeros (len (dataset vars)) num_features in
   let pred_probs := np_zeros (len (dataset vars)) (n_classes vars) in
   folds <- invoke (kf_split kf (dataset vars) (labels vars)) ;;
   arrays <- for_in (enumerate folds) (predict_fold vars device num_features)
               (features, pred_probs) ;;
   let '(features, pred_probs) := arrays in
   invoke (np_save features_path features) ;;
   invoke (np_save pred_probs_path pred_probs))%prog.

(** The notebook, cell after cell. *)
Definition notebook : prog ev unit :=
  (cell_4 ;;
   vars <- cell_5 ;;
   device <- cell_7 ;;
   cell_10 vars device ;;
   cell_12 vars device)%prog.

(** The entries of a trace that belong to a stage. *)
Definition has_stage (s : stage) (t : entry ev) : bool :=
  match t with
  | Called c _ => bool_decide (s ∈ stages_of c)
  | Shelled _ => false
  end.

(** [np.save(path, ...)] *)
Definition saves_array (path : string) (t : entry ev) : bool :=
  match t with
  | Called (np_save p _) _ => String.eqb p path
  | _ => false
  end.

(** [kf.split] answered with no fold at all. *)
Definition no_folds (t : entry ev) : bool :=
  match t with
  | Called (kf_split _ _ _) (inr []) => true
  | _ => false
  end.

(** The files a call may write: a fold's checkpoint, or one of the two arrays. *)
Definition writes_expected_file {X} (c : ev X) : Prop :=
  match c with
  | torch_save _ path => exists fold, path = checkpoint_path fold
  | np_save path _ => path = features_path \/ path = pred_probs_path
  | _ => True
  end.

(** [kf.split(dataset, labels)] on the splitter of cell 9 and the variables
    of cell 5. *)
Definition split_arguments (v : cell5_vars) {X} (c : ev X) : Prop :=
  match c with
  | kf_split k X' y => k = kf /\ X' = dataset v /\ y = labels v
  | _ => True
  end.

End Image.

(* ===================================================================== *)
(** * find_tabular_errors/find_tabular_errors.ipynb                       *)
(* ===================================================================== *)

Module Tabular.
Import pd.

(** [XGBClassifier(tree_method=..., enable_categorical=...)], not yet fitted. *)
Record XGBClassifier : Type := {
  tree_method : string;
  enable_categorical : bool
}.

(** A fitted classifier: its parameters and the boosted trees (opaque). *)
Record Booster : Type := {
  params : XGBClassifier;
  trees : list Z
}.

Inductive ev : Type -> Type :=
| read_csv (url : string) : ev DataFrame
| fit_transform (y : Series) : ev (list Z)
| train_test_split (df : DataFrame) (random_state : Z) : ev (DataFrame * DataFrame)
| fit (model : XGBClassifier) (X : DataFrame) (y : Series) : ev Booster
| predict (model : Booster) (X : DataFrame) : ev (list Z)
| accuracy_score (y_true : list Z) (y_pred : Series) : ev float
| cross_val_predict (estimator : XGBClassifier) (X : DataFrame) (y : Series)
    (method : string) : ev ndarray
| find_label_issues (labels : Series) (pred_probs : ndarray)
    (return_indices_ranked_by : string) : ev (list nat)
| print (msg : list piece) : ev unit
| display (df : DataFrame) : ev unit.

(** The prints that report a model's accuracy on the test split. *)
Definition reports_accuracy (msg : list piece) : bool :=
  match msg with
  | Txt s :: _ => String.prefix "Accuracy with" s
  | _ => false
  end.

Definition stages_of {X} (c : ev X) : list stage :=
  match c with
  | read_csv _ => [LoadData]
  | fit _ _ _ => [TrainModel]
  | find_label_issues _ _ _ => [DetectIssues]
  | print msg => if reports_accuracy msg then [ReportAccuracy] else []
  | _ => []
  end.

Local Abbreviation invoke := (@call ev _).
Local Abbreviation run_shell := (@bang ev).

(** An integer array stored as a column. *)
Definition int_series (zs : list Z) : Series :=
  {| dtype := "int64"; values := List.map VInt zs |}.

(** [s.astype('category')] *)
Definition astype_category (s : Series) : Series :=
  {| dtype := "category"; values := values s |}.

(** [df[name] = preprocessing.LabelEncoder().fit_transform(df[name])] *)
Definition encode_column (df : DataFrame) (name : string) : prog ev DataFrame :=
  (column <- getitem df name ;;
   codes <- invoke (fit_transform column) ;;
   setitem df name (int_series codes))%prog.

(** The columns that are no feature. *)
Definition non_features : list string := ["stud_ID"; "letter_grade"; "noisy_letter_grade"].

(** ** Cell 4: set-up and data processing *)

Record cell4_vars : Type := {
  df_c : DataFrame;
  df_train : DataFrame;
  df_test : DataFrame;
  test_data : DataFrame;
  test_labels : Series
}.

Definition cell_4 : prog ev cell4_vars :=
  (run_shell "pip install cleanlab==2.2" ;;
   run_shell "pip install xgboost==1.7" ;;
   df <- invoke (read_csv "https://s.cleanlab.ai/student-grades-demo.csv") ;;
   let df_c := df in
   df <- encode_column df "letter_grade" ;;
   df <- encode_column df "noisy_letter_grade" ;;
   df <- encode_column df "notes" ;;
   notes <- getitem df "notes" ;;
   df <- setitem df "notes" (astype_category notes) ;;
   split <- invoke (train_test_split df 0) ;;
   let df_train := reset_index split.1 in
   let df_test := reset_index split.2 in
   test_data <- drop_columns df_test non_features ;;
   test_labels <- getitem df_test "letter_grade" ;;
   Ret {| df_c := df_c; df_train := df_train; df_test := df_test;
          test_data := test_data; test_labels := test_labels |})%prog.

(** ** Cell 6: baseline *)

(** [XGBClassifier(tree_method="hist", enable_categorical=True)] *)
Definition new_model : XGBClassifier :=
  {| tree_method := "hist"; enable_categorical := true |}.

Record cell6_vars : Type := {
  train_data : DataFrame;
  train_labels : Series;
  acc_original : float
}.

Definition percent (x : float) : piece := Flt (x * 100)%float "round1".

Definition cell_6 (v4 : cell4_vars) : prog ev cell6_vars :=
  (train_data <- drop_columns (df_train v4) non_features ;;
   train_labels <- getitem (df_train v4) "noisy_letter_grade" ;;
   model <- invoke (fit new_model train_data train_labels) ;;
   preds <- invoke (predict model (test_data v4)) ;;
   acc_original <- invoke (accuracy_score preds (test_labels v4)) ;;
   invoke (print [Txt "Accuracy with original data: "; percent acc_original; Txt "%"]) ;;
   Ret {| train_data := train_data; train_labels := train_labels;
          acc_original := acc_original |})%prog.

(** ** Cell 9: find label issues *)

Definition cell_9 (v4 : cell4_vars) (v6 : cell6_vars) : prog ev (list nat) :=
  (pred_probs <- invoke (cross_val_predict new_model (train_data v6) (train_labels v6)
                           "predict_proba") ;;
   issue_idx <- invoke (find_label_issues (train_labels v6) pred_probs "self_confidence") ;;
   issue_rows <- iloc (df_train v4) issue_idx ;;
   stud_ID <- getitem issue_rows "stud_ID" ;;
   let issue_stud_id := values stud_ID in
   ids <- getitem (df_c v4) "stud_ID" ;;
   let issues_df := where_ (df_c v4) (isin ids issue_stud_id) in
   issues_df <- sort_values_by_position issues_df "stud_ID" issue_stud_id ;;
   invoke (display (head issues_df)) ;;
   Ret issue_idx)%prog.

(** ** Cell 12: how many of the true errors were found *)

Definition cell_12 (v4 : cell4_vars) (issue_idx : list nat) : prog ev unit :=
  (letter_grade <- getitem (df_train v4) "letter_grade" ;;
   noisy_letter_grade <- getitem (df_train v4) "noisy_letter_grade" ;;
   let true_error_idx := index (where_ (df_train v4) (ne letter_grade noisy_letter_grade)) in
   let found := remove_dups (List.filter (fun i => nat_in i issue_idx) true_error_idx) in
   cl_acc <- int_truediv (length found) (length true_error_idx) ;;
   invoke (print [Txt "Percentage of errors found: "; percent cl_acc; Txt "%"]))%prog.

(** ** Cell 14: retraining without the flagged rows *)

Definition reduction (before after : float) : float :=
  (((1 - before) - (1 - after)) / (1 - before))%float.

Definition cell_14 (v4 : cell4_vars) (v6 : cell6_vars) (issue_idx : list nat)
  : prog ev float :=
  (train_data_cl <- drop (df_train v4) issue_idx ;;
   train_labels_cl <- getitem train_data_cl "noisy_letter_grade" ;;
   train_data_cl <- drop_columns train_data_cl non_features ;;
   model <- invoke (fit new_model train_data_cl train_labels_cl) ;;
   preds <- invoke (predict model (test_data v4)) ;;
   acc_clean <- invoke (accuracy_score preds (test_labels v4)) ;;
   invoke (print [Txt "Accuracy with original data: "; percent (acc_original v6); Txt "%"]) ;;
   invoke (print [Txt "Accuracy with errors found by cleanlab removed: "; percent acc_clean;
                  Txt "%"]) ;;
   let err := reduction (acc_original v6) acc_clean in
   invoke (print [Txt "Reduction in error: "; percent err; Txt "%"]) ;;
   Ret acc_clean)%prog.

(** ** Cell 17: retraining on the labels fixed in Cleanlab Studio *)

Definition cell_17 (v4 : cell4_vars) (v6 : cell6_vars) (acc_clean : float) : prog ev unit :=
  (clean_df <- invoke (read_csv "https://s.cleanlab.ai/student-grades-demo-studio-export.csv") ;;
   stud_ID <- getitem (df_train v4) "stud_ID" ;;
   let train_students := values stud_ID in
   ids <- getitem clean_df "stud_ID" ;;
   let clean_df := where_ clean_df (isin ids train_students) in
   clean_df <- encode_column clean_df "cleanlab_suggested_label" ;;
   clean_df <- encode_column clean_df "notes" ;;
   notes <- getitem clean_df "notes" ;;
   clean_df <- setitem clean_df "notes" (astype_category notes) ;;
   clean_labels <- getitem clean_df "cleanlab_suggested_label" ;;
   clean_data <- select_columns clean_df ["exam_1"; "exam_2"; "exam_3"; "notes"] ;;
   model <- invoke (fit new_model clean_data clean_labels) ;;
   preds <- invoke (predict model (test_data v4)) ;;
   acc_studio <- invoke (accuracy_score preds (test_labels v4)) ;;
   invoke (print [Txt "Accuracy with original data: "; percent (acc_original v6); Txt "%"]) ;;
   invoke (print [Txt "Accuracy with errors found by cleanlab removed: "; percent acc_clean;
                  Txt "%"]) ;;
   invoke (print [Txt "Accuracy with errors found by Studio fixed: "; percent acc_studio;
                  Txt "%"]) ;;
   invoke (print []) ;;
   let clos_err := reduction (acc_original v6) acc_clean in
   let studio_err := reduction acc_clean acc_studio in
   let tot_err := reduction (acc_original v6) acc_studio in
   invoke (print [Txt "Reduction in error using cleanlab opensource over baseline: ";
                  percent clos_err; Txt "%"]) ;;
   invoke (print [Txt "Reduction in error using cleanlab Studio over opensource: ";
                  percent studio_err; Txt "%"]) ;;
   invoke (print [Txt "Reduction in error using Cleanlab Studio over baseline: ";
                  percent tot_err; Txt "%"]))%prog.

Definition notebook : prog ev unit :=
  (v4 <- cell_4 ;;
   v6 <- cell_6 v4 ;;
   issue_idx <- cell_9 v4 v6 ;;
   cell_12 v4 issue_idx ;;
   acc_clean <- cell_14 v4 v6 issue_idx ;;
   cell_17 v4 v6 acc_clean)%prog.

(** The entries of a trace that belong to a stage. *)
Definition has_stage (s : stage) (t : entry ev) : bool :=
  match t with
  | Called c _ => bool_decide (s ∈ stages_of c)
  | Shelled _ => false
  end.

(** A [print] whose text starts with [s]. *)
Definition prints_text (s : string) (t : entry ev) : bool :=
  match t with
  | Called (print (Txt s' :: _)) _ => String.eqb s s'
  | _ => false
  end.

(** ** Reading a history of calls *)

(** What [train_test_split], [find_label_issues] answered. *)
Definition split_answer (t : entry ev) : option (DataFrame * DataFrame) :=
  match t with
  | Called c r =>
      match c in ev X return exn + X -> option (DataFrame * DataFrame) with
      | train_test_split _ _ => fun r => match r with inr p => Some p | inl _ => None end
      | _ => fun _ => None
      end r
  | Shelled _ => None
  end.

Definition issues_answer (t : entry ev) : option (list nat) :=
  match t with
  | Called c r =>
      match c in ev X return exn + X -> option (list nat) with
      | find_label_issues _ _ _ => fun r => match r with inr i => Some i | inl _ => None end
      | _ => fun _ => None
      end r
  | Shelled _ => None
  end.

Definition is_fit (t : entry ev) : bool :=
  match t with
  | Called (fit _ _ _) _ => true
  | _ => false
  end.

(** The training and the test table of a history: the two parts
    [train_test_split] returned, re-indexed. *)
Definition the_split (hist : list (entry ev)) : option (DataFrame * DataFrame) :=
  match omap split_answer hist with
  | (train, test) :: _ => Some (reset_index train, reset_index test)
  | [] => None
  end.

Definition the_issues (hist : list (entry ev)) : option (list nat) :=
  last (omap issues_answer hist).

Definition fits_before (hist : list (entry ev)) : nat := length (List.filter is_fit hist).

(** C3 for this notebook: [find_label_issues] is called once, on the noisy
    labels of the training table and on what [cross_val_predict] has just
    returned for them, and is asked for ranked indices. *)
Definition detector_contract (hist : list (entry ev)) {X} (c : ev X) : Prop :=
  match c with
  | find_label_issues labels pred_probs ranked_by =>
      the_issues hist = None /\
      ranked_by = "self_confidence" /\
      (exists X, last hist = Some (Called (cross_val_predict new_model X labels "predict_proba")
                                     (inr pred_probs))) /\
      (exists train test, the_split hist = Some (train, test) /\
         lookup_column "noisy_letter_grade" (columns train) = Some labels)
  | _ => True
  end.

(** C4 for this notebook: every fit is of a new [XGBClassifier] with the
    same two parameters; the first one is on the training table, the second
    one on the training table without the flagged rows; every prediction is
    on the features of the test table and every accuracy is against its
    [letter_grade] column. *)
Definition retrain_contract (hist : list (entry ev)) {X} (c : ev X) : Prop :=
  match c with
  | fit model X y =>
      model = new_model /\
      (fits_before hist = 0 ->
       exists train test,
         the_split hist = Some (train, test) /\
         @drop_columns ev train non_features = Ret X /\
         lookup_column "noisy_letter_grade" (columns train) = Some y) /\
      (fits_before hist = 1 ->
       exists train test issue_idx,
         the_split hist = Some (train, test) /\
         the_issues hist = Some issue_idx /\
         @drop_columns ev (without_labels train issue_idx) non_features = Ret X /\
         lookup_column "noisy_letter_grade" (columns (without_labels train issue_idx)) = Some y)
  | predict _ X =>
      exists train test, the_split hist = Some (train, test) /\
        @drop_columns ev test non_features = Ret X
  | accuracy_score _ y =>
      exists train test, the_split hist = Some (train, test) /\
        lookup_column "letter_grade" (columns test) = Some y
  | _ => True
  end.

(** C9, first part: the tables given to the models have no column named
    [letter_grade]. *)
Definition features_contract {X} (c : ev X) : Prop :=
  match c with
  | fit _ X _ | predict _ X | cross_val_predict _ X _ _ =>
      "letter_grade" ∉ column_names X
  | _ => True
  end.

Definition contract (hist : list (entry ev)) {X} (c : ev X) : Prop :=
  detector_contract hist c /\ retrain_contract hist c /\ features_contract c.

(** What the later cells know about the calls made so far. *)
Definition split_known (v4 : cell4_vars) (hist : list (entry ev)) : Prop :=
  the_split hist = Some (df_train v4, df_test v4) /\
  @drop_columns ev (df_test v4) non_features = Ret (test_data v4) /\
  lookup_column "letter_grade" (columns (df_test v4)) = Some (test_labels v4).

End Tabular.

(* ===================================================================== *)
(** * transformer_sklearn/transformer_sklearn.ipynb (src/unnamed/part_000) *)
(* ===================================================================== *)

Module Transformer.
Import pd.

(** A Python object the notebook holds a reference to (tokenizer, wrapped
    model, CleanLearning): two variables with the same reference are the same
    object, so a call that changes it is seen through both. *)
Definition obj : Type := nat.

(** ** Cell 15: the Keras network *)

(** Symbolic Keras tensors: the layer graph [build_model] assembles. *)
Inductive lambda_fn : Type :=
| times_zero            (** [lambda x: x * 0] *)
| cast_nonzero_int32.   (** [lambda x: tf.cast(x != 0, tf.int32)] *)

Inductive KerasTensor : Type :=
| Input (shape : list nat) (dtype name : string)
| Lambda (f : lambda_fn) (name : string) (x : KerasTensor)
| pooled_output (bert : obj) (input_ids token_type_ids attention_mask : KerasTensor)
| Dense (units : nat) (activation : string) (x : KerasTensor).

Record KerasModel : Type := { inputs : list KerasTensor; outputs : KerasTensor }.

Inductive keras : Type -> Type :=
| TFAutoModel_from_pretrained (model_name : string) : keras obj.

Definition build_model (model_name : string) (max_len n_classes : nat)
  : prog keras KerasModel :=
  (let input_ids := Input [max_len] "int32" "input_ids" in
   let token_type_ids := Lambda times_zero "token_type_ids" input_ids in
   let attention_mask := Lambda cast_nonzero_int32 "attention_mask" input_ids in
   bert_layer <- call (TFAutoModel_from_pretrained model_name) ;;
   let layer := pooled_output bert_layer input_ids token_type_ids attention_mask in
   let output_layer := Dense n_classes "softmax" layer in
   Ret {| inputs := [input_ids]; outputs := output_layer |})%prog.

(** The functions of the notebook that it hands to a library. *)
Inductive callback : Type :=
| fn_build_model.

(** ** Arguments of the library calls *)

Record model_kwargs_t : Type := {
  kw_model_name : string;
  kw_max_len : nat;
  kw_n_classes : nat
}.

Record compile_kwargs_t : Type := {
  kw_optimizer : string * float;      (** [tf.keras.optimizers.Adam(2e-5)] *)
  kw_loss : string;
  kw_metrics : list string
}.

Record fit_kwargs : Type := { epochs : nat; kw_batch_size : nat }.

Record GridSearchCV : Type := {
  estimator : obj;
  param_grid : list (string * list nat);
  refit : bool;
  cv : nat;
  verbose : nat;
  scoring : string;
  error_score : string
}.

Record GridSearchResult : Type := {
  best_score_ : float;
  best_params_ : list (string * nat)
}.

(** What the tokenizer returns. *)
Record BatchEncoding : Type := {
  input_ids : list (list Z);
  token_type_ids : list (list Z);
  attention_mask : list (list Z)
}.

(** The table [get_label_issues()] returns: one row per training example. *)
Record LabelIssues : Type := {
  is_label_issue : list bool;
  label_quality : list float;
  given_label : list Z;
  predicted_label : list Z
}.

Inductive ev : Type -> Type :=
| read_csv (url : string) : ev DataFrame
| AutoTokenizer_from_pretrained (name : string) : ev obj
| tokenize (tokenizer : obj) (texts : list value) (padding : string) (truncation : bool)
    (max_length : nat) (return_tensors : string) : ev BatchEncoding
| KerasWrapperModel (model : callback) (model_kwargs : model_kwargs_t)
    (compile_kwargs : compile_kwargs_t) : ev obj
| summary (model : obj) : ev unit
| gs_fit (gs : GridSearchCV) (X : list (list Z)) (y : list value) : ev GridSearchResult
| fit (model : obj) (X : list (list Z)) (y : list value) (kwargs : fit_kwargs) : ev unit
| predict (model : obj) (X : list (list Z)) : ev (list Z)
| CleanLearning (clf : obj) (cv_n_folds : nat) (verbose : bool) : ev obj
| cl_fit (cl : obj) (X : list (list Z)) (labels : list value) (clf_kwargs : fit_kwargs)
    : ev unit
| get_label_issues (cl : obj) : ev LabelIssues
| print (msg : list piece) : ev unit
| display (t : LabelIssues) : ev unit.

Definition reports_accuracy (msg : list piece) : bool :=
  match msg with
  | Txt "Base model accuracy = " :: _ => true
  | Txt "CleanLearning model accuracy = " :: _ => true
  | _ => false
  end.

(** [CleanLearning.fit] finds the label issues and retrains in one call. *)
Definition stages_of {X} (c : ev X) : list stage :=
  match c with
  | read_csv _ => [LoadData]
  | fit _ _ _ _ => [TrainModel]
  | cl_fit _ _ _ _ => [DetectIssues; TrainModel]
  | get_label_issues _ => [DetectIssues]
  | print msg => if reports_accuracy msg then [ReportAccuracy] else []
  | _ => []
  end.

Local Abbreviation invoke := (@call ev _).

Definition show (v : value) : piece :=
  match v with
  | VInt z => Int z
  | VStr s => Txt s
  | NaN => Txt "nan"
  end.

(** [df.iloc[i][name]] *)
Definition iloc_at (df : DataFrame) (i : nat) (name : string) : prog ev value :=
  (row <- iloc df [i] ;;
   column <- getitem row name ;;
   match values column with
   | v :: _ => Ret v
   | [] => Raise (IndexError "single positional indexer is out-of-bounds")
   end)%prog.

(** [i = ...; print(f"Example Label: ..."); print(f"Example Text: ...")] *)
Definition print_example (train_data : DataFrame) (i : nat) : prog ev unit :=
  (label <- iloc_at train_data i "label" ;;
   invoke (print [Txt "Example Label: "; show label]) ;;
   text <- iloc_at train_data i "review_text" ;;
   invoke (print [Txt "Example Text: "; show text]))%prog.

(** ** Cells 7 to 12: loading and preprocessing *)

Definition MODEL_NAME : string := "bert-base-uncased".

Record data_vars : Type := {
  train_data : DataFrame;
  train_input_ids : list (list Z);
  train_labels : list value;
  test_input_ids : list (list Z);
  test_labels : list value
}.

Definition load_and_preprocess : prog ev data_vars :=
  (train_data <- invoke (read_csv "https://s.cleanlab.ai/amazon_reviews/train.csv") ;;
   test_data <- invoke (read_csv "https://s.cleanlab.ai/amazon_reviews/test.csv") ;;
   print_example train_data 0 ;;
   tokenizer <- invoke (AutoTokenizer_from_pretrained MODEL_NAME) ;;
   train_text <- getitem train_data "review_text" ;;
   train_input <- invoke (tokenize tokenizer (values train_text) "max_length" true 30 "tf") ;;
   test_text <- getitem test_data "review_text" ;;
   test_input <- invoke (tokenize tokenizer (values test_text) "max_length" true 30 "tf") ;;
   train_label <- getitem train_data "label" ;;
   test_label <- getitem test_data "label" ;;
   Ret {| train_data := train_data;
          train_input_ids := input_ids train_input;
          train_labels := values train_label;
          test_input_ids := input_ids test_input;
          test_labels := values test_label |})%prog.

(** ** Cells 17 and 30: the wrapped model *)

Definition the_model_kwargs : model_kwargs_t :=
  {| kw_model_name := MODEL_NAME; kw_max_len := 30; kw_n_classes := 2 |}.

Definition the_compile_kwargs : compile_kwargs_t :=
  {| kw_optimizer := ("Adam", 2e-5%float);
     kw_loss := "SparseCategoricalCrossentropy";
     kw_metrics := ["accuracy"] |}.

Definition new_model : prog ev obj :=
  invoke (KerasWrapperModel fn_build_model the_model_kwargs the_compile_kwargs).

(** ** Cells 22 and 23: grid search *)

Definition params : list (string * list nat) :=
  [("batch_size", [32; 64]); ("epochs", [5; 10])].

Definition show_params (ps : list (string * nat)) : list piece :=
  flat_map (fun p => [Txt p.1; Int (Z.of_nat p.2)]) ps.

Definition grid_search (model : obj) (d : data_vars) : prog ev unit :=
  (let gs := {| estimator := model; param_grid := params; refit := false; cv := 3;
                verbose := 2; scoring := "accuracy"; error_score := "raise" |} in
   r <- invoke (gs_fit gs (train_input_ids d) (train_labels d)) ;;
   invoke (print ([Txt "best score: "; Flt (best_score_ r) ".3f"; Txt ", best params: "]
                  ++ show_params (best_params_ r))))%prog.

(** ** Cells 25 to 27 and 33, 34: accuracy on the test set *)

(** [np.mean(preds == labels)] for two arrays of one length (numpy refuses
    to compare arrays it cannot broadcast). *)
Definition mean_equal (preds : list Z) (labels : list value) : prog ev float :=
  if Nat.eqb (length preds) (length labels)
  then Ret (float_of_nat (length (List.filter (fun p => bool_decide (VInt p.1 = p.2))
                                     (zip preds labels)))
            / float_of_nat (length preds))%float
  else Raise (ValueError "operands could not be broadcast together").

Definition test_accuracy (model : obj) (d : data_vars) : prog ev float :=
  (preds <- invoke (predict model (test_input_ids d)) ;;
   mean_equal preds (test_labels d))%prog.

(** ** Cell 37: the ten lowest label-quality scores *)

Fixpoint insert_by_score (k : float * nat) (sorted : list (float * nat))
  : list (float * nat) :=
  match sorted with
  | [] => [k]
  | k' :: rest => if PrimFloat.ltb k.1 k'.1 then k :: sorted else k' :: insert_by_score k rest
  end.

(** [s.argsort()] on scores that are numbers. *)
Definition argsort (scores : list float) : list nat :=
  (fold_right insert_by_score [] (zip scores (seq 0 (length scores)))).*2.

Definition notebook : prog ev unit :=
  (d <- load_and_preprocess ;;
   model <- new_model ;;
   invoke (summary model) ;;
   grid_search model d ;;
   invoke (fit model (train_input_ids d) (train_labels d) {| epochs := 5; kw_batch_size := 64 |}) ;;
   model_accuracy <- test_accuracy model d ;;
   invoke (print [Txt "Base model accuracy = "; Flt model_accuracy ""]) ;;
   model <- new_model ;;
   cl <- invoke (CleanLearning model 3 true) ;;
   invoke (cl_fit cl (train_input_ids d) (train_labels d)
             {| epochs := 5; kw_batch_size := 64 |}) ;;
   cl_accuracy <- test_accuracy model d ;;
   invoke (print [Txt "CleanLearning model accuracy = "; Flt cl_accuracy ""]) ;;
   label_issues <- invoke (get_label_issues cl) ;;
   invoke (display label_issues) ;;
   label_issues <- invoke (get_label_issues cl) ;;
   let lowest_quality_issues := firstn 10 (argsort (label_quality label_issues)) in
   invoke (print (Txt "index of the top 10 most likely errors: "
                  :: List.map (fun i => Int (Z.of_nat i)) lowest_quality_issues)) ;;
   print_example (train_data d) 3477 ;;
   print_example (train_data d) 4560 ;;
   print_example (train_data d) 4516)%prog.

(** The entries of a trace that belong to a stage. *)
Definition has_stage (s : stage) (t : entry ev) : bool :=
  match t with
  | Called c _ => bool_decide (s ∈ stages_of c)
  | Shelled _ => false
  end.

(** A [print] whose text starts with [s]. *)
Definition prints_text (s : string) (t : entry ev) : bool :=
  match t with
  | Called (print (Txt s' :: _)) _ => String.eqb s s'
  | _ => false
  end.

(** ** Reading a history of calls *)

Definition csv_answer (t : entry ev) : option DataFrame :=
  match t with
  | Called c r =>
      match c in ev X return exn + X -> option DataFrame with
      | read_csv _ => fun r => match r with inr df => Some df | inl _ => None end
      | _ => fun _ => None
      end r
  | Shelled _ => None
  end.

Definition encoding_answer (t : entry ev) : option BatchEncoding :=
  match t with
  | Called c r =>
      match c in ev X return exn + X -> option BatchEncoding with
      | tokenize _ _ _ _ _ _ => fun r => match r with inr e => Some e | inl _ => None end
      | _ => fun _ => None
      end r
  | Shelled _ => None
  end.

(** The labels and the token ids of the training set (first file, first
    tokenizer call) or of the test set (second ones). *)
Definition labels_of (hist : list (entry ev)) (which : nat) : option (list value) :=
  df ← omap csv_answer hist !! which;
  values <$> lookup_column "label" (columns df).

Definition token_ids_of (hist : list (entry ev)) (which : nat) : option (list (list Z)) :=
  input_ids <$> omap encoding_answer hist !! which.

(** The wrapped models made so far, with the arguments they were made with,
    and the [CleanLearning] objects, with the classifier they wrap. *)
Definition wrapper_answer (t : entry ev)
  : option (callback * model_kwargs_t * compile_kwargs_t * obj) :=
  match t with
  | Called c r =>
      match c in ev X return exn + X -> option _ with
      | KerasWrapperModel f mk ck =>
          fun r => match r with inr m => Some (f, mk, ck, m) | inl _ => None end
      | _ => fun _ => None
      end r
  | Shelled _ => None
  end.

Definition cleanlearning_answer (t : entry ev) : option (obj * nat * bool * obj) :=
  match t with
  | Called c r =>
      match c in ev X return exn + X -> option _ with
      | CleanLearning clf n v =>
          fun r => match r with inr cl => Some (clf, n, v, cl) | inl _ => None end
      | _ => fun _ => None
      end r
  | Shelled _ => None
  end.

(** The object was made by [KerasWrapperModel(model=build_model, ...)] with
    the arguments of cells 17 and 30. *)
Definition wrapped_model (hist : list (entry ev)) (model : obj) : Prop :=
  (fn_build_model, the_model_kwargs, the_compile_kwargs, model) ∈ omap wrapper_answer hist.

(** [cl] is [CleanLearning(clf=clf, cv_n_folds=3, verbose=True)]. *)
Definition wraps (hist : list (entry ev)) (cl clf : obj) : Prop :=
  (clf, 3, true, cl) ∈ omap cleanlearning_answer hist.

(** C3 for this notebook: what the calls that find label issues are given,
    and where the ranking that is printed comes from. *)
Definition detector_contract (hist : list (entry ev)) {X} (c : ev X) : Prop :=
  match c with
  | cl_fit cl X labels _ =>
      (exists clf, wraps hist cl clf) /\
      token_ids_of hist 0 = Some X /\
      labels_of hist 0 = Some labels
  | get_label_issues cl => exists clf, wraps hist cl clf
  | print (Txt "index of the top 10 most likely errors: " :: ranking) =>
      exists cl label_issues,
        last hist = Some (Called (get_label_issues cl) (inr label_issues)) /\
        ranking = List.map (fun i => Int (Z.of_nat i))
                    (firstn 10 (argsort (label_quality label_issues)))
  | _ => True
  end.

(** C4 for this notebook. *)
Definition retrain_contract (hist : list (entry ev)) {X} (c : ev X) : Prop :=
  match c with
  | fit model X y kwargs =>
      wrapped_model hist model /\
      kwargs = {| epochs := 5; kw_batch_size := 64 |} /\
      token_ids_of hist 0 = Some X /\ labels_of hist 0 = Some y
  | CleanLearning clf _ _ => wrapped_model hist clf
  | cl_fit cl X y kwargs =>
      kwargs = {| epochs := 5; kw_batch_size := 64 |} /\
      token_ids_of hist 0 = Some X /\ labels_of hist 0 = Some y
  | predict model X =>
      wrapped_model hist model /\
      token_ids_of hist 1 = Some X /\
      (forall cl clf, wraps hist cl clf -> clf = model)
  | print (Txt "Base model accuracy = " :: rest)
  | print (Txt "CleanLearning model accuracy = " :: rest) =>
      exists model X preds labels accuracy,
        last hist = Some (Called (predict model X) (inr preds)) /\
        labels_of hist 1 = Some labels /\
        mean_equal preds labels = Ret accuracy /\
        rest = [Flt accuracy ""]
  | _ => True
  end.

Definition contract (hist : list (entry ev)) {X} (c : ev X) : Prop :=
  detector_contract hist c /\ retrain_contract hist c.

(** What the later cells know about the calls of the loading cells. *)
Definition data_known (d : data_vars) (hist : list (entry ev)) : Prop :=
  token_ids_of hist 0 = Some (train_input_ids d) /\
  token_ids_of hist 1 = Some (test_input_ids d) /\
  labels_of hist 0 = Some (train_labels d) /\
  labels_of hist 1 = Some (test_labels d).

End Transformer.

(* ===================================================================== *)
(** * The libraries behind the image notebook, as functions               *)
(* ===================================================================== *)

(** The claims about which model produced which row of [pred_probs] need the
    libraries to answer: this section fixes their documented behaviour as
    functions ([Library]) and derives an environment from it.  Randomness
    that the notebook does not seed (weight initialisation of the new head,
    the shuffling of the training loader, dropout) reads and advances the
    generator state of the world. *)
Module ImageLibrary.
Import Image.

(** A value on its way through the transform pipeline. *)
Inductive item : Type :=
| AnImage (img : PILImage)
| ATensor (t : list float).

Record Library : Type := {
  (** the images and class folders found under a root directory *)
  disk : string -> exn + (list (PILImage * nat) * list string);
  cuda : bool;
  (** [StratifiedKFold.split]: a function of the splitter (its integer
      [random_state] included), the number of samples and the labels *)
  split : StratifiedKFold -> nat -> list nat -> exn + list (list nat * list nat);
  (** [PIL.Image.convert] *)
  convert : PILImage -> string -> exn + PILImage;
  (** the torchvision transforms other than [Lambda] *)
  apply_step : transform_step -> item -> exn + item;
  (** [torch.randperm(n)] *)
  randperm : N -> nat -> list nat * N;
  (** [timm.create_model] *)
  new_module : string -> bool -> nat -> N -> (exn + Module) * N;
  (** one optimisation step on a batch *)
  optimise : Module -> Optimizer -> ndarray -> list nat -> N
             -> (exn + (Module * Optimizer * float)) * N;
  (** [model(inputs)] in eval mode *)
  apply_module : Module -> ndarray -> exn + ndarray;
  row_max : ndarray -> nat -> exn + (list float * list nat);
  row_softmax : ndarray -> nat -> exn + ndarray;
  (** [model.reset_classifier(n)] *)
  new_head : Module -> nat -> exn + Module
}.

(** A file written by the notebook. *)
Inductive file : Type :=
| Checkpoint (sd : StateDict)
| Array (a : ndarray).

Record World : Type := {
  files : gmap string file;
  generator : N;
  stdout : list (list piece)
}.

Definition write (path : string) (f : file) (w : World) : World :=
  {| files := <[path := f]> (files w); generator := generator w; stdout := stdout w |}.

Definition seeded (g : N) (w : World) : World :=
  {| files := files w; generator := g; stdout := stdout w |}.

Definition printed (msg : list piece) (w : World) : World :=
  {| files := files w; generator := generator w; stdout := stdout w ++ [msg] |}.

(** What [ImageFolder] returns for the images [smp] in the classes [cls]. *)
Definition image_folder (smp : list (PILImage * nat)) (cls : list string) : Dataset :=
  {| root := os_path_join DATA_DIR "caltech256-subset"; ds_transform := transform;
     samples := smp; classes := cls |}.

(** The loader cell 12 makes for the held-out indices of a fold. *)
Definition test_loader (d : Dataset) (te : list nat) : DataLoader :=
  {| dl_subset := {| sub_dataset := d; indices := te |};
     dl_batch_size := batch_size; dl_shuffle := false |}.

(** The held-out parts of the folds are a partition of the indices below
    [n]: no index is listed twice, every index listed is below [n], and every
    index below [n] is listed. *)
Definition partition_of (n : nat) (parts : list (list nat)) : Prop :=
  NoDup (concat parts) /\
  Forall (fun i => i < n) (concat parts) /\
  Forall (fun i => i ∈ concat parts) (seq 0 n).

(** A call of [kf.split] on the splitter of cell 9, the data set and its
    labels, answered [folds]. *)
Definition splits_as (d : Dataset) (folds : list (list nat * list nat)) (t : entry ev) : Prop :=
  match t with
  | Called (kf_split k X y) r => k = kf /\ X = d /\ y = targets d /\ r = inr folds
  | _ => True
  end.

Section WithLibrary.
Context (L : Library).

(** PIL, for the callbacks of the notebook. *)
Definition pil_env : env pil unit :=
  Env (fun X (c : pil X) w =>
         match c in pil X return (exn + X) * unit with
         | Image_convert img m => (convert L img m, w)
         end)
      (fun _ w => w).

Definition apply_transform_step (s : transform_step) (x : item) : exn + item :=
  match s, x with
  | Lambda f, AnImage img =>
      match result (run pil_env (apply_callback f img) tt) with
      | inl e => inl e
      | inr img' => inr (AnImage img')
      end
  | _, _ => apply_step L s x
  end.

Fixpoint apply_transform (steps : list transform_step) (x : item) : exn + item :=
  match steps with
  | [] => inr x
  | s :: steps' =>
      match apply_transform_step s x with
      | inl e => inl e
      | inr y => apply_transform steps' y
      end
  end.

(** [dataset[i]] *)
Definition sample (d : Dataset) (i : nat) : exn + (list float * nat) :=
  match samples d !! i with
  | None => inl (IndexError "list index out of range")
  | Some (img, target) =>
      match apply_transform (ds_transform d) (AnImage img) with
      | inl e => inl e
      | inr (ATensor t) => inr (t, target)
      | inr (AnImage _) => inl (LibraryError "torch" "default_collate: batch must contain tensors")
      end
  end.

Fixpoint samples_at (d : Dataset) (idxs : list nat) : exn + list (list float * nat) :=
  match idxs with
  | [] => inr []
  | i :: idxs' =>
      match sample d i with
      | inl e => inl e
      | inr s => match samples_at d idxs' with
                 | inl e => inl e
                 | inr ss => inr (s :: ss)
                 end
      end
  end.

(** The batch made of the samples at [idxs]. *)
Definition collate (d : Dataset) (idxs : list nat) : exn + (ndarray * list nat) :=
  match samples_at d idxs with
  | inl e => inl e
  | inr ss => inr (ss.*1, ss.*2)
  end.

Fixpoint collate_all (d : Dataset) (chunks : list (list nat))
  : exn + list (ndarray * list nat) :=
  match chunks with
  | [] => inr []
  | c :: chunks' =>
      match collate d c with
      | inl e => inl e
      | inr b => match collate_all d chunks' with
                 | inl e => inl e
                 | inr bs => inr (b :: bs)
                 end
      end
  end.

(** Consecutive pieces of [n] elements, the last one possibly shorter. *)
Fixpoint chunks_aux {A} (fuel n : nat) (l : list A) : list (list A) :=
  match fuel with
  | 0 => []
  | S fuel' =>
      match l with
      | [] => []
      | _ => firstn n l :: chunks_aux fuel' n (skipn n l)
      end
  end.

Definition chunks {A} (n : nat) (l : list A) : list (list A) := chunks_aux (length l) n l.

(** Iterating a [DataLoader]: the indices of the subset, shuffled if asked
    for, cut into batches, each sample read through the transform. *)
Definition batches_of (loader : DataLoader) (order : list nat)
  : exn + list (ndarray * list nat) :=
  collate_all (sub_dataset (dl_subset loader)) (chunks (dl_batch_size loader) order).

Definition iterate_loader (loader : DataLoader) (w : World)
  : (exn + list (ndarray * list nat)) * World :=
  let idxs := indices (dl_subset loader) in
  if Nat.eqb (dl_batch_size loader) 0
  then (inl (ValueError "batch_size should be a positive integer value"), w)
  else if dl_shuffle loader
  then let '(perm, g) := randperm L (generator w) (length idxs) in
       (batches_of loader (omap (fun p => idxs !! p) perm), seeded g w)
  else (batches_of loader idxs, w).

(** [model.load_state_dict(sd)]: the parameter names and sizes must be those
    of the model. *)
Definition same_layout (a b : StateDict) : bool :=
  bool_decide (List.map (fun p => (p.1, length p.2)) a = List.map (fun p => (p.1, length p.2)) b).

Definition with_state_dict (m : Module) (sd : StateDict) : Module :=
  {| arch := arch m; head_classes := head_classes m; num_features := num_features m;
     state_dict := sd; training := training m; device := device m |}.

Definition answer {X} (c : ev X) (w : World) : (exn + X) * World :=
  match c in ev X return (exn + X) * World with
  | ImageFolder root transform =>
      match disk L root with
      | inl e => (inl e, w)
      | inr (samples, classes) =>
          (inr {| root := root; ds_transform := transform;
                  samples := samples; classes := classes |}, w)
      end
  | cuda_is_available => (inr (cuda L), w)
  | kf_split kf X y => (split L kf (len X) y, w)
  | create_model name pretrained n =>
      let '(r, g) := new_module L name pretrained n (generator w) in (r, seeded g w)
  | iterate loader => iterate_loader loader w
  | train_step m opt inputs targets =>
      let '(r, g) := optimise L m opt inputs targets (generator w) in (r, seeded g w)
  | forward m inputs => (apply_module L m inputs, w)
  | torch_max outputs dim => (row_max L outputs dim, w)
  | softmax outputs dim => (row_softmax L outputs dim, w)
  | reset_classifier m n => (new_head L m n, w)
  | torch_save sd path => (inr tt, write path (Checkpoint sd) w)
  | torch_load path =>
      match files w !! path with
      | Some (Checkpoint sd) => (inr sd, w)
      | Some (Array _) => (inl (LibraryError "torch" "invalid load key"), w)
      | None => (inl (LibraryError "torch" "No such file or directory"), w)
      end
  | load_state_dict m sd =>
      if same_layout (state_dict m) sd
      then (inr (with_state_dict m sd), w)
      else (inl (LibraryError "torch" "Error(s) in loading state_dict"), w)
  | np_save path arr => (inr tt, write path (Array arr) w)
  | print msg => (inr tt, printed msg w)
  end.

Definition environment : env ev World := Env (@answer) (fun _ w => w).

(** ** What a checkpoint was trained on *)

(** [trained_on d S sd]: the weights [sd] are those of a freshly created
    model, possibly followed by optimisation steps on batches made of
    samples of [d] at indices in [S] only. *)
Inductive trained_on (d : Dataset) (S : list nat) : StateDict -> Prop :=
| trained_fresh name pretrained n g m g' :
    new_module L name pretrained n g = (inr m, g') ->
    trained_on d S (state_dict m)
| trained_step m opt idxs inputs targets g m' opt' l g' :
    trained_on d S (state_dict m) ->
    idxs ⊆ S ->
    collate d idxs = inr (inputs, targets) ->
    optimise L m opt inputs targets g = (inr (m', opt', l), g') ->
    trained_on d S (state_dict m').

(** The rows the notebook stores for one fold: the outputs of [m] on the
    batches of the fold's held-out indices, one after the other. *)
Fixpoint outputs_on (post : ndarray -> exn + ndarray) (m : Module)
    (batches : list (ndarray * list nat)) : exn + ndarray :=
  match batches with
  | [] => inr []
  | (inputs, _) :: batches' =>
      match apply_module L m inputs with
      | inl e => inl e
      | inr out =>
          match post out with
          | inl e => inl e
          | inr out' =>
              match outputs_on post m batches' with
              | inl e => inl e
              | inr rest => inr (out' ++ rest)
              end
          end
      end
  end.


(** ** What cell 12 stores *)

(** [rows] is what cell 12 assigns at the held-out indices [te] of a fold:
    the outputs of [m] on the batches of [te] (passed through [post]), one
    after the other, broadcast to [len(te)] rows of [ncols] columns. *)
Definition held_out_outputs (d : Dataset) (post : ndarray -> exn + ndarray)
    (ncols : nat) (m : Module) (te : list nat) (rows : ndarray) : Prop :=
  exists batches out,
    batches_of (test_loader d te) te = inr batches /\
    outputs_on post m batches = inr out /\
    broadcast_to (length te) ncols out = Some rows.

(** Every checkpoint file in the world [w] was there in [w0] already, or
    holds weights trained on the training part of its fold. *)
Definition checkpoints_ok (d : Dataset) (folds : list (list nat * list nat))
    (w0 w : World) : Prop :=
  forall k sd, files w !! checkpoint_path k = Some (Checkpoint sd) ->
    files w0 !! checkpoint_path k = Some (Checkpoint sd) \/
    exists tr te, folds !! k = Some (tr, te) /\ trained_on d tr sd.

(** Where the weights of a model loaded from the checkpoint of fold [k] come
    from. *)
Definition loaded_from (smp : list (PILImage * nat)) (cls : list string)
    (folds : list (list nat * list nat)) (w0 : World) (k : nat) (m : Module) : Prop :=
  files w0 !! checkpoint_path k = Some (Checkpoint (state_dict m)) \/
  exists tr te, folds !! k = Some (tr, te) /\
    trained_on (image_folder smp cls) tr (state_dict m).

(** The assignment [pred_probs[test_idx] = ...] and [features[test_idx] = ...]
    of one fold [x = (fold, (train_idx, test_idx))]. *)
Definition pred_probs_written (smp : list (PILImage * nat)) (cls : list string)
    (folds : list (list nat * list nat)) (w0 : World)
    (x : nat * (list nat * list nat)) (wr : list nat * ndarray) : Prop :=
  wr.1 = x.2.2 /\
  exists m, loaded_from smp cls folds w0 x.1 m /\
    held_out_outputs (image_folder smp cls) (fun o => row_softmax L o 1) (length cls) m
      x.2.2 wr.2.

Definition features_written (smp : list (PILImage * nat)) (cls : list string) (nf : nat)
    (x : nat * (list nat * list nat)) (wr : list nat * ndarray) : Prop :=
  wr.1 = x.2.2 /\ exists m, held_out_outputs (image_folder smp cls) inr nf m x.2.2 wr.2.

(** The two arrays at the end of the run: zeros, then the rows of each fold
    stored at the fold's held-out indices. *)
Definition saved (smp : list (PILImage * nat)) (cls : list string)
    (folds : list (list nat * list nat)) (w0 : World) (nf : nat) (w : World) : Prop :=
  exists wF wP,
    files w !! features_path = Some (Array (stores (np_zeros (length smp) nf) wF)) /\
    files w !! pred_probs_path
      = Some (Array (stores (np_zeros (length smp) (length cls)) wP)) /\
    Forall2 (features_written smp cls nf) (enumerate folds) wF /\
    Forall2 (pred_probs_written smp cls folds w0) (enumerate folds) wP.

End WithLibrary.
End ImageLibrary.

(* ===================================================================== *)
(** * The libraries behind the tabular notebook, as functions             *)
(* ===================================================================== *)

Module TabularLibrary.
Import pd Tabular.

(** scikit-learn, XGBoost and cleanlab as functions of their arguments.
    [train_test_split] without [stratify] draws a permutation of the row
    positions from the number of rows and [random_state] alone;
    [split_rows] is that choice. *)
Record Library : Type := {
  csv : string -> exn + DataFrame;
  encode : Series -> exn + list Z;
  split_rows : nat -> Z -> exn + (list nat * list nat);
  xgb_fit : XGBClassifier -> DataFrame -> Series -> exn + Booster;
  xgb_predict : Booster -> DataFrame -> exn + list Z;
  accuracy : list Z -> Series -> exn + float;
  cv_predict : XGBClassifier -> DataFrame -> Series -> string -> exn + ndarray;
  label_issues : Series -> ndarray -> string -> exn + list nat
}.

(** What the notebook shows. *)
Inductive output : Type :=
| Printed (msg : list piece)
| Displayed (df : DataFrame).

Definition answer (L : Library) {X} (c : ev X) (w : list output)
  : (exn + X) * list output :=
  match c in ev X return (exn + X) * list output with
  | read_csv url => (csv L url, w)
  | fit_transform y => (encode L y, w)
  | train_test_split df random_state =>
      match split_rows L (nrows df) random_state with
      | inl e => (inl e, w)
      | inr (train, test) => (inr (take_rows df train, take_rows df test), w)
      end
  | fit model X y => (xgb_fit L model X y, w)
  | predict model X => (xgb_predict L model X, w)
  | accuracy_score y_true y_pred => (accuracy L y_true y_pred, w)
  | cross_val_predict estimator X y method => (cv_predict L estimator X y method, w)
  | find_label_issues labels pred_probs ranked_by => (label_issues L labels pred_probs ranked_by, w)
  | print msg => (inr tt, w ++ [Printed msg])
  | display df => (inr tt, w ++ [Displayed df])
  end.

Definition environment (L : Library) : env ev (list output) :=
  Env (@answer L) (fun _ w => w).

(** The same libraries reading another student-grades file. *)
Definition grades_url : string := "https://s.cleanlab.ai/student-grades-demo.csv".

Definition with_grades (L : Library) (df : DataFrame) : Library :=
  {| csv := fun url => if String.eqb url grades_url then inr df else csv L url;
     encode := encode L; split_rows := split_rows L; xgb_fit := xgb_fit L;
     xgb_predict := xgb_predict L; accuracy := accuracy L; cv_predict := cv_predict L;
     label_issues := label_issues L |}.

(** Two tables that differ at most in the values of the column [name]. *)
Definition same_column_except (name : string) (c1 c2 : string * Series) : Prop :=
  c1.1 = c2.1 /\
  length (values c1.2) = length (values c2.2) /\
  (c1.1 <> name -> c1.2 = c2.2).

Definition same_except (name : string) (df1 df2 : DataFrame) : Prop :=
  index df1 = index df2 /\ Forall2 (same_column_except name) (columns df1) (columns df2).

(** The calls that fit a model, predict with one, or look for label issues,
    with what they returned. *)
Definition is_model_call (t : entry ev) : bool :=
  match t with
  | Called (fit _ _ _) _ => true
  | Called (predict _ _) _ => true
  | Called (cross_val_predict _ _ _ _) _ => true
  | Called (find_label_issues _ _ _) _ => true
  | _ => false
  end.

Definition model_calls (tr : list (entry ev)) : list (entry ev) :=
  List.filter is_model_call tr.

(** The tables displayed during a run, without the column [name]. *)
Definition without_column (name : string) (df : DataFrame) : DataFrame :=
  {| index := index df;
     columns := List.filter (fun c => negb (String.eqb c.1 name)) (columns df) |}.

Definition displays (w : list output) : list DataFrame :=
  omap (fun o => match o with Displayed df => Some df | Printed _ => None end) w.

(** The words of a printed line, without the numbers. *)
Definition texts (msg : list piece) : list string :=
  omap (fun p => match p with Txt s => Some s | _ => None end) msg.

(** Two things shown that differ at most in the numbers printed and in the
    column [name] of a table. *)
Definition same_output (name : string) (o1 o2 : output) : Prop :=
  match o1, o2 with
  | Printed msg1, Printed msg2 => texts msg1 = texts msg2
  | Displayed df1, Displayed df2 => without_column name df1 = without_column name df2
  | _, _ => False
  end.

(** ** Two runs side by side *)

(** What a call is answered (the answer does not depend on what has been
    shown so far). *)
Definition response (L : Library) {X} (c : ev X) : exn + X := (answer L c []).1.

(** What two runs on tables that differ in one column are allowed to differ
    in, call by call: nothing at all for a call that fits a model, predicts
    or looks for label issues (same arguments, same answer); that column for
    a table that is displayed. *)
Definition related (name : string) (t1 t2 : entry ev) : Prop :=
  (is_model_call t1 || is_model_call t2 = true -> t1 = t2) /\
  match t1, t2 with
  | Called (display df1) _, Called (display df2) _ =>
      without_column name df1 = without_column name df2
  | Called (print msg1) _, Called (print msg2) _ => texts msg1 = texts msg2
  | Called (display _) _, _ | _, Called (display _) _ => False
  | Called (print _) _, _ | _, Called (print _) _ => False
  | _, _ => True
  end.

(** [lockstep L1 L2 name post p1 p2]: run with the libraries [L1] and [L2],
    the programs [p1] and [p2] make their calls in step, each pair of calls
    with its answers is [related], and if both return, their values are
    related by [post].  Nothing is claimed once one of them has raised. *)
Fixpoint lockstep (L1 L2 : Library) (name : string) {R} (post : R -> R -> Prop)
    (p1 p2 : prog ev R) : Prop :=
  match p1, p2 with
  | Raise _, _ => True
  | _, Raise _ => True
  | Ret a1, Ret a2 => post a1 a2
  | Call c1 k1, Call c2 k2 =>
      forall x1 x2, response L1 c1 = inr x1 -> response L2 c2 = inr x2 ->
        related name (Called c1 (inr x1)) (Called c2 (inr x2)) /\
        lockstep L1 L2 name post (k1 x1) (k2 x2)
  | Bang _ k1, Bang _ k2 => lockstep L1 L2 name post k1 k2
  | _, _ => False
  end.

(** The variables of two runs, after cell 4 and after cell 6. *)
Definition related_cell4 (name : string) (v v' : cell4_vars) : Prop :=
  same_except name (df_c v) (df_c v') /\
  same_except name (df_train v) (df_train v') /\
  same_except name (df_test v) (df_test v') /\
  test_data v = test_data v'.

Definition related_cell6 (v v' : cell6_vars) : Prop :=
  train_data v = train_data v' /\ train_labels v = train_labels v'.

(** ** A small concrete instance *)

(** Four students, a classifier that memorises nothing, a detector that
    flags row 0. *)
Definition toy_grades (grades : list string) : DataFrame :=
  {| index := [0; 1; 2; 3];
     columns :=
       [ ("stud_ID", {| dtype := "object"; values := [VStr "a"; VStr "b"; VStr "c"; VStr "d"] |});
         ("exam_1", {| dtype := "int64"; values := [VInt 91; VInt 90; VInt 0; VInt 65] |});
         ("exam_2", {| dtype := "int64"; values := [VInt 89; VInt 74; VInt 79; VInt 95] |});
         ("exam_3", {| dtype := "int64"; values := [VInt 81; VInt 95; VInt 65; VInt 68] |});
         ("notes", {| dtype := "object"; values := [NaN; VStr "great participation +10"; NaN; NaN] |});
         ("letter_grade", {| dtype := "object"; values := List.map VStr grades |});
         ("noisy_letter_grade",
          {| dtype := "object"; values := [VStr "F"; VStr "F"; VStr "A"; VStr "A"] |}) ] |}.

Definition toy_export : DataFrame :=
  {| index := [0; 1; 2; 3];
     columns :=
       [ ("stud_ID", {| dtype := "object"; values := [VStr "a"; VStr "b"; VStr "c"; VStr "d"] |});
         ("exam_1", {| dtype := "int64"; values := [VInt 91; VInt 90; VInt 0; VInt 65] |});
         ("exam_2", {| dtype := "int64"; values := [VInt 89; VInt 74; VInt 79; VInt 95] |});
         ("exam_3", {| dtype := "int64"; values := [VInt 81; VInt 95; VInt 65; VInt 68] |});
         ("notes", {| dtype := "object"; values := [NaN; VStr "great participation +10"; NaN; NaN] |});
         ("cleanlab_suggested_label",
          {| dtype := "object"; values := [VStr "B"; VStr "A"; VStr "F"; VStr "C"] |}) ] |}.

(** Codes by first letter, missing values last. *)
Definition toy_code (v : value) : Z :=
  match v with
  | VStr (String c _) => Z.of_nat (nat_of_ascii c) - 65
  | VStr EmptyString => 0
  | VInt z => z
  | NaN => 100
  end.

Definition toy : Library :=
  {| csv := fun url => if String.eqb url grades_url
                       then inr (toy_grades ["B"; "A"; "F"; "C"]) else inr toy_export;
     encode := fun s => inr (List.map toy_code (values s));
     split_rows := fun n _ => inr (seq 1 (n - 1), [0]);
     xgb_fit := fun model X y => inr {| params := model; trees := List.map toy_code (values y) |};
     xgb_predict := fun b X => inr (replicate (nrows X) (hd 0%Z (trees b)));
     accuracy := fun y_true y_pred =>
                   inr (float_of_nat (length (List.filter (fun p => bool_decide (VInt p.1 = p.2))
                                                (zip y_true (values y_pred))))
                        / float_of_nat (length y_true))%float;
     cv_predict := fun _ X _ _ => inr (replicate (nrows X) [1%float]);
     label_issues := fun _ _ _ => inr [0] |}.

(** The notebook run on the four students with the given true grades. *)
Definition run_with (grades : list string) : outcome ev (list output) unit :=
  run (environment (with_grades toy (toy_grades grades))) notebook [].

End TabularLibrary.

(* ===================================================================== *)
(** * Small concrete libraries, to run the notebooks on                   *)
(* ===================================================================== *)

Module Toy.

(** ** Ten tiny images in two classes, five folds of two images *)
Module Img.
Import Image ImageLibrary.

Definition picture (k : nat) : PILImage * nat :=
  ({| mode := if Nat.eqb (k mod 3) 0 then "L" else if Nat.eqb (k mod 3) 1 then "RGB" else "P";
      size := (1, 1);
      pixels := [Z.of_nat k] |},
   k mod 2).

Definition fold_of (n_splits n k : nat) : list nat * list nat :=
  (List.filter (fun i => negb (Nat.eqb (i mod n_splits) k)) (seq 0 n),
   List.filter (fun i => Nat.eqb (i mod n_splits) k) (seq 0 n)).

Definition bump (sd : StateDict) : StateDict :=
  List.map (fun p => (p.1, List.map (fun x => (x + 1)%float) p.2)) sd.

Definition with_head (m : Module) (n : nat) : Module :=
  {| arch := arch m; head_classes := n; num_features := num_features m;
     state_dict := state_dict m; training := training m; device := device m |}.

Definition width (m : Module) : nat :=
  if Nat.eqb (head_classes m) 0 then num_features m else head_classes m.

Definition library : Library :=
  {| disk := fun _ => inr (List.map picture (seq 0 10), ["cat"; "dog"]);
     cuda := false;
     split := fun kf n _ => inr (List.map (fold_of (n_splits kf) n) (seq 0 (n_splits kf)));
     convert := fun img m => inr {| mode := m; size := size img; pixels := pixels img |};
     apply_step := fun s x =>
       match s, x with
       | ToTensor, AnImage img =>
           inr (ATensor (List.map (fun z => float_of_nat (Z.to_nat z)) (pixels img)))
       | _, _ => inr x
       end;
     randperm := fun g n => (rev (seq 0 n), (g + 1)%N);
     new_module := fun name _ n g =>
       (inr {| arch := name; head_classes := n; num_features := 3;
               state_dict := [("head.weight", [float_of_nat (N.to_nat g)])];
               training := false; device := "cpu" |}, (g + 1)%N);
     optimise := fun m opt _ _ g =>
       (inr (with_state_dict m (bump (state_dict m)), opt, 0.5%float), g);
     apply_module := fun m inputs =>
       inr (List.map (fun x => replicate (width m) (hd 0%float x)) inputs);
     row_max := fun outputs _ =>
       inr (List.map (fun r => hd 0%float r) outputs, List.map (fun _ => 0) outputs);
     row_softmax := fun outputs _ => inr outputs;
     new_head := fun m n => inr (with_head m n) |}.

(** The images on disk and the folds of the run below. *)
Definition smp : list (PILImage * nat) := List.map picture (seq 0 10).
Definition folds : list (list nat * list nat) := List.map (fold_of 5 10) (seq 0 5).

Definition fresh : World := {| files := ∅; generator := 0; stdout := [] |}.

Definition run_notebook : outcome ev World unit := run (environment library) notebook fresh.

End Img.

(** ** A Keras wrapper and a CleanLearning that answer at once *)
Module Txt.
Import pd Transformer.

Definition reviews (n : nat) : DataFrame :=
  {| index := seq 0 n;
     columns := [ ("review_text", {| dtype := "object"; values := replicate n (VStr "fine") |});
                  ("label", {| dtype := "int64"; values := replicate n (VInt 1) |}) ] |}.

Definition issues : LabelIssues :=
  {| is_label_issue := [false; true; false];
     label_quality := [0.9; 0.1; 0.7]%float;
     given_label := [1; 0; 1]%Z;
     predicted_label := [1; 1; 1]%Z |}.

(** The world is the number of objects created so far. *)
Definition answer {X} (c : ev X) (w : nat) : (exn + X) * nat :=
  match c in ev X return (exn + X) * nat with
  | read_csv _ => (inr (reviews 4561), w)
  | AutoTokenizer_from_pretrained _ => (inr w, S w)
  | tokenize _ texts _ _ _ _ =>
      (inr {| input_ids := List.map (fun _ => [101; 2986; 102]%Z) texts;
              token_type_ids := List.map (fun _ => [0; 0; 0]%Z) texts;
              attention_mask := List.map (fun _ => [1; 1; 1]%Z) texts |}, w)
  | KerasWrapperModel _ _ _ => (inr w, S w)
  | summary _ => (inr tt, w)
  | gs_fit _ _ _ =>
      (inr {| best_score_ := 1%float; best_params_ := [("batch_size", 64); ("epochs", 5)] |}, w)
  | fit _ _ _ _ => (inr tt, w)
  | predict _ X => (inr (List.map (fun _ => 1%Z) X), w)
  | CleanLearning _ _ _ => (inr w, S w)
  | cl_fit _ _ _ _ => (inr tt, w)
  | get_label_issues _ => (inr issues, w)
  | print _ => (inr tt, w)
  | display _ => (inr tt, w)
  end.

Definition environment : env ev nat := Env (@answer) (fun _ w => w).

Definition run_notebook : outcome ev nat unit := run environment notebook 0.

End Txt.
End Toy.

(* ===================================================================== *)
(** * Further vocabulary: own failures, orders, what the calls show      *)
(* ===================================================================== *)

(** [guarded Ex post p]: whatever the libraries answer, an exception that [p]
    raises itself (in its own indexing and arithmetic, not inside a library
    call) satisfies [Ex], and a value that [p] returns satisfies [post]. *)
Fixpoint guarded {E R} (Ex : exn -> Prop) (post : R -> Prop) (p : prog E R) : Prop :=
  match p with
  | Ret r => post r
  | Raise e => Ex e
  | Call c k => forall x, guarded Ex post (k x)
  | Bang _ k => guarded Ex post k
  end.

(** [silent P N p]: every call [p] can make is allowed by [P] whatever was
    called before, and leaves an entry satisfying [N]. *)
Fixpoint silent {E R} (P : list (entry E) -> forall X, E X -> Prop) (N : entry E -> Prop)
    (p : prog E R) : Prop :=
  match p with
  | Ret _ | Raise _ => True
  | Call c k => (forall hist, P hist _ c) /\ forall x, N (Called c (inr x)) /\ silent P N (k x)
  | Bang cmd k => N (Shelled cmd) /\ silent P N k
  end.

(** The exceptions the code of the tabular notebook raises itself: a column
    it reads is missing, an encoded column has not one code per row, the
    detector returned a position that is no row, no label of the training
    table is wrong. *)
Definition tabular_failures : list exn :=
  [KeyError "stud_ID"; KeyError "letter_grade"; KeyError "noisy_letter_grade";
   KeyError "notes"; KeyError "cleanlab_suggested_label";
   KeyError "exam_1"; KeyError "exam_2"; KeyError "exam_3";
   ValueError "Length of values does not match length of index";
   IndexError "positional indexers are out-of-bounds";
   ZeroDivisionError].

(** Pairs of a key and a position, the keys in non-decreasing order. *)
Fixpoint ascending (l : list (nat * nat)) : Prop :=
  match l with
  | [] => True
  | x :: l' => Forall (fun y => x.1 <= y.1) l' /\ ascending l'
  end.

(** A float that is a number, as three integers that compare in the same
    way ([SFcompare]): the sign class, then the exponent, then the mantissa. *)
Definition float_key (f : spec_float) : Z * (Z * Z) :=
  match f with
  | S754_nan => (0, (0, 0))%Z
  | S754_infinity true => (-2, (0, 0))%Z
  | S754_infinity false => (2, (0, 0))%Z
  | S754_zero _ => (0, (0, 0))%Z
  | S754_finite true m e => (-1, (- e, - Z.pos m))%Z
  | S754_finite false m e => (1, (e, Z.pos m))%Z
  end.

Definition key_lt (a b : Z * (Z * Z)) : Prop :=
  (a.1 < b.1 \/ (a.1 = b.1 /\ (a.2.1 < b.2.1 \/ (a.2.1 = b.2.1 /\ a.2.2 < b.2.2))))%Z.

(** Pairs of a score and a position, no score below an earlier one. *)
Fixpoint ascending_scores (l : list (float * nat)) : Prop :=
  match l with
  | [] => True
  | x :: l' => Forall (fun y => PrimFloat.ltb y.1 x.1 = false) l' /\ ascending_scores l'
  end.

Section TabularVocabulary.
Import pd Tabular TabularLibrary.

(** What [cross_val_predict] is given: a new classifier like the baseline
    one, the training table without the three columns that are no feature,
    and its noisy labels. *)
Definition crossval_contract (hist : list (entry ev)) {X} (c : ev X) : Prop :=
  match c with
  | cross_val_predict estimator X y method =>
      estimator = new_model /\ method = "predict_proba" /\
      exists train test,
        the_split hist = Some (train, test) /\
        @drop_columns ev train non_features = Ret X /\
        lookup_column "noisy_letter_grade" (columns train) = Some y
  | _ => True
  end.

(** What the model of cell 17 is fitted on: the feature columns and the
    suggested labels of one table [D], every row of which belongs to a
    student of the training table. *)
Definition studio_fit (v4 : cell4_vars) {X} (c : ev X) : Prop :=
  match c with
  | fit model X y =>
      exists D train_ids ids,
        lookup_column "stud_ID" (columns (df_train v4)) = Some train_ids /\
        lookup_column "stud_ID" (columns D) = Some ids /\
        Forall (fun v => v ∈ values train_ids) (values ids) /\
        @select_columns ev D ["exam_1"; "exam_2"; "exam_3"; "notes"] = Ret X /\
        lookup_column "cleanlab_suggested_label" (columns D) = Some y
  | _ => True
  end.

(** The variables of cell 4 when the four students of [toy_grades] are the
    training table and the test table. *)
Definition four_students (grades : list string) : cell4_vars :=
  {| df_c := toy_grades grades;
     df_train := toy_grades grades;
     df_test := toy_grades grades;
     test_data := toy_grades grades;
     test_labels := {| dtype := "object"; values := List.map VStr grades |} |}.

End TabularVocabulary.

Section ImageVocabulary.
Import Image ImageLibrary.

(** [features[test_idx] = ...] of one fold, with the model that computed the
    rows: the checkpoint of the first fold without its classifier head. *)
Definition features_from_first_fold (L : Library) (smp : list (PILImage * nat))
    (cls : list string) (folds : list (list nat * list nat)) (w0 : World) (nf : nat)
    (x : nat * (list nat * list nat)) (wr : list nat * ndarray) : Prop :=
  wr.1 = x.2.2 /\
  exists m m', loaded_from L smp cls folds w0 0 m /\ new_head L m 0 = inr m' /\
    held_out_outputs L (image_folder smp cls) inr nf m' x.2.2 wr.2.

(** What is known of the folds trained so far and of the loss carried over
    from them: none of them had an empty validation part, the first one had
    no empty training part, and before the first one no loss is bound. *)
Definition folds_trained (done : list (nat * (list nat * list nat))) (loss : option float)
  : Prop :=
  Forall (fun f => f.2.2 <> []) done /\
  (done = [] -> loss = None) /\
  (forall f, List.head done = Some f -> f.2.1 <> []).

(** [print(f'Epoch {E}/{num_epochs}')] *)
Definition starts_epoch (E : nat) (t : entry ev) : bool :=
  match t with
  | Called (print [Txt "Epoch "; Int z; Txt "/"; Int _]) _ => Z.eqb z (Z.of_nat E)
  | _ => false
  end.

Definition is_save (t : entry ev) : bool :=
  match t with
  | Called (torch_save _ _) _ => true
  | _ => false
  end.

(** Whether a checkpoint has been saved since the last time epoch [E] (counted
    from 1, as printed) started. *)
Definition saved_since (E : nat) (hist : list (entry ev)) : bool :=
  fold_left (fun saved t => if starts_epoch E t then false else saved || is_save t) hist false.

(** Early stopping, as the calls show it: epoch [E] of a fold starts only if
    [E <= 4] or a checkpoint was saved in one of the three epochs before it;
    and the fold is stopped early only after three epochs that saved none. *)
Definition early_stopping_contract (hist : list (entry ev)) {X} (c : ev X) : Prop :=
  match c with
  | print [Txt "Epoch "; Int z; Txt "/"; Int _] =>
      exists E, z = Z.of_nat E /\ 1 <= E <= num_epochs /\
        (5 <= E -> saved_since (E - 3) hist = true)
  | print [Txt "Early stopping at epoch "; Int z] =>
      exists E, z = Z.of_nat E /\ 4 <= E /\ saved_since (E - 2) hist = false
  | _ => True
  end.

(** An entry that neither starts an epoch nor saves a checkpoint. *)
Definition neutral (t : entry ev) : Prop :=
  is_save t = false /\ forall E, starts_epoch E t = false.

(** With [b] the best epoch so far (counted from 0) and [e] the epoch that
    starts: no checkpoint was saved since the epoch after [b] started, and
    if [b] is not the first epoch, a checkpoint was saved in it. *)
Definition saves_so_far (b e : nat) (hist : list (entry ev)) : Prop :=
  (forall k, b < k -> k < e -> saved_since (k + 1) hist = false) /\
  (1 <= b -> forall k, k <= b -> saved_since (k + 1) hist = true).

(** What is known when epoch [e] of a fold starts: the best epoch so far is
    an earlier one, at most three epochs back. *)
Definition epoch_starts (e : nat) (hist : list (entry ev)) (s : epoch_vars) : Prop :=
  best_epoch s <= Nat.pred e /\ e <= best_epoch s + 3 /\ saves_so_far (best_epoch s) e hist.

(** [print(f'Fold {fold + 1}/{num_folds}')]: the fold that starts. *)
Definition fold_started (t : entry ev) : option nat :=
  match t with
  | Called (print [Txt "Fold "; Int z; Txt "/"; Int _]) _ => Some (Z.to_nat z - 1)
  | _ => None
  end.

(** [print(f'Validation accuracy: {val_accuracy:.2f}%')] *)
Definition validation_accuracy (t : entry ev) : option float :=
  match t with
  | Called (print [Txt "Validation accuracy: "; Flt a _; Txt "%"]) _ => Some a
  | _ => None
  end.

(** The fold being trained, and the validation accuracies printed in it so
    far, oldest first. *)
Definition fold_log (hist : list (entry ev)) : option nat * list float :=
  fold_left (fun st t =>
               match fold_started t with
               | Some k => (Some k, [])
               | None => match validation_accuracy t with
                         | Some a => (st.1, st.2 ++ [a])
                         | None => st
                         end
               end) hist (None, []).

(** A checkpoint is written to the file of the fold being trained, right
    after an epoch whose validation accuracy is above 0 and above that of
    every earlier epoch of the fold (NaN apart). *)
Definition checkpoint_contract (hist : list (entry ev)) {X} (c : ev X) : Prop :=
  match c with
  | torch_save sd path =>
      exists fold earlier acc,
        fold_log hist = (Some fold, earlier ++ [acc]) /\
        path = checkpoint_path fold /\
        PrimFloat.ltb 0 acc = true /\
        forall a, a ∈ earlier -> PrimFloat.is_nan a = false -> PrimFloat.ltb a acc = true
  | _ => True
  end.

(** An entry that starts no fold and prints no validation accuracy. *)
Definition unlogged (t : entry ev) : Prop :=
  fold_started t = None /\ validation_accuracy t = None.

(** What is known of the best validation accuracy [best] while [fold] is
    trained: it is a number, not below 0 and not below any accuracy printed
    in the fold. *)
Definition best_so_far (fold : nat) (best : float) (hist : list (entry ev)) : Prop :=
  (fold_log hist).1 = Some fold /\
  PrimFloat.is_nan best = false /\
  PrimFloat.ltb best 0 = false /\
  forall a, a ∈ (fold_log hist).2 -> PrimFloat.is_nan a = false -> PrimFloat.ltb best a = false.

(** The calls that neither print nor save a checkpoint. *)
Definition plain {X} (c : ev X) : Prop :=
  match c with
  | print _ | torch_save _ _ => False
  | _ => True
  end.
End ImageVocabulary.

(* ===================================================================== *)
(** * Facts about programs and runs                                       *)
(* ===================================================================== *)

Section ProgFacts.
Context {E : Type -> Type}.
Implicit Types (hist : list (entry E)).

Lemma run_bind {W A B} (h : env E W) (p : prog E A) (f : A -> prog E B) (w : W) :
  run h (bind p f) w =
  match result (run h p w) with
  | inl e => Outcome (inl e) (world (run h p w)) (trace (run h p w))
  | inr a =>
      let o := run h (f a) (world (run h p w)) in
      Outcome (result o) (world o) (trace (run h p w) ++ trace o)
  end.
Proof.
  revert w. induction p as [a | e | X c k IH | cmd k IH]; intros w; simpl.
  - by destruct (run h (f a) w).
  - done.
  - destruct (lib h c w) as [[e | x] w']; simpl; [done |].
    rewrite IH. by destruct (result (run h (k x) w')).
  - rewrite IH. by destruct (result (run h k (shell h cmd w))).
Qed.

(** A call that fails ends the run: its exception is the result, and no
    call follows it. *)
Lemma run_failure_last {W R} (h : env E W) (p : prog E R) (w : W) (t : entry E) (e : exn) :
  t ∈ trace (run h p w) -> entry_failed e t ->
  result (run h p w) = inl e /\ exists pre, trace (run h p w) = pre ++ [t].
Proof.
  revert w. induction p as [a | e' | X c k IH | cmd k IH]; intros w; simpl.
  - by intros ?%elem_of_nil.
  - by intros ?%elem_of_nil.
  - destruct (lib h c w) as [[e' | x] w']; simpl.
    + intros ->%list_elem_of_singleton Hf. simpl in Hf. subst. split; [done |]. by exists [].
    + intros [-> | Hin]%elem_of_cons Hf; [done |].
      destruct (IH x w' Hin Hf) as [Hr [pre Hpre]]. split; [done |].
      exists (Called c (inr x) :: pre). by rewrite Hpre.
  - intros [-> | Hin]%elem_of_cons Hf; [done |].
    destruct (IH _ Hin Hf) as [Hr [pre Hpre]]. split; [done |].
    exists (Shelled cmd :: pre). by rewrite Hpre.
Qed.

(** ** [safe] *)

Lemma safe_mono (P P' : list (entry E) -> forall X, E X -> Prop) {R}
    (post post' : list (entry E) -> R -> Prop) hist (p : prog E R) :
  (forall hist X (c : E X), P hist X c -> P' hist X c) ->
  (forall hist r, post hist r -> post' hist r) ->
  safe P post hist p -> safe P' post' hist p.
Proof.
  intros HP Hpost. revert hist.
  induction p as [a | e | X c k IH | cmd k IH]; intros hist; simpl; eauto.
  intros [Hc Hk]. split; eauto.
Qed.

Lemma safe_bind (P : list (entry E) -> forall X, E X -> Prop) {A B}
    (post : list (entry E) -> B -> Prop) hist (p : prog E A) (f : A -> prog E B) :
  safe P (fun hist' a => safe P post hist' (f a)) hist p ->
  safe P post hist (bind p f).
Proof.
  revert hist. induction p as [a | e | X c k IH | cmd k IH]; intros hist; simpl; eauto.
  intros [Hc Hk]. split; eauto.
Qed.

Lemma safe_for_in (P : list (entry E) -> forall X, E X -> Prop) {A S}
    (inv : list (entry E) -> S -> Prop) (xs : list A) (body : A -> S -> prog E S) hist s :
  (forall x hist s, x ∈ xs -> inv hist s -> safe P inv hist (body x s)) ->
  inv hist s -> safe P inv hist (for_in xs body s).
Proof.
  revert hist s. induction xs as [| x xs IH]; intros hist s Hbody Hinv; simpl; [done |].
  apply safe_bind. eapply safe_mono; [done | | apply Hbody; [left | done]].
  intros hist' s' Hinv'. apply IH; [| done].
  intros y hist'' s'' Hy. apply Hbody. by right.
Qed.

Lemma safe_for_break (P : list (entry E) -> forall X, E X -> Prop) {A S}
    (inv : list (entry E) -> S -> Prop) (xs : list A) (body : A -> S -> prog E (control S))
    hist s :
  (forall x hist s, x ∈ xs -> inv hist s ->
     safe P (fun hist' c => match c with Continue s' | Break s' => inv hist' s' end)
       hist (body x s)) ->
  inv hist s -> safe P inv hist (for_break xs body s).
Proof.
  revert hist s. induction xs as [| x xs IH]; intros hist s Hbody Hinv; simpl; [done |].
  apply safe_bind. eapply safe_mono; [done | | apply Hbody; [left | done]].
  intros hist' [s' | s'] Hinv'; simpl; [| done].
  apply IH; [| done]. intros y hist'' s'' Hy. apply Hbody. by right.
Qed.

(** What [safe] says about a run: every call of the trace was allowed, given
    the calls before it; and the postcondition holds if the run returns. *)
Lemma safe_run (P : list (entry E) -> forall X, E X -> Prop) {W R}
    (post : list (entry E) -> R -> Prop) (h : env E W) (p : prog E R) hist w :
  safe P post hist p ->
  each_call P hist (trace (run h p w)) /\
  (forall r, result (run h p w) = inr r -> post (hist ++ trace (run h p w)) r).
Proof.
  revert hist w. induction p as [a | e | X c k IH | cmd k IH]; intros hist w; simpl.
  - intros Hpost. split; [done |]. intros r [= <-]. by rewrite app_nil_r.
  - done.
  - intros [Hc Hk]. destruct (lib h c w) as [[e | x] w']; simpl; [done |].
    destruct (IH x (hist ++ [Called c (inr x)]) w' (Hk x)) as [IH1 IH2].
    split; [done |]. intros r Hr. specialize (IH2 r Hr). by rewrite <- app_assoc in IH2.
  - intros Hk. destruct (IH (hist ++ [Shelled cmd]) (shell h cmd w) Hk) as [IH1 IH2].
    split; [done |]. intros r Hr. specialize (IH2 r Hr). by rewrite <- app_assoc in IH2.
Qed.

(** A property of single calls holds of every call of a safe program's trace. *)
Lemma each_call_Forall (P : forall X, E X -> Prop) hist (tr : list (entry E)) :
  each_call (fun _ => P) hist tr ->
  Forall (fun t => match t with Called c _ => P _ c | Shelled _ => True end) tr.
Proof.
  revert hist. induction tr as [| t tr IH]; intros hist; simpl; [done |].
  intros [Ht Htr]. constructor; eauto.
Qed.

(** ** [must] *)

Lemma must_mono (Q : entry E -> Prop) {R} (post post' : R -> Prop) (p : prog E R) :
  (forall r, post r -> post' r) -> must Q post p -> must Q post' p.
Proof.
  intros Hpost. induction p as [a | e | X c k IH | cmd k IH]; simpl; eauto.
  intros Hk x. destruct (Hk x); eauto.
Qed.

Lemma must_bind (Q : entry E -> Prop) {A B} (post : B -> Prop)
    (p : prog E A) (f : A -> prog E B) :
  must Q (fun a => must Q post (f a)) p -> must Q post (bind p f).
Proof.
  induction p as [a | e | X c k IH | cmd k IH]; simpl; eauto.
  intros Hk x. destruct (Hk x); eauto.
Qed.

(** Whatever comes first, a later part of the program makes the call. *)
Lemma must_later (Q : entry E -> Prop) {A B} (post : B -> Prop)
    (p : prog E A) (f : A -> prog E B) :
  (forall a, must Q post (f a)) -> must Q post (bind p f).
Proof.
  intros Hf. apply must_bind.
  induction p as [a | e | X c k IH | cmd k IH]; simpl; eauto.
Qed.

Lemma must_run (Q : entry E -> Prop) {W R} (post : R -> Prop)
    (h : env E W) (p : prog E R) (w : W) (r : R) :
  must Q post p -> result (run h p w) = inr r ->
  Exists Q (trace (run h p w)) \/ post r.
Proof.
  revert w. induction p as [a | e | X c k IH | cmd k IH]; intros w; simpl.
  - intros Hpost [= <-]. by right.
  - done.
  - intros Hm. destruct (lib h c w) as [[e | x] w'] eqn:Hl; simpl; [done |].
    intros Hr. destruct (Hm x) as [Hc | Hk].
    + left. by apply Exists_cons_hd.
    + destruct (IH x w' Hk Hr) as [Hex | Hpost]; [left | by right].
      by apply Exists_cons_tl.
  - intros Hm Hr. destruct (IH _ Hm Hr) as [Hex | Hpost]; [left | by right].
    by apply Exists_cons_tl.
Qed.

(** ** [triple] *)

Lemma triple_ret {W R} (h : env E W) (pre : W -> Prop) (r : R) (post : R -> W -> Prop) :
  (forall w, pre w -> post r w) -> triple h pre (Ret r) post.
Proof. intros H w Hw. simpl. auto. Qed.

Lemma triple_raise {W R} (h : env E W) (pre : W -> Prop) (e : exn) (post : R -> W -> Prop) :
  triple h pre (Raise e) post.
Proof. by intros w Hw. Qed.

Lemma triple_bind {W A B} (h : env E W) (pre : W -> Prop) (mid : A -> W -> Prop)
    (post : B -> W -> Prop) (p : prog E A) (f : A -> prog E B) :
  triple h pre p mid -> (forall a, triple h (mid a) (f a) post) ->
  triple h pre (bind p f) post.
Proof.
  intros Hp Hf w Hw. rewrite run_bind. specialize (Hp w Hw).
  destruct (result (run h p w)) as [e | a]; simpl; [done |].
  apply (Hf a _ Hp).
Qed.

Lemma triple_call {W X} (h : env E W) (pre : W -> Prop) (c : E X) (post : X -> W -> Prop) :
  (forall w x w', pre w -> lib h c w = (inr x, w') -> post x w') ->
  triple h pre (call c) post.
Proof.
  intros H w Hw. unfold call. simpl.
  destruct (lib h c w) as [[e | x] w'] eqn:Hl; simpl; eauto.
Qed.

Lemma triple_conseq {W R} (h : env E W) (pre pre' : W -> Prop) (post post' : R -> W -> Prop)
    (p : prog E R) :
  (forall w, pre' w -> pre w) -> (forall r w, post r w -> post' r w) ->
  triple h pre p post -> triple h pre' p post'.
Proof.
  intros Hpre Hpost Hp w Hw. specialize (Hp w (Hpre w Hw)).
  destruct (result (run h p w)); auto.
Qed.

Lemma triple_for_in {W A S} (h : env E W) (inv : list A -> S -> W -> Prop)
    (xs : list A) (body : A -> S -> prog E S) (s : S) :
  (forall done x s, (exists rest, xs = done ++ x :: rest) ->
     triple h (inv done s) (body x s) (fun s' => inv (done ++ [x]) s')) ->
  triple h (inv [] s) (for_in xs body s) (inv xs).
Proof.
  intros Hbody.
  assert (forall rest done s, xs = done ++ rest ->
            triple h (inv done s) (for_in rest body s) (inv xs)) as Hgen.
  { induction rest as [| x rest IH]; intros done s' Heq; simpl.
    - apply triple_ret. intros w Hw. by rewrite Heq, app_nil_r.
    - eapply triple_bind; [apply Hbody; eauto |].
      intros s''. apply IH. by rewrite <- app_assoc. }
  by apply Hgen.
Qed.

Lemma triple_for_break {W A S} (h : env E W) (inv : S -> W -> Prop)
    (xs : list A) (body : A -> S -> prog E (control S)) (s : S) :
  (forall x s, x ∈ xs ->
     triple h (inv s) (body x s)
       (fun c => match c with Continue s' | Break s' => inv s' end)) ->
  triple h (inv s) (for_break xs body s) inv.
Proof.
  revert s. induction xs as [| x xs IH]; intros s Hbody; simpl.
  - by apply triple_ret.
  - eapply triple_bind; [apply Hbody; by left |].
    intros [s' | s']; simpl; [| by apply triple_ret].
    apply IH. intros y s'' Hy. apply Hbody. by right.
Qed.

(** ** [only] *)

Lemma only_ret (P : forall X, E X -> Prop) {R} (r : R) : only P (@Ret E R r).
Proof. by intros hist. Qed.

Lemma only_raise (P : forall X, E X -> Prop) {R} (e : exn) : only P (@Raise E R e).
Proof. by intros hist. Qed.

Lemma only_call (P : forall X, E X -> Prop) {X} (c : E X) : P X c -> only P (call c).
Proof. by intros Hc hist. Qed.

Lemma only_bang (P : forall X, E X -> Prop) (cmd : string) : only P (@bang E cmd).
Proof. by intros hist. Qed.

Lemma only_bind (P : forall X, E X -> Prop) {A B} (p : prog E A) (f : A -> prog E B) :
  only P p -> (forall a, only P (f a)) -> only P (bind p f).
Proof.
  intros Hp Hf hist. apply safe_bind.
  apply (safe_mono (fun _ => P) (fun _ => P) (fun _ _ => True)); [done | | apply Hp].
  intros hist' a _. apply Hf.
Qed.

Lemma only_for_in (P : forall X, E X -> Prop) {A S} (xs : list A)
    (body : A -> S -> prog E S) (s : S) :
  (forall x s, only P (body x s)) -> only P (for_in xs body s).
Proof.
  intros Hbody hist. apply (safe_for_in _ (fun _ _ => True)); [| done].
  intros x hist' s' _ _. apply Hbody.
Qed.

Lemma only_for_break (P : forall X, E X -> Prop) {A S} (xs : list A)
    (body : A -> S -> prog E (control S)) (s : S) :
  (forall x s, only P (body x s)) -> only P (for_break xs body s).
Proof.
  intros Hbody hist. apply (safe_for_break _ (fun _ _ => True)); [| done].
  intros x hist' s' _ _.
  apply (safe_mono (fun _ => P) (fun _ => P) (fun _ _ => True)); [done | | apply Hbody].
  by intros ? [].
Qed.

Lemma only_run (P : forall X, E X -> Prop) {W R} (h : env E W) (p : prog E R) (w : W) :
  only P p ->
  Forall (fun t => match t with Called c _ => P _ c | Shelled _ => True end)
         (trace (run h p w)).
Proof.
  intros Hp. eapply each_call_Forall, (safe_run _ _ h p [] w), Hp.
Qed.

Lemma must_bind_call (Q : entry E -> Prop) {X B} (post : B -> Prop)
    (c : E X) (f : X -> prog E B) :
  (forall x, Q (Called c (inr x)) \/ must Q post (f x)) -> must Q post (bind (call c) f).
Proof. done. Qed.

Lemma must_weaken (Q Q' : entry E -> Prop) {R} (post : R -> Prop) (p : prog E R) :
  (forall t, Q t -> Q' t) -> must Q post p -> must Q' post p.
Proof.
  intros HQ. induction p as [a | e | X c k IH | cmd k IH]; simpl; eauto.
  intros Hk x. destruct (Hk x); eauto.
Qed.

(** A successful run of a program that must make a [Q] call made one. *)
Lemma must_run_unit (Q : entry E -> Prop) {W} (h : env E W) (p : prog E unit) (w : W) :
  must Q (fun _ => False) p -> result (run h p w) = inr tt ->
  Exists Q (trace (run h p w)).
Proof. intros Hm Hr. by destruct (must_run Q _ h p w tt Hm Hr). Qed.

(** ** Steps that call no library *)

Lemma no_call_bind {A B} (p : prog E A) (f : A -> prog E B) :
  no_call p -> (forall a, no_call (f a)) -> no_call (bind p f).
Proof. destruct p; simpl; eauto. Qed.

Lemma safe_bind_no_call (P : list (entry E) -> forall X, E X -> Prop) {A B}
    (post : list (entry E) -> B -> Prop) hist (p : prog E A) (f : A -> prog E B) :
  no_call p -> (forall a, p = Ret a -> safe P post hist (f a)) ->
  safe P post hist (bind p f).
Proof. destruct p; simpl; try done. eauto. Qed.

Lemma safe_no_call (P : list (entry E) -> forall X, E X -> Prop) {A}
    (post : list (entry E) -> A -> Prop) hist (p : prog E A) :
  no_call p -> (forall a, p = Ret a -> post hist a) -> safe P post hist p.
Proof. destruct p; simpl; try done. eauto. Qed.

Lemma safe_bind_call (P : list (entry E) -> forall X, E X -> Prop) {X B}
    (post : list (entry E) -> B -> Prop) hist (c : E X) (f : X -> prog E B) :
  P hist X c -> (forall x, safe P post (hist ++ [Called c (inr x)]) (f x)) ->
  safe P post hist (bind (call c) f).
Proof. by split. Qed.

Lemma safe_call (P : list (entry E) -> forall X, E X -> Prop) {X}
    (post : list (entry E) -> X -> Prop) hist (c : E X) :
  P hist X c -> (forall x, post (hist ++ [Called c (inr x)]) x) -> safe P post hist (call c).
Proof. by split. Qed.

(** A cell that is safe, followed by the rest. *)
Lemma safe_then (P : list (entry E) -> forall X, E X -> Prop) {A B}
    (mid : list (entry E) -> A -> Prop) (post : list (entry E) -> B -> Prop)
    hist (p : prog E A) (f : A -> prog E B) :
  safe P mid hist p -> (forall hist' a, mid hist' a -> safe P post hist' (f a)) ->
  safe P post hist (bind p f).
Proof.
  intros Hp Hf. apply safe_bind.
  apply (safe_mono P P mid); [done | | done]. intros hist' a. apply Hf.
Qed.

End ProgFacts.

(* ===================================================================== *)
(** * The image notebook: [convert_to_rgb]                                *)
(* ===================================================================== *)

Section ConvertToRgb.
Import Image ImageLibrary.

(** C10.  [convert_to_rgb] calls [img.convert('RGB')] exactly when the mode
    of the image is ['L'], and then returns what that call returns; for every
    other mode it makes no call and returns the image it was given.  So an
    image in mode ['P'] or ['RGBA'] leaves the function as it came, and
    reaches the next transform of the pipeline unconverted. *)
Theorem convert_to_rgb_only_converts_L :
  forall (W : Type) (h : env pil W) (w : W) (img : PILImage),
    let o := run h (convert_to_rgb img) w in
    (mode img = "L" <-> exists r, trace o = [Called (Image_convert img "RGB") r]) /\
    (mode img = "L" -> o = run h (call (Image_convert img "RGB")) w) /\
    (mode img <> "L" -> o = Outcome (inr img) w []) /\
    (mode img = "P" \/ mode img = "RGBA" -> o = Outcome (inr img) w []) /\
    (forall L : Library, mode img <> "L" ->
       apply_transform_step L (Lambda fn_convert_to_rgb) (AnImage img) = inr (AnImage img)).
Proof.
  intros W h w img o. subst o.
  assert (convert_to_rgb img
          = if String.eqb (mode img) "L" then call (Image_convert img "RGB") else Ret img)
    as Hdef.
  { unfold convert_to_rgb. by destruct (String.eqb (mode img) "L"). }
  rewrite Hdef. destruct (String.eqb_spec (mode img) "L") as [HL | HL].
  - repeat split; try done.
    + intros _. simpl. destruct (lib h (Image_convert img "RGB") w) as [[e | x] w']; eauto.
    + intros [HP | HP]; rewrite HL in HP; discriminate.
  - repeat split; try done.
    + intros [r Hr]. simpl in Hr. discriminate.
    + intros L _. simpl. rewrite Hdef.
      destruct (String.eqb_spec (mode img) "L"); done.
Qed.

End ConvertToRgb.

(* ===================================================================== *)
(** * Exceptions                                                          *)
(* ===================================================================== *)


(* ===================================================================== *)
(** * Which calls the notebooks make                                      *)
(* ===================================================================== *)

(** Walking through a program to the call looked for. *)
Ltac skip_part := apply must_later; intros ?.
Ltac hit_call := solve [simpl; intros ?; left; reflexivity].
Ltac seek_call := repeat first [hit_call | skip_part].

(** Walking through every call of a program. *)
Ltac only_step :=
  first
    [ apply only_ret
    | apply only_raise
    | apply only_bang
    | apply only_call; solve [simpl; eauto]
    | apply only_bind; [| intros ?]
    | apply only_for_in; intros ? ?
    | apply only_for_break; intros ? ?
    | match goal with
      | |- only _ (match ?x with _ => _ end) => destruct x
      end ].

Lemma only_np_concatenate {E} (P : forall X, E X -> Prop) parts :
  only P (@np_concatenate E parts).
Proof. unfold np_concatenate. repeat only_step. Qed.

Lemma only_setitem_rows {E} (P : forall X, E X -> Prop) a n idx v :
  only P (@setitem_rows E a n idx v).
Proof. unfold setitem_rows. repeat only_step. Qed.

Lemma only_int_truediv {E} (P : forall X, E X -> Prop) a b : only P (@int_truediv E a b).
Proof. unfold int_truediv. repeat only_step. Qed.

Section ImageCalls.
Import Image.

Lemma image_only_expected_files : only (@writes_expected_file) notebook.
Proof.
  unfold notebook, cell_4, cell_5, cell_7, cell_10, cell_12, fold_body, predict_fold,
    epoch_body, train_batches, eval_batches, predict_batches, feature_batches,
    load_checkpoint, eq_sum.
  repeat first [ apply only_np_concatenate | apply only_setitem_rows
               | apply only_int_truediv | only_step ].
Qed.

Lemma image_must_load :
  must (fun t => has_stage LoadData t = true) (fun _ => False) notebook.
Proof. unfold notebook. skip_part. apply must_bind. unfold cell_5. seek_call. Qed.

Lemma image_must_save path :
  path = features_path \/ path = pred_probs_path ->
  must (fun t => saves_array path t = true) (fun _ => False) notebook.
Proof.
  intros Hp. unfold notebook. do 4 skip_part. unfold cell_12. do 2 skip_part.
  apply must_later; intros [features pred_probs]. simpl. intros [].
  destruct Hp as [-> | ->]; [by left | right]. intros []. by left.
Qed.

(** The first epoch of the first fold either takes an optimisation step or
    stops at the unbound [loss]. *)
Lemma first_epoch_trains fold tl vl s :
  loss s = None ->
  must (fun t => has_stage TrainModel t = true) (fun _ => False) (epoch_body fold tl vl 0 s).
Proof.
  intros Hloss. unfold epoch_body. skip_part. apply must_bind_call. intros batches. right.
  destruct batches as [| [inputs targets] batches].
  - cbn [train_batches for_in bind]. rewrite Hloss. done.
  - apply must_bind. unfold train_batches. cbn [for_in]. apply must_bind.
    apply must_bind_call. intros x. by left.
Qed.

Lemma first_fold_trains vars dev f folds :
  must (fun t => has_stage TrainModel t = true) (fun _ => False)
    (for_in (f :: folds) (fold_body vars dev) None).
Proof.
  cbn [for_in]. apply must_bind. destruct f as [fold [train_idx test_idx]].
  unfold fold_body. do 4 skip_part. apply must_bind_call. intros model. right.
  apply must_bind. change (seq 0 num_epochs) with (0 :: seq 1 9). cbn [for_break].
  apply must_bind. eapply must_mono; [| by apply first_epoch_trains]. done.
Qed.

Lemma image_must_train :
  must (fun t => has_stage TrainModel t = true \/ no_folds t = true) (fun _ => False) notebook.
Proof.
  unfold notebook. skip_part. apply must_later; intros vars. apply must_later; intros dev.
  apply must_bind. unfold cell_10. apply must_bind_call.
  intros folds. destruct folds as [| f folds]; [by left; right | right].
  apply must_bind. unfold enumerate. cbn [length seq zip zip_with].
  eapply must_mono; [| eapply must_weaken; [| apply first_fold_trains]]; [done | by left].
Qed.

End ImageCalls.

Section TabularCalls.
Import Tabular.

Lemma tabular_must_load :
  must (fun t => has_stage LoadData t = true) (fun _ => False) notebook.
Proof. unfold notebook. apply must_bind. unfold cell_4. seek_call. Qed.

Lemma tabular_must_train :
  must (fun t => has_stage TrainModel t = true) (fun _ => False) notebook.
Proof. unfold notebook. skip_part. apply must_bind. unfold cell_6. seek_call. Qed.

Lemma tabular_must_detect :
  must (fun t => has_stage DetectIssues t = true) (fun _ => False) notebook.
Proof. unfold notebook. do 2 skip_part. apply must_bind. unfold cell_9. seek_call. Qed.

Lemma tabular_must_print_before :
  must (fun t => prints_text "Accuracy with original data: " t = true) (fun _ => False)
    notebook.
Proof. unfold notebook. skip_part. apply must_bind. unfold cell_6. seek_call. Qed.

Lemma tabular_must_print_after :
  must (fun t => prints_text "Accuracy with errors found by cleanlab removed: " t = true)
    (fun _ => False) notebook.
Proof. unfold notebook. do 4 skip_part. apply must_bind. unfold cell_14. seek_call. Qed.

End TabularCalls.

Section TransformerCalls.
Import Transformer.

Lemma transformer_must_load :
  must (fun t => has_stage LoadData t = true) (fun _ => False) notebook.
Proof. unfold notebook. apply must_bind. unfold load_and_preprocess. seek_call. Qed.

Lemma transformer_must_train :
  must (fun t => has_stage TrainModel t = true) (fun _ => False) notebook.
Proof. unfold notebook. do 4 skip_part. seek_call. Qed.

Lemma transformer_must_detect :
  must (fun t => has_stage DetectIssues t = true) (fun _ => False) notebook.
Proof. unfold notebook. do 9 skip_part. seek_call. Qed.

Lemma transformer_must_print_before :
  must (fun t => prints_text "Base model accuracy = " t = true) (fun _ => False) notebook.
Proof. unfold notebook. do 6 skip_part. seek_call. Qed.

Lemma transformer_must_print_after :
  must (fun t => prints_text "CleanLearning model accuracy = " t = true) (fun _ => False)
    notebook.
Proof. unfold notebook. do 11 skip_part. seek_call. Qed.

End TransformerCalls.

(** C2, counterexample.  A complete run of the image notebook (ten images,
    five folds) makes no call that flags or relabels examples and prints no
    accuracy before and after cleaning. *)
Lemma image_notebook_flags_nothing :
  result Toy.Img.run_notebook = inr tt /\
  existsb (Image.has_stage DetectIssues) (trace Toy.Img.run_notebook) = false /\
  existsb (Image.has_stage ReportAccuracy) (trace Toy.Img.run_notebook) = false.
Proof. vm_compute. done. Qed.

(** C2, as amended.  In every complete run, the tabular and the transformer
    notebook load a data set, fit a model, call the label-issue detector and
    print the accuracy before and after cleaning.  The image notebook loads
    its data set, takes optimisation steps (unless the splitter yields no
    fold) and saves its two arrays; no run of it calls a detector or prints
    such a comparison. *)
Theorem pipeline_stages_of_each_notebook :
  (forall (W : Type) (h : env Tabular.ev W) (w : W),
     let o := run h Tabular.notebook w in
     result o = inr tt ->
     Exists (fun t => Tabular.has_stage LoadData t = true) (trace o) /\
     Exists (fun t => Tabular.has_stage TrainModel t = true) (trace o) /\
     Exists (fun t => Tabular.has_stage DetectIssues t = true) (trace o) /\
     Exists (fun t => Tabular.prints_text "Accuracy with original data: " t = true) (trace o) /\
     Exists (fun t => Tabular.prints_text
                        "Accuracy with errors found by cleanlab removed: " t = true)
            (trace o)) /\
  (forall (W : Type) (h : env Transformer.ev W) (w : W),
     let o := run h Transformer.notebook w in
     result o = inr tt ->
     Exists (fun t => Transformer.has_stage LoadData t = true) (trace o) /\
     Exists (fun t => Transformer.has_stage TrainModel t = true) (trace o) /\
     Exists (fun t => Transformer.has_stage DetectIssues t = true) (trace o) /\
     Exists (fun t => Transformer.prints_text "Base model accuracy = " t = true) (trace o) /\
     Exists (fun t => Transformer.prints_text "CleanLearning model accuracy = " t = true)
            (trace o)) /\
  (forall (W : Type) (h : env Image.ev W) (w : W),
     let o := run h Image.notebook w in
     Forall (fun t => Image.has_stage DetectIssues t = false /\
                      Image.has_stage ReportAccuracy t = false) (trace o) /\
     (result o = inr tt ->
      Exists (fun t => Image.has_stage LoadData t = true) (trace o) /\
      Exists (fun t => Image.has_stage TrainModel t = true \/ Image.no_folds t = true)
             (trace o) /\
      Exists (fun t => Image.saves_array Image.features_path t = true) (trace o) /\
      Exists (fun t => Image.saves_array Image.pred_probs_path t = true) (trace o))).
Proof.
  split; [| split].
  - intros W h w o Hr. subst o. split; [| split; [| split; [| split]]].
    + exact (must_run_unit _ h _ w tabular_must_load Hr).
    + exact (must_run_unit _ h _ w tabular_must_train Hr).
    + exact (must_run_unit _ h _ w tabular_must_detect Hr).
    + exact (must_run_unit _ h _ w tabular_must_print_before Hr).
    + exact (must_run_unit _ h _ w tabular_must_print_after Hr).
  - intros W h w o Hr. subst o. split; [| split; [| split; [| split]]].
    + exact (must_run_unit _ h _ w transformer_must_load Hr).
    + exact (must_run_unit _ h _ w transformer_must_train Hr).
    + exact (must_run_unit _ h _ w transformer_must_detect Hr).
    + exact (must_run_unit _ h _ w transformer_must_print_before Hr).
    + exact (must_run_unit _ h _ w transformer_must_print_after Hr).
  - intros W h w o. subst o. split.
    + apply Forall_forall. intros [X c r | cmd] _; [| done]. by destruct c.
    + intros Hr. split; [| split; [| split]].
      * exact (must_run_unit _ h _ w image_must_load Hr).
      * exact (must_run_unit _ h _ w image_must_train Hr).
      * exact (must_run_unit _ h _ w (image_must_save _ (or_introl eq_refl)) Hr).
      * exact (must_run_unit _ h _ w (image_must_save _ (or_intror eq_refl)) Hr).
Qed.

(** C5, counterexample.  The complete run of the image notebook leaves the
    predicted-probability matrix and the feature matrix in two files. *)
Lemma image_notebook_saves_its_arrays :
  result Toy.Img.run_notebook = inr tt /\
  existsb (Image.has_stage WriteFile) (trace Toy.Img.run_notebook) = true /\
  ImageLibrary.files (world Toy.Img.run_notebook) !! Image.pred_probs_path
  = Some (ImageLibrary.Array
            [[0; 0]; [1; 1]; [2; 2]; [3; 3]; [4; 4]; [5; 5]; [6; 6]; [7; 7]; [8; 8]; [9; 9]]%float) /\
  ImageLibrary.files (world Toy.Img.run_notebook) !! Image.features_path
  = Some (ImageLibrary.Array
            [[0; 0; 0]; [1; 1; 1]; [2; 2; 2]; [3; 3; 3]; [4; 4; 4]; [5; 5; 5]; [6; 6; 6];
             [7; 7; 7]; [8; 8; 8]; [9; 9; 9]]%float).
Proof. vm_compute. done. Qed.

(** C5, as amended.  No call of the tabular or of the transformer notebook
    writes a file.  The image notebook writes files, and only these: the
    checkpoint of a fold ([torch.save]) and the two arrays ([np.save]), both
    of which every complete run saves. *)
Theorem files_written_by_each_notebook :
  (forall (W : Type) (h : env Tabular.ev W) (w : W),
     Forall (fun t => Tabular.has_stage WriteFile t = false)
            (trace (run h Tabular.notebook w))) /\
  (forall (W : Type) (h : env Transformer.ev W) (w : W),
     Forall (fun t => Transformer.has_stage WriteFile t = false)
            (trace (run h Transformer.notebook w))) /\
  (forall (W : Type) (h : env Image.ev W) (w : W),
     let o := run h Image.notebook w in
     Forall (fun t => match t with
                      | Called c _ => Image.writes_expected_file c
                      | Shelled _ => True
                      end) (trace o) /\
     (result o = inr tt ->
      Exists (fun t => Image.saves_array Image.features_path t = true) (trace o) /\
      Exists (fun t => Image.saves_array Image.pred_probs_path t = true) (trace o))).
Proof.
  split; [| split].
  - intros W h w. apply Forall_forall. intros [X c r | cmd] _; [| done].
    destruct c; try done. simpl. by destruct (Tabular.reports_accuracy msg).
  - intros W h w. apply Forall_forall. intros [X c r | cmd] _; [| done].
    destruct c; try done. simpl. by destruct (Transformer.reports_accuracy msg).
  - intros W h w o. subst o. split.
    + apply only_run, image_only_expected_files.
    + intros Hr. split.
      * exact (must_run_unit _ h _ w (image_must_save _ (or_introl eq_refl)) Hr).
      * exact (must_run_unit _ h _ w (image_must_save _ (or_intror eq_refl)) Hr).
Qed.

(* ===================================================================== *)
(** * Steps of the notebooks that call no library                         *)
(* ===================================================================== *)

Section Glue.
Context {E : Type -> Type}.
Import pd.

Lemma no_call_getitem df n : no_call (@getitem E df n).
Proof. unfold getitem. by destruct (lookup_column _ _). Qed.

Lemma no_call_setitem df n s : no_call (@setitem E df n s).
Proof. unfold setitem. by destruct (Nat.eqb _ _). Qed.

Lemma no_call_drop_columns df ns : no_call (@drop_columns E df ns).
Proof. unfold drop_columns. by destruct (List.find _ _). Qed.

Lemma no_call_select_columns df ns : no_call (@select_columns E df ns).
Proof. unfold select_columns. by destruct (List.find _ _). Qed.

Lemma no_call_iloc df ps : no_call (@iloc E df ps).
Proof. unfold iloc. by destruct (forallb _ _). Qed.

Lemma no_call_drop df ls : no_call (@drop E df ls).
Proof. unfold drop. by destruct (forallb _ _). Qed.

Lemma no_call_sort_values df n o : no_call (@sort_values_by_position E df n o).
Proof.
  unfold sort_values_by_position. apply no_call_bind; [apply no_call_getitem |].
  intros c. by destruct (mapM _ _).
Qed.

Lemma no_call_int_truediv a b : no_call (@int_truediv E a b).
Proof. unfold int_truediv. by destruct (Nat.eqb _ _). Qed.

Lemma getitem_lookup df n s :
  @getitem E df n = Ret s -> lookup_column n (columns df) = Some s.
Proof. unfold getitem. destruct (lookup_column _ _); [by intros [= ->] | done]. Qed.

Lemma drop_without df labels X : @drop E df labels = Ret X -> X = without_labels df labels.
Proof. unfold drop. destruct (forallb _ _); [by intros [= ->] | done]. Qed.

Lemma drop_columns_names df names X n :
  @drop_columns E df names = Ret X -> string_in n names = true -> n ∉ column_names X.
Proof.
  unfold drop_columns. destruct (List.find _ names); [done |]. intros [= <-] Hn.
  unfold column_names. simpl. intros Hin.
  apply list_elem_of_fmap in Hin as [[n' s] [-> Hin]].
  apply list_elem_of_In, List.filter_In in Hin as [_ Hf]. simpl in *. by rewrite Hn in Hf.
Qed.

Lemma select_columns_names df names X n :
  @select_columns E df names = Ret X -> string_in n names = false -> n ∉ column_names X.
Proof.
  unfold select_columns. destruct (List.find _ names); [done |]. intros [= <-] Hn.
  unfold column_names. simpl. intros Hin.
  apply list_elem_of_fmap in Hin as [[n' s] [-> Hin]].
  apply list_elem_of_In, List.filter_In in Hin as [_ Hf]. simpl in *. by rewrite Hn in Hf.
Qed.

End Glue.

Lemma no_call_iloc_at df i n : no_call (Transformer.iloc_at df i n).
Proof.
  unfold Transformer.iloc_at. apply no_call_bind; [apply no_call_iloc |]. intros r.
  apply no_call_bind; [apply no_call_getitem |]. intros c. by destruct (pd.values c).
Qed.

Lemma no_call_mean_equal p l : no_call (Transformer.mean_equal p l).
Proof. unfold Transformer.mean_equal. by destruct (Nat.eqb _ _). Qed.

Create HintDb no_call.
#[export] Hint Resolve no_call_getitem no_call_setitem no_call_drop_columns
  no_call_select_columns no_call_iloc no_call_drop no_call_sort_values
  no_call_int_truediv no_call_iloc_at no_call_mean_equal : no_call.

(** One step through a program whose calls are checked against a contract. *)
Ltac safe_step :=
  lazymatch goal with
  | |- safe _ _ _ (bind (call _) _) => apply safe_bind_call; [| intros ?]
  | |- safe _ _ _ (call _) => apply safe_call; [| intros ?]
  | |- safe _ _ _ (bind (bang _) _) => cbn [safe bind bang]
  | |- safe _ _ _ (bind _ _) =>
      first [ apply safe_bind_no_call; [solve [auto with no_call] | intros ? ?]
            | apply safe_bind ]
  | |- safe _ _ _ (Ret _) => cbn [safe]
  | |- safe _ _ _ _ => apply safe_no_call; [solve [auto with no_call] | intros ? ?]
  end.

Ltac lookups :=
  repeat match goal with
         | H : pd.getitem _ _ = Ret _ |- _ => apply getitem_lookup in H; simpl in H
         end.

Lemma omap_snoc {A B} (f : A -> option B) (l : list A) (x : A) :
  omap f (l ++ [x]) = omap f l ++ match f x with Some y => [y] | None => [] end.
Proof. rewrite omap_app. simpl. by destruct (f x). Qed.

(** ** Removing rows by label *)

Section RowRemoval.
Import pd.

Lemma take_positions_where_from {A B} (f : A -> bool) (idx : list A) (pre l : list B) :
  length l = length idx ->
  omap (fun p => (pre ++ l) !! p)
       (List.map fst (List.filter snd (zip (seq (length pre) (length (List.map f idx)))
                                          (List.map f idx))))
  = List.map snd (List.filter (fun p => f p.1) (zip idx l)).
Proof.
  revert pre l. induction idx as [| i idx IH]; intros pre l Hlen.
  - by destruct l.
  - destruct l as [| x l]; [done |]. simpl in Hlen. injection Hlen as Hlen.
    specialize (IH (pre ++ [x]) l Hlen).
    rewrite <- app_assoc, length_app in IH. simpl in IH.
    replace (length pre + 1) with (S (length pre)) in IH by lia.
    cbn [List.map length seq zip zip_with List.filter fst snd].
    destruct (f i); cbn [snd fst List.map omap list_omap List.filter].
    + rewrite list_lookup_middle by done. f_equal. exact IH.
    + exact IH.
Qed.

Lemma take_positions_where {A B} (f : A -> bool) (idx : list A) (l : list B) :
  length l = length idx ->
  take l (positions_where (List.map f idx))
  = List.map snd (List.filter (fun p => f p.1) (zip idx l)).
Proof. intros Hlen. exact (take_positions_where_from f idx [] l Hlen). Qed.

Lemma zip_diag_filter {A} (f : A -> bool) (l : list A) :
  List.map snd (List.filter (fun p => f p.1) (zip l l)) = List.filter f l.
Proof.
  induction l as [| x l IH]; [done |]. simpl. destruct (f x); simpl; by rewrite IH.
Qed.

(** The rows that remain are exactly the rows whose label is not listed. *)
Lemma index_without_labels df labels :
  index (without_labels df labels)
  = List.filter (fun l => negb (nat_in l labels)) (index df).
Proof.
  unfold without_labels, where_, take_rows. simpl.
  rewrite take_positions_where by done.
  apply (zip_diag_filter (fun l => negb (nat_in l labels))).
Qed.

(** They keep their values in every column. *)
Lemma column_without_labels df labels name s :
  (name, s) ∈ columns df -> length (values s) = nrows df ->
  exists s', (name, s') ∈ columns (without_labels df labels) /\
     dtype s' = dtype s /\
     values s' = List.map snd (List.filter (fun p => negb (nat_in p.1 labels))
                                 (zip (index df) (values s))).
Proof.
  intros Hin Hlen.
  exists (take_series (positions_where (List.map (fun l => negb (nat_in l labels)) (index df))) s).
  split; [| split; [done |]].
  - unfold without_labels, where_, take_rows. simpl.
    apply list_elem_of_In, in_map_iff. exists (name, s). split; [done |].
    by apply list_elem_of_In.
  - simpl. by apply (take_positions_where (fun l => negb (nat_in l labels))).
Qed.

End RowRemoval.

(* ===================================================================== *)
(** * The tabular notebook: what each call is given                       *)
(* ===================================================================== *)

Section TabularContract.
Import pd Tabular.

Lemma the_split_snoc hist t :
  the_split (hist ++ [t]) =
  match the_split hist with
  | Some s => Some s
  | None => match split_answer t with
            | Some (train, test) => Some (reset_index train, reset_index test)
            | None => None
            end
  end.
Proof.
  unfold the_split. rewrite omap_app. simpl.
  destruct (omap split_answer hist) as [| [a b] l]; simpl.
  - by destruct (split_answer t) as [[? ?]|].
  - done.
Qed.

Lemma fits_before_snoc hist t :
  fits_before (hist ++ [t]) = fits_before hist + (if is_fit t then 1 else 0).
Proof.
  unfold fits_before. rewrite List.filter_app, length_app. simpl. by destruct (is_fit t).
Qed.

Lemma the_issues_snoc hist t :
  the_issues (hist ++ [t]) =
  match issues_answer t with Some i => Some i | None => the_issues hist end.
Proof.
  unfold the_issues. rewrite omap_app. simpl. destruct (issues_answer t); simpl.
  - by rewrite last_snoc.
  - by rewrite app_nil_r.
Qed.

(** What is known after [n] fits, with [issues] the answer of the detector
    if it has been called. *)
Definition known (v4 : cell4_vars) (n : nat) (issues : option (list nat))
    (hist : list (entry ev)) : Prop :=
  split_known v4 hist /\ fits_before hist = n /\ the_issues hist = issues.

Definition trained (v4 : cell4_vars) (v6 : cell6_vars) : Prop :=
  @drop_columns ev (df_train v4) non_features = Ret (train_data v6) /\
  lookup_column "noisy_letter_grade" (columns (df_train v4)) = Some (train_labels v6).

Ltac history :=
  unfold contract, detector_contract, retrain_contract, features_contract, known,
    split_known in *;
  repeat rewrite ?the_split_snoc, ?fits_before_snoc, ?the_issues_snoc; cbn.

Lemma cell_4_safe : safe (@contract) (fun hist v4 => known v4 0 None hist) [] cell_4.
Proof.
  unfold cell_4, encode_column. repeat safe_step; try done.
  history.
  match goal with x : (DataFrame * DataFrame)%type |- _ => destruct x as [train test] end.
  lookups. simpl in *. done.
Qed.

Lemma cell_6_safe v4 hist :
  known v4 0 None hist ->
  safe (@contract) (fun hist' v6 => known v4 1 None hist' /\ trained v4 v6) hist (cell_6 v4).
Proof.
  intros (Hs & Hf & Hi). unfold cell_6. repeat safe_step.
  - history. destruct Hs as (Hs & Ht & Hl). rewrite Hs, Hf. lookups.
    split; [done |]. split; [split; [done |]; split; [| done] |].
    + intros _. by exists (df_train v4), (df_test v4).
    + eapply drop_columns_names; eauto.
  - history. destruct Hs as (Hs & Ht & Hl). rewrite Hs. split; [done |]. split; [eauto |].
    eapply drop_columns_names; eauto.
  - history. destruct Hs as (Hs & Ht & Hl). rewrite Hs. split; [done |]. split; eauto.
  - history. done.
  - history. unfold trained. destruct Hs as (Hs & Ht & Hl). rewrite Hs, Hf, Hi.
    lookups. simpl. done.
Qed.

Lemma cell_9_safe v4 v6 hist :
  known v4 1 None hist -> trained v4 v6 ->
  safe (@contract) (fun hist' issue_idx => known v4 1 (Some issue_idx) hist') hist
    (cell_9 v4 v6).
Proof.
  intros (Hs & Hf & Hi) (Hd & Hl). unfold cell_9. repeat safe_step.
  - history. repeat split; try done. eapply drop_columns_names; eauto.
  - history. destruct Hs as (Hs & Ht & Hl'). rewrite Hs, Hi.
    repeat split; try done.
    + rewrite last_snoc. eauto.
    + eauto.
  - history. done.
  - history. destruct Hs as (Hs & Ht & Hl'). rewrite Hs, Hf. done.
Qed.

Lemma cell_12_safe v4 issue_idx n hist :
  known v4 n (Some issue_idx) hist ->
  safe (@contract) (fun hist' _ => known v4 n (Some issue_idx) hist') hist
    (cell_12 v4 issue_idx).
Proof.
  intros (Hs & Hf & Hi). unfold cell_12. repeat safe_step.
  - history. done.
  - history. destruct Hs as (Hs & Ht & Hl'). rewrite Hs, Hf, Hi. done.
Qed.

Lemma cell_14_safe v4 v6 issue_idx hist :
  known v4 1 (Some issue_idx) hist ->
  safe (@contract) (fun hist' _ => known v4 2 (Some issue_idx) hist') hist
    (cell_14 v4 v6 issue_idx).
Proof.
  intros (Hs & Hf & Hi). unfold cell_14. repeat safe_step.
  - history. destruct Hs as (Hs & Ht & Hl'). rewrite Hs, Hi, Hf.
    match goal with H : drop _ _ = Ret _ |- _ => apply drop_without in H; subst end.
    lookups. repeat split; try done.
    + intros _. by exists (df_train v4), (df_test v4), issue_idx.
    + eapply drop_columns_names; eauto.
  - history. destruct Hs as (Hs & Ht & Hl'). rewrite Hs. repeat split; eauto.
    eapply drop_columns_names; eauto.
  - history. destruct Hs as (Hs & Ht & Hl'). rewrite Hs. repeat split; eauto.
  - history. done.
  - history. done.
  - history. done.
  - history. destruct Hs as (Hs & Ht & Hl'). rewrite Hs, Hf, Hi. done.
Qed.

Lemma cell_17_safe v4 v6 acc issue_idx hist :
  known v4 2 (Some issue_idx) hist ->
  safe (@contract) (fun _ _ => True) hist (cell_17 v4 v6 acc).
Proof.
  intros (Hs & Hf & Hi). unfold cell_17, encode_column. repeat safe_step; try done.
  - history. rewrite Hf. repeat split; try done.
    eapply select_columns_names; eauto.
  - history. destruct Hs as (Hs & Ht & Hl'). rewrite Hs. repeat split; eauto.
    eapply drop_columns_names; eauto.
  - history. destruct Hs as (Hs & Ht & Hl'). rewrite Hs. repeat split; eauto.
Qed.

(** Every call of the notebook keeps the contract. *)
Lemma tabular_contract_kept : safe (@contract) (fun _ _ => True) [] notebook.
Proof.
  unfold notebook.
  eapply safe_then; [apply cell_4_safe |]. cbv beta. intros h4 v4 H4.
  eapply safe_then; [apply cell_6_safe, H4 |]. cbv beta. intros h6 v6 [H6 Ht].
  eapply safe_then; [apply (cell_9_safe _ _ _ H6 Ht) |]. cbv beta. intros h9 issue_idx H9.
  eapply safe_then; [apply (cell_12_safe _ _ _ _ H9) |]. cbv beta. intros h12 [] H12.
  eapply safe_then; [apply (cell_14_safe _ v6 _ _ H12) |]. cbv beta. intros h14 acc H14.
  apply (cell_17_safe _ _ _ _ _ H14).
Qed.

End TabularContract.

(* ===================================================================== *)
(** * The transformer notebook: what each call is given                   *)
(* ===================================================================== *)

Section TransformerContract.
Import pd Transformer.

(** What is known once the data is loaded: the models and the
    [CleanLearning] objects made so far. *)
Definition made (d : data_vars) (models : list obj) (cls : list (obj * obj))
    (hist : list (entry ev)) : Prop :=
  data_known d hist /\
  omap wrapper_answer hist
  = List.map (fun m => (fn_build_model, the_model_kwargs, the_compile_kwargs, m)) models /\
  omap cleanlearning_answer hist = List.map (fun p => (p.1, 3, true, p.2)) cls.

Ltac history :=
  unfold contract, detector_contract, retrain_contract, made, data_known, wrapped_model,
    wraps, token_ids_of, labels_of in *;
  repeat rewrite omap_snoc;
  cbn [wrapper_answer cleanlearning_answer csv_answer encoding_answer app];
  repeat rewrite app_nil_r.

Ltac obligation Hmade :=
  history; destruct Hmade as ((Ht0 & Ht1 & Hl0 & Hl1) & Hw & Hc);
  rewrite ?Hw, ?Hc, ?last_snoc; simpl;
  repeat split; eauto; try set_solver.

Lemma load_and_preprocess_safe :
  safe (@contract) (fun hist d => made d [] [] hist) [] load_and_preprocess.
Proof.
  unfold load_and_preprocess, print_example. repeat safe_step; try done.
  history. lookups. simpl.
  repeat match goal with H : lookup_column _ _ = Some _ |- _ => rewrite H end. done.
Qed.

(** Every call of the notebook keeps the contract. *)
Lemma transformer_contract_kept : safe (@contract) (fun _ _ => True) [] notebook.
Proof.
  unfold notebook, new_model, grid_search, test_accuracy, print_example.
  eapply safe_then; [apply load_and_preprocess_safe |]. cbv beta. intros h d Hmade.
  repeat safe_step.
  all: try (history; done).
  all: obligation Hmade.
Qed.

End TransformerContract.

(* ===================================================================== *)
(** * Detection and retraining                                            *)
(* ===================================================================== *)




(* ===================================================================== *)
(** * The image notebook: the rows of the saved arrays                    *)
(* ===================================================================== *)

(** ** Rows stored at index arrays *)

Section StoreRows.

Lemma store_rows_length a idx rows : length (store_rows a idx rows) = length a.
Proof.
  unfold store_rows. generalize (zip idx rows). intros l. revert a.
  induction l as [| [i r] l IH]; intros a; simpl; [done |]. rewrite IH. apply length_insert.
Qed.

Lemma store_rows_other a idx rows i :
  i ∉ idx -> store_rows a idx rows !! i = a !! i.
Proof.
  unfold store_rows, ndarray. revert a rows.
  induction idx as [| i0 idx IH]; intros a rows Hi; [done |].
  destruct rows as [| r rows]; [done |]. simpl.
  apply not_elem_of_cons in Hi as [Hne Hi]. rewrite IH by done.
  by apply list_lookup_insert_ne.
Qed.

Lemma store_rows_at a idx rows j i r :
  NoDup idx -> idx !! j = Some i -> rows !! j = Some r -> i < length a ->
  store_rows a idx rows !! i = Some r.
Proof.
  unfold store_rows, ndarray. revert a rows j.
  induction idx as [| i0 idx IH]; intros a rows j Hnd Hi Hr Hlt; [done |].
  destruct rows as [| r0 rows]; [done |]. simpl. apply NoDup_cons in Hnd as [Hnotin Hnd].
  destruct j as [| j]; simpl in *.
  - simplify_eq. change (store_rows (<[i:=r]> a) idx rows !! i = Some r).
    rewrite store_rows_other by done. by apply list_lookup_insert_eq.
  - apply (IH _ _ j); try done. unfold ndarray. by rewrite length_insert.
Qed.

Lemma stores_snoc a ws idx rows :
  stores a (ws ++ [(idx, rows)]) = store_rows (stores a ws) idx rows.
Proof. unfold stores. by rewrite fold_left_app. Qed.

Lemma stores_length a ws : length (stores a ws) = length a.
Proof.
  induction ws as [| [idx rows] ws IH] using rev_ind; [done |].
  by rewrite stores_snoc, store_rows_length.
Qed.

Lemma elem_of_concat {A} (x : A) (ls : list (list A)) :
  x ∈ concat ls <-> exists l, l ∈ ls /\ x ∈ l.
Proof.
  induction ls as [| l ls IH]; simpl.
  - split; [by intros ?%elem_of_nil | by intros (l & ?%elem_of_nil & _)].
  - rewrite elem_of_app, IH. split.
    + intros [H | (l' & H1 & H2)]; [exists l | exists l']; split; try done; by constructor.
    + intros (l' & [-> | H1]%elem_of_cons & H2); [by left | right; by exists l'].
Qed.

(** An index that occurs once in all the folds occurs in one fold, at one
    place. *)
Lemma concat_NoDup_unique {A} (ls : list (list A)) k l j k' l' j' x :
  NoDup (concat ls) ->
  ls !! k = Some l -> l !! j = Some x -> ls !! k' = Some l' -> l' !! j' = Some x ->
  k = k' /\ j = j'.
Proof.
  revert k k'. induction ls as [| l0 ls IH]; intros k k' Hnd Hk Hj Hk' Hj'; [done |].
  simpl in Hnd. apply NoDup_app in Hnd as (Hnd0 & Hdisj & Hnd).
  destruct k as [| k], k' as [| k']; simpl in *; simplify_eq.
  - split; [done |]. by apply (NoDup_lookup l j j' x).
  - exfalso. apply (Hdisj x); [by eapply list_elem_of_lookup_2 |].
    apply elem_of_concat. exists l'. split; by eapply list_elem_of_lookup_2.
  - exfalso. apply (Hdisj x); [by eapply list_elem_of_lookup_2 |].
    apply elem_of_concat. exists l. split; by eapply list_elem_of_lookup_2.
  - destruct (IH k k' Hnd Hk Hj Hk' Hj') as [-> ->]. done.
Qed.

Lemma concat_NoDup_part {A} (ls : list (list A)) k l :
  NoDup (concat ls) -> ls !! k = Some l -> NoDup l.
Proof.
  revert k. induction ls as [| l0 ls IH]; intros k Hnd Hk; [done |].
  simpl in Hnd. apply NoDup_app in Hnd as (Hnd0 & Hdisj & Hnd).
  destruct k as [| k]; simpl in *; simplify_eq; [done |]. by eapply IH.
Qed.

(** The row stored for an index that is written once. *)
Lemma stores_at a ws k idx rows j i r :
  NoDup (concat ws.*1) ->
  ws !! k = Some (idx, rows) -> idx !! j = Some i -> rows !! j = Some r -> i < length a ->
  stores a ws !! i = Some r.
Proof.
  revert k. induction ws as [| [idx' rows'] ws IH] using rev_ind; intros k Hnd Hk Hj Hr Hlt; [done |].
  rewrite stores_snoc. rewrite fmap_app, concat_app in Hnd. simpl in Hnd.
  rewrite app_nil_r in Hnd. apply NoDup_app in Hnd as (Hnd0 & Hdisj & Hnd).
  destruct (decide (k < length ws)) as [Hlt' | Hge].
  - rewrite lookup_app_l in Hk by done. rewrite store_rows_other.
    + by apply (IH k).
    + apply (Hdisj i). apply elem_of_concat. exists idx. split.
      * apply list_elem_of_fmap. exists (idx, rows). split; [done |]. by eapply list_elem_of_lookup_2.
      * by eapply list_elem_of_lookup_2.
  - rewrite lookup_app_r in Hk by lia. apply list_lookup_singleton_Some in Hk as [_ Hk].
    simplify_eq. eapply store_rows_at; try done. by rewrite stores_length.
Qed.

End StoreRows.

(** ** Runs that keep an invariant of the world *)

Section Keeps.
Context {E : Type -> Type} {W : Type} (h : env E W) (Inv : W -> Prop).

Local Abbreviation K := (keeps h Inv).

Lemma keeps_ret {R} (r : R) (post : R -> Prop) : post r -> K (Ret r) post.
Proof. intros H. by apply triple_ret. Qed.

Lemma keeps_raise {R} e (post : R -> Prop) : K (Raise e) post.
Proof. apply triple_raise. Qed.

Lemma keeps_bind {A B} (mid : A -> Prop) (post : B -> Prop) (p : prog E A) (f : A -> prog E B) :
  K p mid -> (forall a, mid a -> K (f a) post) -> K (bind p f) post.
Proof.
  intros Hp Hf. eapply triple_bind; [apply Hp |]. intros a w [Hw Ha]. by apply Hf.
Qed.

Lemma keeps_call {X} (c : E X) (post : X -> Prop) :
  (forall w x w', Inv w -> lib h c w = (inr x, w') -> Inv w' /\ post x) ->
  K (call c) post.
Proof. intros H. apply triple_call. intros w x w' Hw Hl. by apply (H w). Qed.

Lemma keeps_bang cmd : (forall w, Inv w -> Inv (shell h cmd w)) -> K (bang cmd) (fun _ => True).
Proof. intros H w Hw. simpl. split; [by apply H | done]. Qed.

Lemma keeps_conseq {R} (post post' : R -> Prop) (p : prog E R) :
  (forall r, post r -> post' r) -> K p post -> K p post'.
Proof.
  intros H Hp. eapply triple_conseq; [| | apply Hp]; [done |]. intros r w [? ?]. split; auto.
Qed.

Lemma keeps_no_call {R} (p : prog E R) (post : R -> Prop) :
  no_call p -> (forall r, p = Ret r -> post r) -> K p post.
Proof.
  destruct p; simpl; try done.
  intros _ H. apply keeps_ret. by apply H.
Qed.

Lemma keeps_for_in {A S} (inv : list A -> S -> Prop) (xs : list A)
    (body : A -> S -> prog E S) (s : S) :
  inv [] s ->
  (forall done x s, (exists rest, xs = done ++ x :: rest) -> inv done s ->
     K (body x s) (inv (done ++ [x]))) ->
  K (for_in xs body s) (inv xs).
Proof.
  intros H0 Hbody.
  eapply triple_conseq; [| | apply (triple_for_in h (fun done s w => Inv w /\ inv done s))].
  - intros w Hw. by split.
  - done.
  - intros done x s' Hx w [Hw Hs]. by apply Hbody.
Qed.

Lemma keeps_for_break {A S} (inv : S -> Prop) (xs : list A)
    (body : A -> S -> prog E (control S)) (s : S) :
  inv s ->
  (forall x s, x ∈ xs -> inv s ->
     K (body x s) (fun c => match c with Continue s' | Break s' => inv s' end)) ->
  K (for_break xs body s) inv.
Proof.
  intros H0 Hbody.
  eapply triple_conseq; [| | apply (triple_for_break h (fun s w => Inv w /\ inv s))].
  - intros w Hw. by split.
  - done.
  - intros x s' Hx w [Hw Hs]. specialize (Hbody x s' Hx Hs w Hw).
    destruct (result (run h (body x s') w)) as [e | [s'' | s'']]; done.
Qed.

Lemma keeps_then {A B} (mid : A -> Prop) (post : B -> W -> Prop)
    (p : prog E A) (f : A -> prog E B) :
  K p mid -> (forall a, mid a -> triple h Inv (f a) post) ->
  triple h Inv (bind p f) post.
Proof.
  intros Hp Hf. eapply triple_bind; [apply Hp |]. intros a w [Hw Ha]. by apply Hf.
Qed.

Lemma keeps_run {R} (p : prog E R) (post : R -> Prop) w r :
  K p post -> Inv w -> result (run h p w) = inr r -> Inv (world (run h p w)) /\ post r.
Proof. intros Hp Hw Hr. specialize (Hp w Hw). by rewrite Hr in Hp. Qed.

End Keeps.

(** ** Answers in a trace *)

Section Answers.
Context {E : Type -> Type} {W : Type} (h : env E W).

(** Every answer recorded in a trace is what the library gave. *)
Lemma run_answers {R} (p : prog E R) (w : W) :
  Forall (fun t => match t with
                   | Called c r => exists w1, r = (lib h c w1).1
                   | Shelled _ => True
                   end) (trace (run h p w)).
Proof.
  revert w. induction p as [a | e | X c k IH | cmd k IH]; intros w; simpl.
  - constructor.
  - constructor.
  - destruct (lib h c w) as [[e | x] w'] eqn:Hl; simpl.
    + constructor; [| constructor]. exists w. by rewrite Hl.
    + constructor; [| apply IH]. exists w. by rewrite Hl.
  - constructor; [done | apply IH].
Qed.

Lemma Forall_trace_bind (P : entry E -> Prop) {A B} (p : prog E A) (f : A -> prog E B) w :
  Forall P (trace (run h p w)) ->
  (forall a, result (run h p w) = inr a ->
     Forall P (trace (run h (f a) (world (run h p w))))) ->
  Forall P (trace (run h (bind p f) w)).
Proof.
  intros Hp Hf. rewrite run_bind. destruct (result (run h p w)) as [e | a]; simpl; [done |].
  apply Forall_app. split; [done |]. by apply Hf.
Qed.
End Answers.

(** ** The cells *)

Section ImageNotebook.
Import Image ImageLibrary.

Section ImageRun.
Context (L : Library) (smp : list (PILImage * nat)) (cls : list string)
        (folds : list (list nat * list nat)) (w0 : World).
Context (Hdisk : disk L (os_path_join DATA_DIR "caltech256-subset") = inr (smp, cls)).
Context (Hsplit : split L kf (length smp) smp.*2 = inr folds).

Local Abbreviation d := (image_folder smp cls).
Local Abbreviation vars := {| dataset := d; n_classes := length cls; labels := targets d |}.
Local Abbreviation Inv := (checkpoints_ok L d folds w0).
Local Abbreviation K := (keeps (environment L) Inv).
Local Abbreviation loaded_from := (ImageLibrary.loaded_from L smp cls folds w0).
Local Abbreviation pred_probs_written := (ImageLibrary.pred_probs_written L smp cls folds w0).
Local Abbreviation features_written := (ImageLibrary.features_written L smp cls).
Local Abbreviation saved := (ImageLibrary.saved L smp cls folds w0).

Lemma same_files w w' : files w' = files w -> Inv w -> Inv w'.
Proof. intros Hf H k sd. rewrite Hf. apply H. Qed.

Ltac call_spec :=
  apply keeps_call; intros w x w' Hw Hl; simpl in Hl.

Lemma keeps_print msg : K (call (print msg)) (fun _ => True).
Proof. call_spec. simplify_eq. split; [by eapply same_files | done]. Qed.

Lemma keeps_image_folder :
  K (call (ImageFolder (os_path_join DATA_DIR "caltech256-subset") transform)) (fun x => x = d).
Proof. call_spec. rewrite Hdisk in Hl. by simplify_eq. Qed.

Lemma keeps_cuda : K (call cuda_is_available) (fun _ => True).
Proof. call_spec. by simplify_eq. Qed.

Lemma keeps_kf_split : K (call (kf_split kf d (targets d))) (fun x => x = folds).
Proof.
  call_spec. unfold len, targets in Hl. simpl in Hl. rewrite Hsplit in Hl. by simplify_eq.
Qed.

Lemma keeps_create_model name p n :
  K (call (create_model name p n)) (fun m => exists g g', new_module L name p n g = (inr m, g')).
Proof.
  call_spec. destruct (new_module L name p n (generator w)) as [r g'] eqn:Hn. simplify_eq.
  split; [by eapply same_files | eauto].
Qed.

Lemma keeps_iterate loader :
  K (call (iterate loader))
    (fun batches => exists order, order ⊆ indices (dl_subset loader) /\
       (dl_shuffle loader = false -> order = indices (dl_subset loader)) /\
       batches_of L loader order = inr batches).
Proof.
  call_spec. unfold iterate_loader in Hl.
  destruct (Nat.eqb (dl_batch_size loader) 0); [done |].
  destruct (dl_shuffle loader) eqn:Hsh.
  - destruct (randperm L (generator w) (length (indices (dl_subset loader)))) as [perm g].
    simplify_eq. split; [by eapply same_files |].
    exists (omap (fun p => indices (dl_subset loader) !! p) perm). split; [| split; [done | done]].
    intros i (p & _ & Hp)%list_elem_of_omap. by eapply list_elem_of_lookup_2.
  - simplify_eq. split; [done |]. exists (indices (dl_subset loader)). done.
Qed.

Lemma keeps_train_step m opt inputs targets :
  K (call (train_step m opt inputs targets))
    (fun r => exists g g', optimise L m opt inputs targets g = (inr r, g')).
Proof.
  call_spec. destruct (optimise L m opt inputs targets (generator w)) as [r g'] eqn:Hn.
  simplify_eq. split; [by eapply same_files | eauto].
Qed.

Lemma keeps_forward m inputs :
  K (call (forward m inputs)) (fun out => apply_module L m inputs = inr out).
Proof. call_spec. by simplify_eq. Qed.

Lemma keeps_torch_max outputs dim : K (call (torch_max outputs dim)) (fun _ => True).
Proof. call_spec. by simplify_eq. Qed.

Lemma keeps_softmax outputs dim :
  K (call (softmax outputs dim)) (fun out => row_softmax L outputs dim = inr out).
Proof. call_spec. by simplify_eq. Qed.

Lemma keeps_reset_classifier m n :
  K (call (reset_classifier m n)) (fun m' => new_head L m n = inr m').
Proof. call_spec. by simplify_eq. Qed.

Lemma keeps_load_state_dict m sd :
  K (call (load_state_dict m sd)) (fun m' => m' = with_state_dict m sd).
Proof. call_spec. destruct (same_layout _ _); by simplify_eq. Qed.

Lemma keeps_torch_load k :
  K (call (torch_load (checkpoint_path k)))
    (fun sd => files w0 !! checkpoint_path k = Some (Checkpoint sd) \/
               exists tr te, folds !! k = Some (tr, te) /\ trained_on L d tr sd).
Proof.
  call_spec. destruct (files w !! checkpoint_path k) as [[sd |] |] eqn:Hf; simplify_eq.
  split; [done |]. by apply Hw.
Qed.

Lemma string_length_append (s t : string) :
  String.length (s ++ t) = String.length s + String.length t.
Proof. induction s as [| a s IH]; simpl; [done |]. by rewrite IH. Qed.

Lemma string_app_inj_r (t s s' : string) : (s ++ t = s' ++ t)%string -> s = s'.
Proof.
  revert s'. induction s as [| a s IH]; intros [| a' s'] H; simpl in *; try done.
  - apply (f_equal String.length) in H. rewrite !string_length_append in H. simpl in H. lia.
  - apply (f_equal String.length) in H. rewrite !string_length_append in H. simpl in H. lia.
  - injection H as -> H. f_equal. by apply IH.
Qed.

Lemma checkpoint_path_inj : Inj eq eq checkpoint_path.
Proof.
  intros k k' H. unfold checkpoint_path in H.
  apply String.app_inj in H. apply String.app_inj in H.
  apply string_app_inj_r in H. apply (inj pretty) in H. lia.
Qed.

Lemma keeps_torch_save sd k tr te :
  folds !! k = Some (tr, te) -> trained_on L d tr sd ->
  K (call (torch_save sd (checkpoint_path k))) (fun _ => True).
Proof.
  intros Hk Ht. call_spec. simplify_eq. split; [| done].
  intros k' sd' Hf. simpl in Hf.
  destruct (decide (k' = k)) as [-> | Hne].
  - rewrite lookup_insert_eq in Hf. simplify_eq. right. eauto.
  - rewrite lookup_insert_ne in Hf; [by apply Hw |].
    intros Heq. by apply checkpoint_path_inj in Heq.
Qed.


(** ** Batches *)

Lemma collate_all_Forall2 dd chunks bs :
  collate_all L dd chunks = inr bs -> Forall2 (fun c b => collate L dd c = inr b) chunks bs.
Proof.
  revert bs. induction chunks as [| c chunks IH]; intros bs H; simpl in H.
  - simplify_eq. constructor.
  - destruct (collate L dd c) as [e | b] eqn:Hc; [done |].
    destruct (collate_all L dd chunks) as [e | bs']; [done |]. simplify_eq.
    constructor; [done | by apply IH].
Qed.

Lemma chunks_aux_subset {A} fuel n (l c : list A) : c ∈ chunks_aux fuel n l -> c ⊆ l.
Proof.
  revert l. induction fuel as [| fuel IH]; intros l; simpl; [by intros ?%elem_of_nil |].
  destruct l as [| x l]; [by intros ?%elem_of_nil |].
  intros [-> | Hin]%elem_of_cons.
  - apply subseteq_take.
  - apply IH in Hin. etrans; [exact Hin | apply subseteq_drop].
Qed.

Lemma batches_within loader order S batches :
  order ⊆ S -> batches_of L loader order = inr batches ->
  Forall (fun b => exists idxs, idxs ⊆ S /\ collate L (sub_dataset (dl_subset loader)) idxs = inr b)
         batches.
Proof.
  intros Hsub H. unfold batches_of in H. apply collate_all_Forall2 in H.
  apply Forall_forall. intros b Hb.
  apply list_elem_of_lookup in Hb as [i Hi].
  destruct (Forall2_lookup_r _ _ _ _ _ H Hi) as (c & Hc & Hcol).
  exists c. split; [| done]. apply list_elem_of_lookup_2 in Hc. apply chunks_aux_subset in Hc.
  by etrans.
Qed.

Ltac kstep :=
  eapply keeps_bind;
  [ first [ apply keeps_print | apply keeps_cuda | apply keeps_image_folder
          | apply keeps_kf_split | apply keeps_create_model | apply keeps_iterate
          | apply keeps_train_step | apply keeps_forward | apply keeps_torch_max
          | apply keeps_softmax | apply keeps_reset_classifier | apply keeps_load_state_dict
          | apply keeps_torch_load ] | ].

(** ** Cell 10 *)

Lemma train_batches_keeps tr batches s :
  trained_on L d tr (state_dict s.1.1) ->
  Forall (fun b => exists idxs, idxs ⊆ tr /\ collate L d idxs = inr b) batches ->
  K (train_batches batches s) (fun s' => trained_on L d tr (state_dict s'.1.1)).
Proof.
  intros Hs Hb. unfold train_batches.
  apply (keeps_for_in _ _ (fun _ s' => trained_on L d tr (state_dict s'.1.1))); [done |].
  intros done [inputs targets] [[m opt] l] [rest Hrest] Hm. simpl in Hm.
  assert ((inputs, targets) ∈ batches) as Hin by (rewrite Hrest; set_solver).
  rewrite Forall_forall in Hb. destruct (Hb _ Hin) as (idxs & Hsub & Hcol).
  kstep. intros [[m' opt'] l'] (g & g' & Hopt). apply keeps_ret. simpl.
  by eapply trained_step.
Qed.

Lemma eq_sum_no_call predicted targets : no_call (eq_sum predicted targets).
Proof.
  unfold eq_sum. destruct (Nat.eqb _ _); [done |].
  destruct predicted as [| p [| p' predicted]], targets as [| t [| t' targets]]; done.
Qed.

Lemma eval_batches_keeps m batches : K (eval_batches m batches) (fun _ => True).
Proof.
  unfold eval_batches. apply (keeps_for_in _ _ (fun _ _ => True)); [done |].
  intros done [inputs targets] [correct total] _ _.
  kstep. intros out _. kstep. intros r _.
  eapply keeps_bind;
    [apply (keeps_no_call _ _ _ (fun _ => True)); [apply eq_sum_no_call | done] |].
  intros n _. by apply keeps_ret.
Qed.

Lemma epoch_body_keeps k tr te epoch s :
  folds !! k = Some (tr, te) ->
  trained_on L d tr (state_dict (model s)) ->
  K (epoch_body k
       {| dl_subset := {| sub_dataset := d; indices := tr |};
          dl_batch_size := batch_size; dl_shuffle := true |}
       {| dl_subset := {| sub_dataset := d; indices := te |};
          dl_batch_size := batch_size; dl_shuffle := false |} epoch s)
    (fun c => match c with
              | Continue s' | Break s' => trained_on L d tr (state_dict (model s'))
              end).
Proof.
  intros Hk Hs. unfold epoch_body.
  kstep. intros _ _. kstep. intros batches (order & Hsub & _ & Hb).
  apply (batches_within _ _ tr) in Hb; [| done]. simpl in Hb.
  eapply keeps_bind; [apply (train_batches_keeps tr); [done | done] |].
  intros [[m opt] l] Hm. simpl in Hm.
  eapply keeps_bind; [apply (keeps_no_call _ _ _ (fun _ => True)); [by destruct l | done] |].
  intros loss_value _. kstep. intros _ _. kstep. intros val_batches _.
  eapply keeps_bind; [apply eval_batches_keeps |]. intros [correct total] _.
  eapply keeps_bind;
    [apply (keeps_no_call _ _ _ (fun _ => True)); [apply no_call_int_truediv | done] |].
  intros val_accuracy _. kstep. intros _ _.
  eapply (keeps_bind _ _ (fun s' => trained_on L d tr (state_dict (model s')))).
  - destruct (PrimFloat.ltb _ _).
    + kstep. intros _ _.
      eapply keeps_bind; [by apply (keeps_torch_save _ k tr te) |]. intros _ _.
      by apply keeps_ret.
    + by apply keeps_ret.
  - intros s' Hs'. destruct (Nat.ltb _ _).
    + kstep. intros _ _. by apply keeps_ret.
    + by apply keeps_ret.
Qed.

Lemma enumerate_lookup {A} (xs : list A) done k x rest :
  enumerate xs = done ++ (k, x) :: rest -> xs !! k = Some x.
Proof.
  intros H. assert (enumerate xs !! length done = Some (k, x)) as Hl.
  { rewrite H. by apply list_lookup_middle. }
  unfold enumerate in Hl. apply lookup_zip_with_Some in Hl as (i & y & Heq & Hi & Hy).
  simplify_eq. apply lookup_seq in Hi as [-> _]. done.
Qed.

Lemma fold_body_keeps dev done k tr te rest loss :
  enumerate folds = done ++ (k, (tr, te)) :: rest ->
  K (fold_body vars dev (k, (tr, te)) loss) (fun _ => True).
Proof.
  intros Hk%enumerate_lookup. unfold fold_body.
  do 4 (kstep; intros _ _). kstep. intros m (g & g' & Hm).
  eapply keeps_bind;
    [apply (keeps_for_break _ _ (fun s => trained_on L d tr (state_dict (model s)))) |].
  - simpl. by eapply trained_fresh.
  - intros epoch s _ Hs. by apply (epoch_body_keeps k tr te).
  - intros s _. by apply keeps_ret.
Qed.

Lemma cell_10_keeps dev : K (cell_10 vars dev) (fun _ => True).
Proof.
  unfold cell_10. kstep. intros ? ->.
  eapply keeps_bind; [apply (keeps_for_in _ _ (fun _ _ => True)); [done |] |].
  - intros done [k [tr te]] s [rest Hrest] _. by eapply fold_body_keeps.
  - intros _ _. by apply keeps_ret.
Qed.


(** ** Cell 12 *)

Lemma outputs_on_snoc post m done inputs t a out out' :
  outputs_on L post m done = inr a -> apply_module L m inputs = inr out ->
  post out = inr out' ->
  outputs_on L post m (done ++ [(inputs, t)]) = inr (a ++ out').
Proof.
  intros Hd Ha Hp. revert a Hd. induction done as [| [i0 t0] done IH]; intros a Hd; simpl in *.
  - simplify_eq. by rewrite Ha, Hp, app_nil_r.
  - destruct (apply_module L m i0) as [e | o0]; [done |].
    destruct (post o0) as [e | o0']; [done |].
    destruct (outputs_on L post m done) as [e | rest]; [done |]. simplify_eq.
    rewrite (IH rest eq_refl). by rewrite app_assoc.
Qed.

Lemma predict_batches_keeps m batches :
  K (predict_batches m batches)
    (fun parts => outputs_on L (fun o => row_softmax L o 1) m batches = inr (concat parts)).
Proof.
  unfold predict_batches.
  apply (keeps_for_in _ _
           (fun done parts => outputs_on L (fun o => row_softmax L o 1) m done = inr (concat parts)));
    [done |].
  intros done [inputs t] parts _ Hd. kstep. intros out Hout. kstep. intros out' Hout'.
  apply keeps_ret. rewrite concat_app. simpl. rewrite app_nil_r.
  by apply (outputs_on_snoc _ _ _ _ _ _ out).
Qed.

Lemma feature_batches_keeps m batches :
  K (feature_batches m batches)
    (fun parts => outputs_on L inr m batches = inr (concat parts)).
Proof.
  unfold feature_batches.
  apply (keeps_for_in _ _ (fun done parts => outputs_on L inr m done = inr (concat parts)));
    [done |].
  intros done [inputs t] parts _ Hd. kstep. intros out Hout.
  apply keeps_ret. rewrite concat_app. simpl. rewrite app_nil_r.
  by apply (outputs_on_snoc _ _ _ _ _ _ out).
Qed.

Lemma load_checkpoint_keeps dev k :
  K (load_checkpoint vars dev (checkpoint_path k)) (loaded_from k).
Proof.
  unfold load_checkpoint. kstep. intros m0 _. kstep. intros sd Hsd. kstep. intros ? ->.
  by apply keeps_ret.
Qed.

Lemma no_call_np_concatenate {E} parts : no_call (@np_concatenate E parts).
Proof. unfold np_concatenate. destruct parts; [done |]. by destruct (row_width _). Qed.

Lemma no_call_setitem_rows {E} a ncols idx v : no_call (@setitem_rows E a ncols idx v).
Proof.
  unfold setitem_rows. destruct (forallb _ _); [| done]. by destruct (broadcast_to _ _ _).
Qed.

Lemma np_concatenate_ret {E} parts rows : @np_concatenate E parts = Ret rows -> rows = concat parts.
Proof.
  unfold np_concatenate. destruct parts; [done |]. destruct (row_width _); [| done]. by intros [= <-].
Qed.

Lemma setitem_rows_ret {E} a ncols idx v a' :
  @setitem_rows E a ncols idx v = Ret a' ->
  exists rows, broadcast_to (length idx) ncols v = Some rows /\ a' = store_rows a idx rows /\
               Forall (fun i => i < length a) idx.
Proof.
  unfold setitem_rows. destruct (forallb _ _) eqn:Hall; [| done].
  destruct (broadcast_to _ _ _) as [rows |]; [| done]. intros [= <-]. exists rows.
  split; [done |]. split; [done |]. apply Forall_forall. intros i Hi.
  rewrite forallb_forall in Hall. apply Nat.ltb_lt, Hall. by apply list_elem_of_In.
Qed.

Lemma predict_fold_keeps dev nf k tr te F P :
  K (predict_fold vars dev nf (k, (tr, te)) (F, P))
    (fun a => exists rowsF rowsP,
       a = (store_rows F te rowsF, store_rows P te rowsP) /\
       features_written nf (k, (tr, te)) (te, rowsF) /\
       pred_probs_written (k, (tr, te)) (te, rowsP) /\
       Forall (fun i => i < length F) te /\ Forall (fun i => i < length P) te).
Proof.
  unfold predict_fold.
  eapply keeps_bind; [apply load_checkpoint_keeps |]. intros m Hm.
  kstep. intros batches (order & _ & Horder & Hb). simpl in Horder, Hb.
  rewrite (Horder eq_refl) in Hb. clear order Horder.
  eapply keeps_bind; [apply predict_batches_keeps |]. intros parts Hparts.
  eapply keeps_bind; [apply keeps_no_call; [apply no_call_np_concatenate | intros r Hr; exact Hr] |].
  intros rows ->%np_concatenate_ret.
  eapply keeps_bind; [apply keeps_no_call; [apply no_call_setitem_rows | intros r Hr; exact Hr] |].
  intros P' (rowsP & HbP & -> & HinP)%setitem_rows_ret.
  eapply keeps_bind; [apply load_checkpoint_keeps |]. intros m1 _.
  kstep. intros m2 Hm2.
  kstep. intros batches' (order & _ & Horder & Hb'). simpl in Horder, Hb'.
  rewrite (Horder eq_refl) in Hb'. clear order Horder.
  eapply keeps_bind; [apply feature_batches_keeps |]. intros parts' Hparts'.
  eapply keeps_bind; [apply keeps_no_call; [apply no_call_np_concatenate | intros r Hr; exact Hr] |].
  intros rows' ->%np_concatenate_ret.
  eapply keeps_bind; [apply keeps_no_call; [apply no_call_setitem_rows | intros r Hr; exact Hr] |].
  intros F' (rowsF & HbF & -> & HinF)%setitem_rows_ret.
  apply keeps_ret. exists rowsF, rowsP. split; [done |]. split; [| split; [| done]].
  - split; [done |]. exists m2, batches', (concat parts'). done.
  - split; [done |]. exists m. split; [done |]. exists batches, (concat parts). done.
Qed.


Lemma cell_12_saves dev :
  triple (environment L) Inv (cell_12 vars dev) (fun _ w => exists nf, saved nf w).
Proof.
  unfold cell_12.
  eapply keeps_then; [apply load_checkpoint_keeps |]. intros m _.
  eapply keeps_then; [apply keeps_kf_split |]. intros ? ->.
  set (nf := num_features m).
  eapply keeps_then.
  { apply (keeps_for_in _ _
             (fun done (a : ndarray * ndarray) => exists wF wP,
                a = (stores (np_zeros (length smp) nf) wF,
                     stores (np_zeros (length smp) (length cls)) wP) /\
                Forall2 (features_written nf) done wF /\
                Forall2 pred_probs_written done wP)).
    - exists [], []. split; [done |]. split; constructor.
    - intros done [k [tr te]] a _ (wF & wP & -> & HF & HP).
      eapply keeps_conseq; [| apply predict_fold_keeps].
      intros a (rowsF & rowsP & -> & HwF & HwP & _ & _).
      exists (wF ++ [(te, rowsF)]), (wP ++ [(te, rowsP)]).
      rewrite !stores_snoc. split; [done |].
      split; (apply Forall2_app; [done |]; by constructor). }
  intros [F P] (wF & wP & [= -> ->] & HF & HP).
  eapply (triple_bind _ _ (fun _ w => files w !! features_path
            = Some (Array (stores (np_zeros (length smp) nf) wF)))).
  - apply triple_call. intros w x w' _ Hl. simpl in Hl. simplify_eq. simpl.
    apply lookup_insert_eq.
  - intros _. apply triple_call. intros w x w' Hw Hl. simpl in Hl. simplify_eq.
    exists nf, wF, wP. simpl. split; [| split; [| done]].
    + rewrite lookup_insert_ne; [done |]. by vm_compute.
    + apply lookup_insert_eq.
Qed.

Lemma notebook_saves :
  triple (environment L) Inv notebook (fun _ w => exists nf, saved nf w).
Proof.
  unfold notebook, cell_4, cell_5, cell_7.
  eapply keeps_then.
  { eapply keeps_bind; [by apply keeps_bang |]. intros _ _.
    eapply keeps_bind; [by apply keeps_bang |]. intros _ _. by apply keeps_bang. }
  intros _ _.
  eapply keeps_then; [eapply keeps_bind; [apply keeps_image_folder |] |].
  { intros ? ->. apply (keeps_ret _ _ _ (fun v => v = vars)). done. }
  intros ? ->.
  eapply keeps_then; [eapply keeps_bind; [apply keeps_cuda |] |].
  { intros cuda _. by apply (keeps_ret _ _ _ (fun _ => True)). }
  intros dev _.
  eapply keeps_then; [apply cell_10_keeps |]. intros _ _.
  apply cell_12_saves.
Qed.


(** ** The rows of the saved arrays *)

Lemma broadcast_to_length m c v rows : broadcast_to m c v = Some rows -> length rows = m.
Proof.
  unfold broadcast_to. destruct (mapM _ v) as [rows' |]; [| done].
  destruct (Nat.eqb_spec (length rows') m) as [Hl | Hl]; [by intros [= <-] |].
  destruct rows' as [| r [| r' rows']]; try done. intros [= <-]. by rewrite length_replicate.
Qed.

Lemma enumerate_lookup_Some {A} (xs : list A) k x :
  xs !! k = Some x -> enumerate xs !! k = Some (k, x).
Proof.
  intros H. unfold enumerate. apply lookup_zip_with_Some. exists k, x. split; [done |].
  split; [| done]. apply lookup_seq. split; [done |]. by eapply lookup_lt_Some.
Qed.

Lemma written_lookup (P : nat * (list nat * list nat) -> list nat * ndarray -> Prop) ws k f :
  Forall2 P (enumerate folds) ws -> folds !! k = Some f ->
  exists w, ws !! k = Some w /\ P (k, f) w.
Proof. intros H Hk. by eapply Forall2_lookup_l, enumerate_lookup_Some. Qed.

Lemma written_indices (P : nat * (list nat * list nat) -> list nat * ndarray -> Prop) ws :
  (forall x w, P x w -> w.1 = x.2.2) ->
  Forall2 P (enumerate folds) ws -> ws.*1 = folds.*2.
Proof.
  intros HP H. apply list_eq. intros k. rewrite !list_lookup_fmap.
  destruct (folds !! k) as [f |] eqn:Hk.
  - destruct (written_lookup P ws k f H Hk) as (w & -> & Hw). simpl. f_equal. by apply (HP _ _ Hw).
  - assert (ws !! k = None) as ->; [| done].
    apply lookup_ge_None. apply lookup_ge_None in Hk.
    apply Forall2_length in H. unfold enumerate in H.
    rewrite length_zip_with, length_seq in H. lia.
Qed.

Lemma saved_row (P : nat * (list nat * list nat) -> list nat * ndarray -> Prop) ws a i :
  (forall x w, P x w -> w.1 = x.2.2 /\ length w.2 = length w.1) ->
  Forall2 P (enumerate folds) ws ->
  partition_of (length a) folds.*2 ->
  i < length a ->
  exists k tr te j rows r,
    folds !! k = Some (tr, te) /\ te !! j = Some i /\
    (forall k' tr' te' j', folds !! k' = Some (tr', te') -> te' !! j' = Some i ->
       k' = k /\ j' = j) /\
    P (k, (tr, te)) (te, rows) /\ rows !! j = Some r /\ stores a ws !! i = Some r.
Proof.
  intros HP Hws (Hnd & _ & Hall) Hi.
  assert (i ∈ concat folds.*2) as Hin.
  { rewrite Forall_forall in Hall. apply Hall. apply elem_of_seq. lia. }
  apply elem_of_concat in Hin as (te & Hte & Hin).
  apply list_elem_of_lookup in Hte as [k Hk]. apply list_elem_of_lookup in Hin as [j Hj].
  apply list_lookup_fmap_Some in Hk as ([tr te'] & Heq & Hk). simpl in Heq. subst te'.
  destruct (written_lookup P ws k _ Hws Hk) as ([idx rows] & Hw & HPw).
  destruct (HP _ _ HPw) as [Hidx Hlen]. simpl in Hidx, Hlen. subst idx.
  destruct (lookup_lt_is_Some_2 rows j) as [r Hr].
  { rewrite Hlen. by eapply lookup_lt_Some. }
  exists k, tr, te, j, rows, r. split; [done |]. split; [done |]. split; [| split; [done |]].
  - intros k' tr' te'' j' Hk' Hj'.
    eapply (concat_NoDup_unique folds.*2 k' te'' j' k te j i); try done.
    + rewrite list_lookup_fmap, Hk'. done.
    + rewrite list_lookup_fmap, Hk. done.
  - split; [done |]. eapply stores_at; try done.
    rewrite (written_indices P); [done | | done]. intros x w Hx. by apply (HP x w).
Qed.


(** ** The calls of [kf.split] *)

Lemma cells_split_arguments v dev :
  only (@split_arguments v) (bind (cell_10 v dev) (fun _ => cell_12 v dev)).
Proof.
  unfold cell_10, cell_12, fold_body, predict_fold,
    epoch_body, train_batches, eval_batches, predict_batches, feature_batches,
    load_checkpoint, eq_sum.
  repeat first [ apply only_np_concatenate | apply only_setitem_rows
               | apply only_int_truediv | only_step ].
Qed.

Lemma notebook_splits w :
  Forall (splits_as d folds) (trace (run (environment L) notebook w)).
Proof.
  assert (forall p : prog ev unit, only (@split_arguments vars) p ->
            forall w, Forall (splits_as d folds) (trace (run (environment L) p w))) as Hrest.
  { intros p Hp w'. pose proof (only_run _ (environment L) p w' Hp) as Hargs.
    pose proof (run_answers (environment L) p w') as Hans.
    apply Forall_forall. intros t Ht. rewrite Forall_forall in Hargs, Hans.
    specialize (Hargs t Ht). specialize (Hans t Ht).
    destruct t as [X c r | cmd]; [| done]. destruct Hans as [w1 ->].
    destruct c; try done. destruct Hargs as (-> & -> & ->). simpl.
    unfold len, targets. simpl. by rewrite Hsplit. }
  assert (forall w', run (environment L) cell_5 w'
            = Outcome (inr vars) w'
                [Called (ImageFolder (os_path_join DATA_DIR "caltech256-subset") transform)
                        (inr d)]) as H5.
  { intros w'. unfold cell_5. simpl. by rewrite Hdisk. }
  unfold notebook.
  apply Forall_trace_bind; [by repeat constructor | intros _ _].
  apply Forall_trace_bind; rewrite H5; [by repeat constructor | intros ? [= <-]].
  apply Forall_trace_bind; [by repeat constructor | intros dev _].
  apply Hrest, cells_split_arguments.
Qed.

End ImageRun.

Lemma written_shape_F L smp cls nf x w :
  features_written L smp cls nf x w -> w.1 = x.2.2 /\ length w.2 = length w.1.
Proof.
  intros [Hidx (m & batches & out & _ & _ & Hb)]. split; [done |].
  apply broadcast_to_length in Hb. by rewrite Hidx.
Qed.

Lemma written_shape_P L smp cls folds w0 x w :
  pred_probs_written L smp cls folds w0 x w -> w.1 = x.2.2 /\ length w.2 = length w.1.
Proof.
  intros [Hidx (m & _ & batches & out & _ & _ & Hb)]. split; [done |].
  apply broadcast_to_length in Hb. by rewrite Hidx.
Qed.

Lemma notebook_saved L smp cls folds w0 :
  disk L (os_path_join DATA_DIR "caltech256-subset") = inr (smp, cls) ->
  split L kf (length smp) smp.*2 = inr folds ->
  result (run (environment L) notebook w0) = inr tt ->
  exists nf, saved L smp cls folds w0 nf (world (run (environment L) notebook w0)).
Proof.
  intros Hdisk Hsplit Hres.
  pose proof (notebook_saves L smp cls folds w0 Hdisk Hsplit w0) as H.
  rewrite Hres in H. apply H. intros k sd Hk. by left.
Qed.

(** C8.  In a complete run of the image notebook in which [kf.split] answers
    [folds] for the data set and the held-out parts of [folds] are a
    partition of the indices of the data set: every call of [kf.split] in the
    run is given the splitter of cell 9, the data set and its labels, and is
    answered [folds]; the two arrays saved have one row per image; and every
    index [i] is the held-out index of one fold [k] at one position [j] and
    of no other, and row [i] of [pred_probs] (of [features]) is row [j] of
    what cell 12 computed for fold [k] and stored at the fold's held-out
    indices: the softmax outputs of the fold's model (the outputs of the
    headless model) on the batches of those indices. *)
Theorem image_rows_assigned_exactly_once (L : Library) (smp : list (PILImage * nat))
    (cls : list string) (folds : list (list nat * list nat)) (w0 : World) :
  disk L (os_path_join DATA_DIR "caltech256-subset") = inr (smp, cls) ->
  split L kf (length smp) smp.*2 = inr folds ->
  partition_of (length smp) folds.*2 ->
  result (run (environment L) notebook w0) = inr tt ->
  Forall (splits_as (image_folder smp cls) folds)
         (trace (run (environment L) notebook w0)) /\
  exists nf F P,
    files (world (run (environment L) notebook w0)) !! features_path = Some (Array F) /\
    files (world (run (environment L) notebook w0)) !! pred_probs_path = Some (Array P) /\
    length F = length smp /\ length P = length smp /\
    forall i, i < length smp ->
      exists k tr te j,
        folds !! k = Some (tr, te) /\ te !! j = Some i /\
        (forall k' tr' te' j', folds !! k' = Some (tr', te') -> te' !! j' = Some i ->
           k' = k /\ j' = j) /\
        (exists m rows r,
           held_out_outputs L (image_folder smp cls) (fun o => row_softmax L o 1)
             (length cls) m te rows /\
           rows !! j = Some r /\ P !! i = Some r) /\
        (exists m rows r,
           held_out_outputs L (image_folder smp cls) inr nf m te rows /\
           rows !! j = Some r /\ F !! i = Some r).
Proof.
  intros Hdisk Hsplit Hpart Hres. split; [by apply notebook_splits |].
  destruct (notebook_saved L smp cls folds w0 Hdisk Hsplit Hres)
    as (nf & wF & wP & HF & HP & HwF & HwP).
  exists nf, (stores (np_zeros (length smp) nf) wF),
    (stores (np_zeros (length smp) (length cls)) wP).
  split; [done |]. split; [done |].
  assert (forall c, length (np_zeros (length smp) c) = length smp) as Hz
    by (intros c; apply length_replicate).
  split; [by rewrite stores_length |]. split; [by rewrite stores_length |].
  intros i Hi.
  destruct (saved_row folds _ wP (np_zeros (length smp) (length cls)) i
              (written_shape_P L smp cls folds w0) HwP)
    as (k & tr & te & j & rows & r & Hk & Hj & Huniq & [_ (m & _ & Hm)] & Hr & HPi);
    [by rewrite Hz | by rewrite Hz |].
  destruct (saved_row folds _ wF (np_zeros (length smp) nf) i
              (written_shape_F L smp cls nf) HwF)
    as (k' & tr' & te' & j' & rows' & r' & Hk' & Hj' & _ & [_ (m' & Hm')] & Hr' & HFi);
    [by rewrite Hz | by rewrite Hz |].
  destruct (Huniq k' tr' te' j' Hk' Hj') as [-> ->]. simplify_eq.
  exists k, tr, te, j. split; [done |]. split; [done |]. split; [done |]. split.
  - by exists m, rows, r.
  - by exists m', rows', r'.
Qed.


Lemma image_rows_assigned_exactly_once_witness :
  partition_of 10 Toy.Img.folds.*2 /\
  result Toy.Img.run_notebook = inr tt /\
  Forall (splits_as (image_folder Toy.Img.smp ["cat"; "dog"]) Toy.Img.folds)
         (trace Toy.Img.run_notebook) /\
  exists F P,
    files (world Toy.Img.run_notebook) !! features_path = Some (Array F) /\
    files (world Toy.Img.run_notebook) !! pred_probs_path = Some (Array P) /\
    length F = 10 /\ length P = 10.
Proof.
  assert (partition_of 10 Toy.Img.folds.*2) as Hpart.
  { split; [| split]; apply (bool_decide_unpack _); vm_compute; exact I. }
  assert (result Toy.Img.run_notebook = inr tt) as Hres by (vm_compute; reflexivity).
  split; [exact Hpart |]. split; [exact Hres |].
  destruct (image_rows_assigned_exactly_once Toy.Img.library Toy.Img.smp ["cat"; "dog"]
              Toy.Img.folds Toy.Img.fresh eq_refl eq_refl Hpart Hres)
    as (Hsp & nf & F & P & HF & HP & HlF & HlP & _).
  split; [exact Hsp |]. exists F, P. split; [exact HF |]. split; [exact HP |].
  split; [exact HlF | exact HlP].
Defined.


End ImageNotebook.

(* ===================================================================== *)
(** * More on the image notebook: shapes, folds, features, early stopping  *)
(* ===================================================================== *)

(** ** The width of what is stored *)

Section Shapes.
Import Image ImageLibrary.

Lemma broadcast_row_width c r r' : broadcast_row c r = Some r' -> length r' = c.
Proof.
  unfold broadcast_row. destruct (Nat.eqb_spec (length r) c) as [H | H]; [by intros [= <-] |].
  destruct r as [| x [| y r]]; try done. intros [= <-]. apply length_replicate.
Qed.

Lemma broadcast_to_width m c v rows :
  broadcast_to m c v = Some rows -> Forall (fun r => length r = c) rows.
Proof.
  unfold broadcast_to. destruct (mapM (broadcast_row c) v) as [rows' |] eqn:Hm; [| done].
  assert (Forall (fun r => length r = c) rows') as Hw.
  { apply mapM_Some in Hm. apply Forall_forall. intros r' Hr'.
    apply list_elem_of_lookup in Hr' as [i Hi].
    destruct (Forall2_lookup_r _ _ _ _ _ Hm Hi) as (r & _ & Hr). by eapply broadcast_row_width. }
  destruct (Nat.eqb (length rows') m); [by intros [= <-] |].
  destruct rows' as [| r [| r' rows']]; try done. intros [= <-].
  apply Forall_replicate. by inversion Hw.
Qed.

Lemma store_rows_width c a idx rows :
  Forall (fun r => length r = c) a -> Forall (fun r => length r = c) rows ->
  Forall (fun r => length r = c) (store_rows a idx rows).
Proof.
  unfold store_rows, ndarray. revert a rows.
  induction idx as [| i idx IH]; intros a rows Ha Hrows; [done |].
  destruct rows as [| r rows]; [done |]. simpl. inversion Hrows; subst.
  apply IH; [| done]. by apply Forall_insert.
Qed.

Lemma stores_width c a ws :
  Forall (fun r => length r = c) a ->
  Forall (fun w => Forall (fun r => length r = c) w.2) ws ->
  Forall (fun r => length r = c) (stores a ws).
Proof.
  intros Ha. induction ws as [| [idx rows] ws IH] using rev_ind; intros Hws; [done |].
  apply Forall_app in Hws as [Hws Hw]. inversion Hw; subst.
  rewrite stores_snoc. apply store_rows_width; [by apply IH | done].
Qed.
End Shapes.

(** ** Runs without an invariant *)

Section Generic.
Context {E : Type -> Type} {W : Type} (h : env E W).

(** With no invariant to keep, every program keeps it. *)
Lemma keeps_any {R} (p : prog E R) : keeps h (fun _ => True) p (fun _ => True).
Proof. intros w _. by destruct (result (run h p w)). Qed.

Lemma keeps_answer {X} (c : E X) :
  keeps h (fun _ => True) (call c) (fun x => exists w w', lib h c w = (inr x, w')).
Proof. apply keeps_call. intros w x w' _ Hl. split; [done |]. eauto. Qed.
End Generic.

(** ** A fold without validation images, a first fold without training images *)

Section EmptyFolds.
Import Image ImageLibrary.
Context (L : Library).

Local Abbreviation K0 := (keeps (environment L) (fun _ => True)).

Lemma batches_of_nil loader : batches_of L loader [] = inr [].
Proof. reflexivity. Qed.

(** A loader over no index yields no batch. *)
Lemma iterate_nothing loader w batches w' :
  indices (dl_subset loader) = [] ->
  answer L (iterate loader) w = (inr batches, w') -> batches = [].
Proof.
  intros Hnil Hl. simpl in Hl. unfold iterate_loader in Hl. rewrite Hnil in Hl.
  assert (forall perm, omap (fun p => @nil nat !! p) perm = []) as Hperm.
  { intros perm. induction perm as [| p perm IH]; [done |]. simpl. exact IH. }
  destruct (Nat.eqb (dl_batch_size loader) 0); [done |].
  destruct (dl_shuffle loader).
  - destruct (randperm L (generator w) _) as [perm g]. rewrite Hperm in Hl.
    rewrite batches_of_nil in Hl. by simplify_eq.
  - rewrite batches_of_nil in Hl. by simplify_eq.
Qed.

Lemma epoch_body_returns fold tl vl epoch s :
  K0 (epoch_body fold tl vl epoch s)
     (fun _ => indices (dl_subset vl) <> [] /\
               (loss s = None -> indices (dl_subset tl) <> [])).
Proof.
  unfold epoch_body.
  eapply keeps_bind; [apply keeps_any |]. intros _ _.
  eapply keeps_bind; [apply keeps_answer |]. intros batches (w & w' & Hb). simpl in Hb.
  destruct (decide (indices (dl_subset tl) = [] /\ loss s = None)) as [[Htl Hloss] | Hok].
  { apply (iterate_nothing _ _ _ _ Htl) in Hb. subst batches.
    unfold train_batches. cbn [for_in bind]. rewrite Hloss. cbn [bind]. apply keeps_raise. }
  eapply keeps_bind; [apply keeps_any |]. intros [[m opt] l] _.
  eapply keeps_bind; [apply keeps_any |]. intros loss_value _.
  eapply keeps_bind; [apply keeps_any |]. intros _ _.
  eapply keeps_bind; [apply keeps_answer |]. intros val_batches (w1 & w1' & Hv). simpl in Hv.
  destruct (decide (indices (dl_subset vl) = [])) as [Hvl | Hvl].
  { apply (iterate_nothing _ _ _ _ Hvl) in Hv. subst val_batches.
    unfold eval_batches. cbn [for_in bind]. unfold int_truediv. cbn. apply keeps_raise. }
  eapply keeps_conseq; [| apply keeps_any]. intros _ _. split; [done |].
  intros Hl Ht. apply Hok. done.
Qed.


Lemma fold_body_returns v dev fold tr te loss :
  K0 (fold_body v dev (fold, (tr, te)) loss)
     (fun _ => te <> [] /\ (loss = None -> tr <> [])).
Proof.
  unfold fold_body.
  do 5 (eapply keeps_bind; [apply keeps_any |]; intros ? _).
  change (seq 0 num_epochs) with (0 :: seq 1 9). cbn [for_break].
  eapply keeps_bind; [| intros s Hs; apply keeps_ret; exact Hs].
  eapply keeps_bind; [apply epoch_body_returns |]. cbn [indices dl_subset Image.loss].
  intros c Hc. eapply keeps_conseq; [| apply keeps_any]. by intros _ _.
Qed.

Lemma cell_10_returns v dev :
  K0 (cell_10 v dev)
     (fun _ => forall folds, split L kf (len (dataset v)) (labels v) = inr folds ->
        Forall (fun f => f.2 <> []) folds /\
        (forall f, List.head folds = Some f -> f.1 <> [])).
Proof.
  unfold cell_10.
  eapply keeps_bind; [apply keeps_answer |]. intros folds (w & w' & Hf). simpl in Hf.
  eapply keeps_bind; [apply (keeps_for_in _ _ folds_trained) |].
  - split; [constructor |]. split; [done |]. by intros f.
  - intros done [k [tr te]] loss _ (Hall & Hnone & Hhead).
    eapply keeps_conseq; [| apply fold_body_returns]. intros loss' [Hte Htr].
    split; [apply Forall_app; split; [done | by constructor] |].
    split; [intros H; by apply app_eq_nil in H as [_ H] |].
    intros f. destruct done as [| f0 done]; simpl.
    + intros [= <-]. simpl. by apply Htr, Hnone.
    + intros [= <-]. by apply Hhead.
  - intros loss (Hall & _ & Hhead). apply keeps_ret. intros folds' Hsplit.
    assert (folds' = folds) as -> by congruence. split.
    + apply Forall_forall. intros f Hin. apply list_elem_of_lookup in Hin as [k Hk].
      rewrite Forall_forall in Hall.
      apply (Hall (k, f)). eapply list_elem_of_lookup_2. by apply enumerate_lookup_Some.
    + intros f Hf0. destruct folds as [| f0 folds0]; [done |]. simpl in Hf0. simplify_eq.
      apply (Hhead (0, f)). done.
Qed.

End EmptyFolds.

Section EmptyFoldsTheorem.
Import Image ImageLibrary.

(** X1. Cell 10 divides by the number of validation images of the fold
    ([100 * correct / total]) and prints the loss of the last training batch
    ([loss]).  So a run of the notebook that completes had, in every fold the
    splitter returned, at least one held-out index, and in the first fold at
    least one training index: with an empty validation part, or with an
    empty training part of the first fold, the run does not complete. *)
Theorem completed_run_had_no_empty_fold (L : Library) (smp : list (PILImage * nat))
    (cls : list string) (folds : list (list nat * list nat)) (w0 : World) :
  disk L (os_path_join DATA_DIR "caltech256-subset") = inr (smp, cls) ->
  split L kf (length smp) smp.*2 = inr folds ->
  result (run (environment L) notebook w0) = inr tt ->
  Forall (fun f => f.2 <> []) folds /\
  (forall f, List.head folds = Some f -> f.1 <> []).
Proof.
  intros Hdisk Hsplit Hres.
  assert (keeps (environment L) (fun _ => True) notebook
            (fun _ => Forall (fun f => f.2 <> []) folds /\
                      (forall f, List.head folds = Some f -> f.1 <> []))) as Hk.
  { unfold notebook, cell_5, cell_7.
    eapply keeps_bind; [apply keeps_any |]. intros _ _.
    eapply keeps_bind.
    { eapply keeps_bind; [apply keeps_answer |]. intros ds (w & w' & Hds).
      apply (keeps_ret _ _ _ (fun v => v = {| dataset := image_folder smp cls;
                                              n_classes := length cls;
                                              labels := targets (image_folder smp cls) |})).
      simpl in Hds. rewrite Hdisk in Hds. by simplify_eq. }
    intros ? ->.
    eapply keeps_bind; [apply keeps_any |]. intros dev _.
    eapply keeps_bind; [apply cell_10_returns |]. intros ? H10.
    eapply keeps_conseq; [| apply keeps_any]. intros _ _. by apply H10. }
  specialize (Hk w0 I). rewrite Hres in Hk. apply Hk.
Qed.

Lemma completed_run_had_no_empty_fold_witness :
  result Toy.Img.run_notebook = inr tt /\
  Forall (fun f => f.2 <> []) Toy.Img.folds.
Proof.
  assert (result Toy.Img.run_notebook = inr tt) as Hres by (vm_compute; reflexivity).
  split; [exact Hres |].
  exact (proj1 (completed_run_had_no_empty_fold Toy.Img.library Toy.Img.smp ["cat"; "dog"]
                  Toy.Img.folds Toy.Img.fresh eq_refl eq_refl Hres)).
Defined.
End EmptyFoldsTheorem.

Section SavedShapes.
Import Image ImageLibrary.

(** X2. After a run that completes, [features.npy] and [pred_probs.npy]
    both hold an array with one row per image of the data set; every row of
    the features has the same width, and every row of the predicted
    probabilities has one entry per class. *)
Theorem saved_arrays_are_rectangular (L : Library) (smp : list (PILImage * nat))
    (cls : list string) (folds : list (list nat * list nat)) (w0 : World) :
  disk L (os_path_join DATA_DIR "caltech256-subset") = inr (smp, cls) ->
  split L kf (length smp) smp.*2 = inr folds ->
  result (run (environment L) notebook w0) = inr tt ->
  exists nf F P,
    files (world (run (environment L) notebook w0)) !! features_path = Some (Array F) /\
    files (world (run (environment L) notebook w0)) !! pred_probs_path = Some (Array P) /\
    length F = length smp /\ Forall (fun r => length r = nf) F /\
    length P = length smp /\ Forall (fun r => length r = length cls) P.
Proof.
  intros Hdisk Hsplit Hres.
  destruct (notebook_saved L smp cls folds w0 Hdisk Hsplit Hres)
    as (nf & wF & wP & HF & HP & HwF & HwP).
  exists nf, (stores (np_zeros (length smp) nf) wF),
    (stores (np_zeros (length smp) (length cls)) wP).
  split; [done |]. split; [done |].
  assert (forall c, length (np_zeros (length smp) c) = length smp) as Hz
    by (intros c; apply length_replicate).
  assert (forall c, Forall (fun r => length r = c) (np_zeros (length smp) c)) as Hzw.
  { intros c. apply Forall_replicate. apply length_replicate. }
  split; [by rewrite stores_length |]. split; [| split; [by rewrite stores_length |]].
  - apply stores_width; [done |]. apply Forall_forall. intros w Hw.
    apply list_elem_of_lookup in Hw as [k Hk].
    destruct (Forall2_lookup_r _ _ _ _ _ HwF Hk) as (x & _ & _ & m & b & out & _ & _ & Hb).
    by eapply broadcast_to_width.
  - apply stores_width; [done |]. apply Forall_forall. intros w Hw.
    apply list_elem_of_lookup in Hw as [k Hk].
    destruct (Forall2_lookup_r _ _ _ _ _ HwP Hk) as (x & _ & _ & m & _ & b & out & _ & _ & Hb).
    by eapply broadcast_to_width.
Qed.

Lemma saved_arrays_are_rectangular_witness :
  result Toy.Img.run_notebook = inr tt /\
  exists F P,
    files (world Toy.Img.run_notebook) !! features_path = Some (Array F) /\
    files (world Toy.Img.run_notebook) !! pred_probs_path = Some (Array P) /\
    Forall (fun r => length r = 3) F /\ Forall (fun r => length r = 2) P.
Proof.
  assert (result Toy.Img.run_notebook = inr tt) as Hres by (vm_compute; reflexivity).
  split; [exact Hres |].
  destruct (saved_arrays_are_rectangular Toy.Img.library Toy.Img.smp ["cat"; "dog"]
              Toy.Img.folds Toy.Img.fresh eq_refl eq_refl Hres)
    as (nf & F & P & HF & HP & _ & HwF & _ & HwP).
  exists F, P. split; [exact HF |]. split; [exact HP |]. split; [| exact HwP].
  assert (nf = 3) as <-; [| exact HwF].
  assert (Hf : files (world Toy.Img.run_notebook) !! features_path = Some (Array F)) by exact HF.
  vm_compute in Hf. injection Hf as <-. by inversion HwF.
Defined.

(** X3. The checkpoint files of two different folds have different names,
    and no checkpoint file has the name of one of the two arrays saved at
    the end: no fold overwrites the checkpoint of another one, and
    [np.save] overwrites no checkpoint. *)
Theorem checkpoint_files_do_not_collide :
  (forall k k', checkpoint_path k = checkpoint_path k' -> k = k') /\
  (forall k, checkpoint_path k <> features_path /\ checkpoint_path k <> pred_probs_path).
Proof.
  split; [apply checkpoint_path_inj |].
  intros k. unfold checkpoint_path, features_path, pred_probs_path, os_path_join, DATA_DIR,
    model_prefix. simpl. split; discriminate.
Qed.
End SavedShapes.

(** ** The model behind the features *)

Section FeatureModel.
Import Image ImageLibrary.

Context (L : Library) (smp : list (PILImage * nat)) (cls : list string)
        (folds : list (list nat * list nat)) (w0 : World).
Context (Hdisk : disk L (os_path_join DATA_DIR "caltech256-subset") = inr (smp, cls)).
Context (Hsplit : split L kf (length smp) smp.*2 = inr folds).

Local Abbreviation d := (image_folder smp cls).
Local Abbreviation vars := {| dataset := d; n_classes := length cls; labels := targets d |}.
Local Abbreviation Inv := (checkpoints_ok L d folds w0).
Local Abbreviation K := (keeps (environment L) Inv).

Ltac kstep :=
  eapply keeps_bind;
  [ first [ apply keeps_print | apply keeps_cuda | by apply keeps_image_folder
          | by apply keeps_kf_split | apply keeps_create_model | apply keeps_iterate
          | apply keeps_train_step | apply keeps_forward | apply keeps_torch_max
          | apply keeps_softmax | apply keeps_reset_classifier | apply keeps_load_state_dict
          | apply keeps_torch_load ] | ].

Lemma predict_fold_features dev nf k tr te F P :
  K (predict_fold vars dev nf (k, (tr, te)) (F, P))
    (fun a => exists rowsF,
       a.1 = store_rows F te rowsF /\
       features_from_first_fold L smp cls folds w0 nf (k, (tr, te)) (te, rowsF)).
Proof.
  unfold predict_fold.
  eapply keeps_bind; [apply load_checkpoint_keeps |]. intros m _.
  kstep. intros batches _.
  eapply keeps_bind; [apply predict_batches_keeps |]. intros parts _.
  eapply keeps_bind;
    [apply (keeps_no_call _ _ _ (fun _ => True)); [apply no_call_np_concatenate | done] |].
  intros rows _.
  eapply keeps_bind;
    [apply (keeps_no_call _ _ _ (fun _ => True)); [apply no_call_setitem_rows | done] |].
  intros P' _.
  eapply keeps_bind; [apply load_checkpoint_keeps |]. intros m1 Hm1.
  kstep. intros m2 Hm2.
  kstep. intros batches' (order & _ & Horder & Hb'). simpl in Horder, Hb'.
  rewrite (Horder eq_refl) in Hb'. clear order Horder.
  eapply keeps_bind; [apply feature_batches_keeps |]. intros parts' Hparts'.
  eapply keeps_bind;
    [apply keeps_no_call; [apply no_call_np_concatenate | intros r Hr; exact Hr] |].
  intros rows' ->%np_concatenate_ret.
  eapply keeps_bind; [apply keeps_no_call; [apply no_call_setitem_rows | intros r Hr; exact Hr] |].
  intros F' (rowsF & HbF & -> & HinF)%setitem_rows_ret.
  apply keeps_ret. exists rowsF. split; [done |]. split; [done |].
  exists m1, m2. split; [done |]. split; [done |]. exists batches', (concat parts'). done.
Qed.

Lemma cell_12_features dev :
  triple (environment L) Inv (cell_12 vars dev)
    (fun _ w => exists nf wF m0,
       loaded_from L smp cls folds w0 0 m0 /\ nf = num_features m0 /\
       files w !! features_path = Some (Array (stores (np_zeros (length smp) nf) wF)) /\
       Forall2 (features_from_first_fold L smp cls folds w0 nf) (enumerate folds) wF).
Proof.
  unfold cell_12.
  eapply keeps_then; [apply load_checkpoint_keeps |]. intros m Hm0.
  eapply keeps_then; [by apply keeps_kf_split |]. intros ? ->.
  set (nf := num_features m).
  eapply keeps_then.
  { apply (keeps_for_in _ _
             (fun done (a : ndarray * ndarray) => exists wF,
                a.1 = stores (np_zeros (length smp) nf) wF /\
                Forall2 (features_from_first_fold L smp cls folds w0 nf) done wF)).
    - exists []. split; [done | constructor].
    - intros done [k [tr te]] [F P] _ (wF & HF & HwF). simpl in HF. subst F.
      eapply keeps_conseq; [| apply predict_fold_features].
      intros a (rowsF & Ha & Hw). exists (wF ++ [(te, rowsF)]).
      rewrite stores_snoc. split; [done |]. apply Forall2_app; [done |]. by constructor. }
  intros [F P] (wF & HF & HwF). simpl in HF. subst F.
  eapply (triple_bind _ _ (fun _ w => files w !! features_path
            = Some (Array (stores (np_zeros (length smp) nf) wF)))).
  - apply triple_call. intros w x w' _ Hl. simpl in Hl. simplify_eq. simpl.
    apply lookup_insert_eq.
  - intros _. apply triple_call. intros w x w' Hw Hl. simpl in Hl. simplify_eq.
    exists nf, wF, m. simpl. split; [done |]. split; [done |]. split; [| done].
    rewrite lookup_insert_ne; [done |]. by vm_compute.
Qed.

Lemma notebook_features :
  triple (environment L) Inv notebook
    (fun _ w => exists nf wF m0,
       loaded_from L smp cls folds w0 0 m0 /\ nf = num_features m0 /\
       files w !! features_path = Some (Array (stores (np_zeros (length smp) nf) wF)) /\
       Forall2 (features_from_first_fold L smp cls folds w0 nf) (enumerate folds) wF).
Proof.
  unfold notebook, cell_4, cell_5, cell_7.
  eapply keeps_then.
  { eapply keeps_bind; [by apply keeps_bang |]. intros _ _.
    eapply keeps_bind; [by apply keeps_bang |]. intros _ _. by apply keeps_bang. }
  intros _ _.
  eapply keeps_then; [eapply keeps_bind; [by apply keeps_image_folder |] |].
  { intros ? ->. apply (keeps_ret _ _ _ (fun v => v = vars)). done. }
  intros ? ->.
  eapply keeps_then; [eapply keeps_bind; [apply keeps_cuda |] |].
  { intros cuda _. by apply (keeps_ret _ _ _ (fun _ => True)). }
  intros dev _.
  eapply keeps_then; [by apply cell_10_keeps |]. intros _ _.
  apply cell_12_features.
Qed.

End FeatureModel.

Section FeatureModelTheorem.
Import Image ImageLibrary.

Lemma features_from_shape L smp cls folds w0 nf x w :
  features_from_first_fold L smp cls folds w0 nf x w ->
  w.1 = x.2.2 /\ length w.2 = length w.1.
Proof.
  intros [Hidx (m & m' & _ & _ & batches & out & _ & _ & Hb)]. split; [done |].
  apply broadcast_to_length in Hb. by rewrite Hidx.
Qed.


End FeatureModelTheorem.

(** ** Floats that are numbers are ordered like their keys *)

Section FloatOrder.

Lemma SFltb_key f1 f2 :
  f1 <> S754_nan -> f2 <> S754_nan ->
  SFltb f1 f2 = true <-> key_lt (float_key f1) (float_key f2).
Proof.
  intros H1 H2. unfold SFltb, SFcompare, key_lt.
  destruct f1 as [s1 | s1 | | s1 m1 e1], f2 as [s2 | s2 | | s2 m2 e2]; try done;
    try destruct s1; try destruct s2; cbn [float_key fst snd];
    try (split; [done | lia]); try (split; [lia | done]).
  - change (Pos.compare_cont Eq m1 m2) with (Pos.compare m1 m2).
    destruct (Z.compare_spec e1 e2); [destruct (Pos.compare_spec m1 m2) | |]; simpl;
      (split; [try done; lia | try done; lia]).
  - change (Pos.compare_cont Eq m1 m2) with (Pos.compare m1 m2).
    destruct (Z.compare_spec e1 e2); [destruct (Pos.compare_spec m1 m2) | |]; simpl;
      (split; [try done; lia | try done; lia]).
Qed.

Lemma is_nan_Prim2SF x : PrimFloat.is_nan x = false -> Prim2SF x <> S754_nan.
Proof.
  unfold PrimFloat.is_nan. rewrite FloatAxioms.eqb_spec. intros H Hn. rewrite Hn in H. done.
Qed.

(** Among numbers, "not below" is transitive. *)
Lemma not_below_trans a b c :
  PrimFloat.is_nan a = false -> PrimFloat.is_nan b = false -> PrimFloat.is_nan c = false ->
  PrimFloat.ltb b a = false -> PrimFloat.ltb c b = false -> PrimFloat.ltb c a = false.
Proof.
  intros Ha%is_nan_Prim2SF Hb%is_nan_Prim2SF Hc%is_nan_Prim2SF.
  rewrite !FloatAxioms.ltb_spec. intros Hba Hcb.
  apply not_true_iff_false. apply not_true_iff_false in Hba, Hcb.
  rewrite SFltb_key in Hba, Hcb |- * by done. unfold key_lt in *. lia.
Qed.

Lemma ltb_asym a b :
  PrimFloat.is_nan a = false -> PrimFloat.is_nan b = false ->
  PrimFloat.ltb a b = true -> PrimFloat.ltb b a = false.
Proof.
  intros Ha%is_nan_Prim2SF Hb%is_nan_Prim2SF. rewrite !FloatAxioms.ltb_spec. intros Hab.
  apply not_true_iff_false. rewrite SFltb_key in Hab |- * by done. unfold key_lt in *. lia.
Qed.
Lemma SFcompare_refl f : f <> S754_nan -> SFcompare f f = Some Eq.
Proof.
  destruct f as [s | s | | s m e]; try done; intros _; simpl.
  - by destruct s.
  - rewrite Z.compare_refl.
    change (Pos.compare_cont Eq m m) with (Pos.compare m m). rewrite Pos.compare_refl.
    by destruct s.
Qed.

Lemma Prim2SF_is_nan x : Prim2SF x <> S754_nan -> PrimFloat.is_nan x = false.
Proof.
  intros H. unfold PrimFloat.is_nan. rewrite FloatAxioms.eqb_spec. unfold SFeqb.
  by rewrite SFcompare_refl.
Qed.

Lemma ltb_numbers a b :
  PrimFloat.ltb a b = true -> PrimFloat.is_nan a = false /\ PrimFloat.is_nan b = false.
Proof.
  rewrite FloatAxioms.ltb_spec. unfold SFltb. intros H.
  split; apply Prim2SF_is_nan; intros Hn; rewrite Hn in H; [done |].
  by destruct (Prim2SF a).
Qed.

(** [a <= b < c] gives [a < c]. *)
Lemma not_below_ltb a b c :
  PrimFloat.is_nan a = false ->
  PrimFloat.ltb b a = false -> PrimFloat.ltb b c = true -> PrimFloat.ltb a c = true.
Proof.
  intros Ha Hba Hbc. destruct (ltb_numbers _ _ Hbc) as [Hb Hc].
  apply is_nan_Prim2SF in Ha, Hb, Hc. revert Hba Hbc. rewrite !FloatAxioms.ltb_spec.
  intros Hba Hbc. apply not_true_iff_false in Hba.
  rewrite SFltb_key in Hba, Hbc |- * by done. unfold key_lt in *. lia.
Qed.
End FloatOrder.

(** ** Parts of a run that a contract does not look at *)

Section Silent.
Context {E : Type -> Type}.
Context (P : list (entry E) -> forall X, E X -> Prop) (N : entry E -> Prop).

Lemma silent_bind {A B} (p : prog E A) (f : A -> prog E B) :
  silent P N p -> (forall a, silent P N (f a)) -> silent P N (bind p f).
Proof.
  intros Hp Hf. induction p as [a | e | X c k IH | cmd k IH]; simpl in *; [done | done | |].
  - destruct Hp as [Hc Hk]. split; [done |]. intros x. destruct (Hk x). split; [done |]. eauto.
  - destruct Hp. split; [done |]. eauto.
Qed.

Lemma silent_for_in {A S} (xs : list A) (body : A -> S -> prog E S) s :
  (forall x s, silent P N (body x s)) -> silent P N (for_in xs body s).
Proof.
  intros Hbody. revert s. induction xs as [| x xs IH]; intros s; simpl; [done |].
  apply silent_bind; [done | done].
Qed.

Lemma silent_no_call {R} (p : prog E R) : no_call p -> silent P N p.
Proof. by destruct p. Qed.

Lemma safe_silent {R} (post : list (entry E) -> R -> Prop) hist (p : prog E R) :
  silent P N p ->
  (forall tr r, Forall N tr -> post (hist ++ tr) r) ->
  safe P post hist p.
Proof.
  revert hist. induction p as [a | e | X c k IH | cmd k IH]; intros hist Hp Hpost; simpl in *.
  - specialize (Hpost [] a). rewrite app_nil_r in Hpost. by apply Hpost.
  - done.
  - destruct Hp as [Hc Hk]. split; [done |]. intros x. destruct (Hk x) as [Hn Hs].
    apply IH; [done |]. intros tr r Htr. rewrite <- app_assoc. apply Hpost. by constructor.
  - destruct Hp as [Hn Hs]. apply IH; [done |]. intros tr r Htr.
    rewrite <- app_assoc. apply Hpost. by constructor.
Qed.

(** A silent part, followed by the rest. *)
Lemma safe_bind_silent {A B} (post : list (entry E) -> B -> Prop) hist
    (p : prog E A) (f : A -> prog E B) :
  silent P N p ->
  (forall tr a, Forall N tr -> safe P post (hist ++ tr) (f a)) ->
  safe P post hist (bind p f).
Proof. intros Hp Hf. apply safe_bind. by apply safe_silent. Qed.

Lemma safe_for_break_seq {St} (inv : nat -> list (entry E) -> St -> Prop)
    (post : list (entry E) -> St -> Prop) (body : nat -> St -> prog E (control St)) a n hist s :
  (forall e hist s, a <= e < a + n -> inv e hist s ->
     safe P (fun hist' c => match c with
                            | Continue s' => inv (S e) hist' s'
                            | Break s' => post hist' s'
                            end) hist (body e s)) ->
  (forall hist s, inv (a + n) hist s -> post hist s) ->
  inv a hist s -> safe P post hist (for_break (seq a n) body s).
Proof.
  revert a hist s. induction n as [| n IH]; intros a hist s Hbody Hend Hinv; simpl.
  - apply Hend. by rewrite Nat.add_0_r.
  - apply safe_bind. eapply safe_mono; [done | | apply Hbody; [lia | done]].
    intros hist' [s' | s'] Hs'; simpl; [| done].
    apply IH; [| | done].
    + intros e hist'' s'' He. apply Hbody. lia.
    + intros hist'' s'' Hs''. apply Hend. by replace (a + S n) with (S a + n) by lia.
Qed.
End Silent.

(** Programs whose calls neither print nor save a checkpoint. *)

Section PlainCalls.
Import Image.
Context (P : list (entry ev) -> forall X, ev X -> Prop) (N : entry ev -> Prop).
Context (Hplain : forall X (c : ev X), plain c ->
                    (forall hist, P hist X c) /\ forall x, N (Called c (inr x))).

Lemma silent_plain {X} (c : ev X) : plain c -> silent P N (call c).
Proof. intros Hc. destruct (Hplain X c Hc) as [HP HN]. split; [done |]. intros x. by split. Qed.

Ltac plainly :=
  repeat first
    [ apply silent_plain; exact I
    | apply silent_no_call; solve [auto with no_call]
    | apply silent_no_call, no_call_np_concatenate
    | apply silent_no_call, no_call_setitem_rows
    | apply silent_no_call, eq_sum_no_call
    | apply silent_for_in; intros ? ?
    | apply silent_bind; [| intros ?]
    | progress cbv beta zeta
    | match goal with
      | |- silent _ _ (let '(_, _) := ?x in _) => destruct x
      | |- silent _ _ (Ret _) => exact I
      end ].

Lemma plain_train_batches batches s : silent P N (train_batches batches s).
Proof. unfold train_batches. plainly. Qed.

Lemma plain_eval_batches m batches : silent P N (eval_batches m batches).
Proof. unfold eval_batches. plainly. Qed.

Lemma plain_cell_12 v dev : silent P N (cell_12 v dev).
Proof.
  unfold cell_12, predict_fold, load_checkpoint, predict_batches, feature_batches. plainly.
Qed.
End PlainCalls.

(** ** Early stopping *)

Section EarlyStopping.
Import Image.

Local Abbreviation C := (@early_stopping_contract).
Local Abbreviation Quiet := (silent C neutral).

Lemma saved_since_snoc E hist t :
  saved_since E (hist ++ [t])
  = if starts_epoch E t then false else saved_since E hist || is_save t.
Proof. unfold saved_since. by rewrite fold_left_app. Qed.

Lemma saved_since_neutral E hist tr :
  Forall neutral tr -> saved_since E (hist ++ tr) = saved_since E hist.
Proof.
  induction tr as [| t tr IH] using rev_ind; intros Htr; [by rewrite app_nil_r |].
  apply Forall_app in Htr as [Htr Ht]. inversion Ht as [| ? ? [Hs He] _]; subst.
  rewrite app_assoc, saved_since_snoc, He, Hs, orb_false_r. by apply IH.
Qed.

Lemma saves_so_far_neutral b e hist tr :
  Forall neutral tr -> saves_so_far b e hist -> saves_so_far b e (hist ++ tr).
Proof.
  intros Htr [H1 H2]. split.
  - intros k Hk Hke. rewrite saved_since_neutral by done. by apply H1.
  - intros Hb k Hk. rewrite saved_since_neutral by done. by apply H2.
Qed.

Lemma early_stopping_plain X (c : ev X) :
  plain c -> (forall hist, C hist X c) /\ forall x, neutral (Called c (inr x)).
Proof. by destruct c. Qed.

Lemma quiet_call {X} (c : ev X) :
  (forall hist, C hist X c) -> (forall x, neutral (Called c (inr x))) -> Quiet (call c).
Proof. intros Hc Hn. split; [done |]. intros x. by split. Qed.

Lemma epoch_body_stops fold tl vl e s hist :
  e < num_epochs -> epoch_starts e hist s ->
  safe C (fun hist' c => match c with
                         | Continue s' => epoch_starts (S e) hist' s'
                         | Break _ => True
                         end) hist (epoch_body fold tl vl e s).
Proof.
  intros He (Hbe & Heb & Hno & Hyes). unfold epoch_body.
  apply safe_bind_call.
  { cbn. exists (e + 1). split; [done |]. unfold num_epochs in *. split; [lia |].
    intros H5. replace (e + 1 - 3) with ((e - 3) + 1) by lia. apply Hyes; lia. }
  intros [].
  assert (saves_so_far (best_epoch s) (S e)
            (hist ++ [Called (print [Txt "Epoch "; Int (Z.of_nat (e + 1)); Txt "/";
                                     Int (Z.of_nat num_epochs)]) (inr tt)])) as HJ.
  { split.
    - intros k Hk Hke. rewrite saved_since_snoc. cbn [starts_epoch is_save].
      destruct (Z.eqb_spec (Z.of_nat (e + 1)) (Z.of_nat (k + 1))) as [Heq | Hne]; [done |].
      rewrite orb_false_r. apply Hno; lia.
    - intros Hb k Hk. rewrite saved_since_snoc. cbn [starts_epoch is_save].
      destruct (Z.eqb_spec (Z.of_nat (e + 1)) (Z.of_nat (k + 1))) as [Heq | Hne]; [lia |].
      rewrite orb_false_r. by apply Hyes. }
  clear Hno Hyes.
  apply (safe_bind_silent C neutral); [by apply quiet_call |]. intros ? batches Htr.
  apply (saves_so_far_neutral _ _ _ _ Htr) in HJ. clear Htr.
  apply (safe_bind_silent C neutral); [apply plain_train_batches, early_stopping_plain |].
  intros ? [[m o] l] Htr.
  apply (saves_so_far_neutral _ _ _ _ Htr) in HJ. clear Htr.
  apply (safe_bind_silent C neutral); [by destruct l |]. intros ? loss_value Htr.
  apply (saves_so_far_neutral _ _ _ _ Htr) in HJ. clear Htr.
  apply (safe_bind_silent C neutral); [by apply quiet_call |]. intros ? [] Htr.
  apply (saves_so_far_neutral _ _ _ _ Htr) in HJ. clear Htr.
  apply (safe_bind_silent C neutral); [by apply quiet_call |]. intros ? val_batches Htr.
  apply (saves_so_far_neutral _ _ _ _ Htr) in HJ. clear Htr.
  apply (safe_bind_silent C neutral); [apply plain_eval_batches, early_stopping_plain |].
  intros ? [correct total] Htr.
  apply (saves_so_far_neutral _ _ _ _ Htr) in HJ. clear Htr.
  apply (safe_bind_silent C neutral); [apply silent_no_call; auto with no_call |]. intros ? acc Htr.
  apply (saves_so_far_neutral _ _ _ _ Htr) in HJ. clear Htr.
  apply (safe_bind_silent C neutral); [by apply quiet_call |]. intros ? [] Htr.
  apply (saves_so_far_neutral _ _ _ _ Htr) in HJ. clear Htr.
  match goal with |- safe _ _ ?h _ => set (hist1 := h) in * end.
  destruct (PrimFloat.ltb (best_val_accuracy s) acc).
  - apply safe_bind. apply (safe_bind_silent C neutral); [by apply quiet_call |]. intros ? [] Htr.
    apply (saves_so_far_neutral _ _ _ _ Htr) in HJ. clear Htr.
    apply safe_bind_call; [done |]. intros []. cbn [safe best_epoch].
    replace (e - e) with 0 by lia. cbn [Nat.ltb Nat.leb patience safe].
    unfold epoch_starts. cbn [best_epoch].
    split; [simpl; lia |]. split; [lia |]. split; [intros k Hk Hke; lia |].
    intros _ k Hk. rewrite saved_since_snoc. cbn [starts_epoch is_save]. apply orb_true_r.
  - cbn [bind best_epoch]. destruct (Nat.ltb_spec patience (e - best_epoch s)) as [Hlt | Hge].
    + apply safe_bind_call; [| done]. cbn. unfold patience in Hlt.
      exists (e + 1). split; [done |]. split; [lia |].
      replace (e + 1 - 2) with ((e - 2) + 1) by lia. apply (proj1 HJ); lia.
    + cbn [safe]. unfold epoch_starts. cbn [best_epoch]. unfold patience in Hge.
      split; [simpl; lia |]. split; [lia |]. done.
Qed.

Lemma fold_body_stops v dev f loss hist :
  safe C (fun _ _ => True) hist (fold_body v dev f loss).
Proof.
  destruct f as [fold [tr te]]. unfold fold_body.
  do 5 (apply (safe_bind_silent C neutral); [by apply quiet_call |]; intros ? ? _).
  apply safe_bind.
  apply (safe_for_break_seq C epoch_starts (fun _ _ => True)).
  - intros e hist' s He Hs. eapply safe_mono; [done | | apply epoch_body_stops; [lia | done]].
    by intros hist'' [s' | s'].
  - done.
  - unfold epoch_starts, saves_so_far. cbn [best_epoch]. split; [simpl; lia |].
    split; [lia |]. split; [intros k Hk Hk0; lia | intros H; lia].
Qed.

Lemma early_stopping_kept : safe C (fun _ _ => True) [] notebook.
Proof.
  unfold notebook.
  apply (safe_bind_silent C neutral); [by repeat split |]. intros ? [] _.
  apply (safe_bind_silent C neutral).
  { unfold cell_5. apply silent_bind; [by apply quiet_call |]. by intros d. }
  intros ? v _.
  apply (safe_bind_silent C neutral).
  { unfold cell_7. apply silent_bind; [by apply quiet_call |]. by intros d. }
  intros ? dev _.
  apply safe_bind. unfold cell_10.
  apply (safe_bind_silent C neutral); [by apply quiet_call |]. intros ? folds _.
  apply safe_bind.
  eapply safe_mono; [done | | apply (safe_for_in C (fun _ _ => True))]; [| | done].
  - intros hist _ _. cbn [safe bind].
    apply (safe_silent C neutral); [apply plain_cell_12, early_stopping_plain | done].
  - intros f hist loss _ _. apply fold_body_stops.
Qed.
End EarlyStopping.

(** X5. Early stopping in cell 10, as the calls of a run show it, whatever
    the libraries answer.  The epochs printed are numbered from 1 to 10.
    [Early stopping at epoch E] is printed only for [E >= 4], and only if no
    checkpoint has been saved since epoch [E - 2] of the fold started (three
    epochs in a row without a better validation accuracy).  An epoch
    [E >= 5] of a fold starts only if a checkpoint has been saved since
    epoch [E - 3] of the fold started. *)
Theorem early_stopping_after_three_epochs (W : Type) (h : env Image.ev W) (w : W) :
  each_call (@early_stopping_contract) [] (trace (run h Image.notebook w)).
Proof. exact (proj1 (safe_run _ (fun _ _ => True) h _ [] w early_stopping_kept)). Qed.

(** ** When a checkpoint is saved *)

Section Checkpoints.
Import Image.

Local Abbreviation C := (@checkpoint_contract).

Lemma checkpoint_plain X (c : ev X) :
  plain c -> (forall hist, C hist X c) /\ forall x, unlogged (Called c (inr x)).
Proof. by destruct c. Qed.

Lemma fold_log_snoc hist t :
  fold_log (hist ++ [t])
  = match fold_started t with
    | Some k => (Some k, [])
    | None => match validation_accuracy t with
              | Some a => ((fold_log hist).1, (fold_log hist).2 ++ [a])
              | None => fold_log hist
              end
    end.
Proof. unfold fold_log. by rewrite fold_left_app. Qed.

Lemma fold_log_unlogged hist tr : Forall unlogged tr -> fold_log (hist ++ tr) = fold_log hist.
Proof.
  induction tr as [| t tr IH] using rev_ind; intros Htr; [by rewrite app_nil_r |].
  apply Forall_app in Htr as [Htr Ht]. inversion Ht as [| ? ? [Hf Hv] _]; subst.
  rewrite app_assoc, fold_log_snoc, Hf, Hv. by apply IH.
Qed.

Lemma best_so_far_unlogged fold best hist tr :
  Forall unlogged tr -> best_so_far fold best hist -> best_so_far fold best (hist ++ tr).
Proof. intros Htr. unfold best_so_far. by rewrite fold_log_unlogged. Qed.

Tactic Notation "seg" hyp(H) simple_intropattern(x) :=
  apply (safe_bind_silent C unlogged);
  [ first [ apply silent_plain; [apply checkpoint_plain | exact I]
          | apply plain_train_batches, checkpoint_plain
          | apply plain_eval_batches, checkpoint_plain
          | apply silent_no_call; solve [auto with no_call]
          | by split ]
  | let Htr := fresh "Htr" in
    intros ? x Htr; try apply (best_so_far_unlogged _ _ _ _ Htr) in H; clear Htr ].

Lemma epoch_body_saves fold tl vl e s hist :
  best_so_far fold (best_val_accuracy s) hist ->
  safe C (fun hist' c => match c with
                         | Continue s' | Break s' => best_so_far fold (best_val_accuracy s') hist'
                         end) hist (epoch_body fold tl vl e s).
Proof.
  intros HB. unfold epoch_body.
  seg HB []. seg HB batches. seg HB [[m o] l].
  apply (safe_bind_silent C unlogged); [by destruct l |]. intros ? loss_value Htr.
  apply (best_so_far_unlogged _ _ _ _ Htr) in HB. clear Htr.
  seg HB []. seg HB val_batches. seg HB [correct total]. seg HB acc.
  apply safe_bind_call; [done |]. intros [].
  match goal with |- safe _ _ (?h ++ _) _ => set (hist1 := h) in * end.
  destruct HB as (Hfold & Hnan & H0 & Hall).
  destruct (PrimFloat.ltb (best_val_accuracy s) acc) eqn:Hlt.
  - destruct (ltb_numbers _ _ Hlt) as [_ Hacc].
    assert (PrimFloat.ltb 0 acc = true) as Hpos
      by (by apply (not_below_ltb _ (best_val_accuracy s))).
    assert (forall a, a ∈ (fold_log hist1).2 -> PrimFloat.is_nan a = false ->
                      PrimFloat.ltb a acc = true) as Hbetter.
    { intros a Ha Hna.
      apply (not_below_ltb _ (best_val_accuracy s)); [done | by apply Hall | done]. }
    apply safe_bind. apply safe_bind_call; [done |]. intros [].
    apply safe_bind_call.
    { cbn [checkpoint_contract]. exists fold, (fold_log hist1).2, acc.
      rewrite !fold_log_snoc. cbn [fold_started validation_accuracy fst snd].
      rewrite Hfold. done. }
    intros []. cbn [safe bind].
    assert (best_so_far fold acc
              (((hist1 ++ [Called (print [Txt "Validation accuracy: "; Flt acc ".2f"; Txt "%"])
                            (inr tt)])
                ++ [Called (print [Txt "Saving model..."]) (inr tt)])
               ++ [Called (torch_save (state_dict (set_training false m)) (checkpoint_path fold))
                     (inr tt)])) as HB'.
    { unfold best_so_far. rewrite !fold_log_snoc. cbn [fold_started validation_accuracy fst snd].
      split; [done |]. split; [done |]. split; [by apply ltb_asym |].
      intros a [Ha | ->%list_elem_of_singleton]%elem_of_app Hna.
      - apply ltb_asym; [done | done | by apply Hbetter].
      - destruct (PrimFloat.ltb acc acc) eqn:Haa; [| done]. by rewrite (ltb_asym acc acc) in Haa. }
    cbn [best_epoch]. replace (e - e) with 0 by lia. cbn [Nat.ltb Nat.leb patience safe].
    exact HB'.
  - cbn [safe bind best_epoch best_val_accuracy].
    assert (best_so_far fold (best_val_accuracy s)
              (hist1 ++ [Called (print [Txt "Validation accuracy: "; Flt acc ".2f"; Txt "%"])
                           (inr tt)])) as HB'.
    { unfold best_so_far. rewrite !fold_log_snoc. cbn [fold_started validation_accuracy fst snd].
      split; [done |]. split; [done |]. split; [done |].
      intros a [Ha | ->%list_elem_of_singleton]%elem_of_app Hna; [by apply Hall | done]. }
    destruct (Nat.ltb patience (e - best_epoch s)); [| done].
    apply safe_bind_call; [done |]. intros []. cbn [safe].
    apply (best_so_far_unlogged _ _ _ [_]); [| done]. by repeat constructor.
Qed.

Lemma fold_body_saves v dev f loss hist :
  safe C (fun _ _ => True) hist (fold_body v dev f loss).
Proof.
  destruct f as [fold [tr te]]. unfold fold_body.
  apply safe_bind_call; [done |]. intros [].
  assert (best_so_far fold 0
            (hist ++ [Called (print [Txt "Fold "; Int (Z.of_nat (fold + 1)); Txt "/";
                                     Int (Z.of_nat num_folds)]) (inr tt)])) as HB.
  { unfold best_so_far. rewrite fold_log_snoc. cbn [fold_started fst snd].
    rewrite Nat2Z.id. replace (fold + 1 - 1) with fold by lia.
    split; [done |]. split; [done |]. split; [done |]. by intros a ?%elem_of_nil. }
  seg HB []. seg HB []. seg HB []. seg HB m.
  apply safe_bind.
  eapply safe_mono; [done | |
    apply (safe_for_break C (fun hist' s => best_so_far fold (best_val_accuracy s) hist'))];
    [done | | done].
  intros e hist' s _ Hs. by apply epoch_body_saves.
Qed.

Lemma checkpoints_kept : safe C (fun _ _ => True) [] notebook.
Proof.
  unfold notebook.
  apply (safe_bind_silent C unlogged); [by repeat split |]. intros ? [] _.
  apply (safe_bind_silent C unlogged).
  { unfold cell_5. apply silent_bind; [| by intros d].
    apply silent_plain; [apply checkpoint_plain | exact I]. }
  intros ? v _.
  apply (safe_bind_silent C unlogged).
  { unfold cell_7. apply silent_bind; [| by intros d].
    apply silent_plain; [apply checkpoint_plain | exact I]. }
  intros ? dev _.
  apply safe_bind. unfold cell_10.
  apply (safe_bind_silent C unlogged); [apply silent_plain; [apply checkpoint_plain | exact I] |].
  intros ? folds _.
  apply safe_bind.
  eapply safe_mono; [done | | apply (safe_for_in C (fun _ _ => True))]; [| | done].
  - intros hist _ _. cbn [safe bind].
    apply (safe_silent C unlogged); [apply plain_cell_12, checkpoint_plain | done].
  - intros f hist loss _ _. apply fold_body_saves.
Qed.

End Checkpoints.

(** X6. Whatever the libraries answer, a checkpoint is written only to the
    file of the fold being trained ([model_prefix_fold_{fold + 1}.pt]), and
    only right after an epoch whose validation accuracy is above 0 and above
    the validation accuracy of every earlier epoch of that fold (of every
    one that is a number). *)
Theorem checkpoint_saved_on_strict_improvement (W : Type) (h : env Image.ev W) (w : W) :
  each_call (@checkpoint_contract) [] (trace (run h Image.notebook w)).
Proof. exact (proj1 (safe_run _ (fun _ _ => True) h _ [] w checkpoints_kept)). Qed.




(* ===================================================================== *)
(** * The tabular notebook run twice, on two values of [letter_grade]     *)
(* ===================================================================== *)

Import pd Tabular TabularLibrary.

(** ** Programs in step *)

Section Lockstep.
Context (L1 L2 : Library) (name : string).

Lemma lockstep_raise_r {R} (post : R -> R -> Prop) (p1 : prog ev R) e :
  lockstep L1 L2 name post p1 (Raise e).
Proof. by destruct p1. Qed.

Lemma lockstep_bind {A B} (mid : A -> A -> Prop) (post : B -> B -> Prop)
    (p1 p2 : prog ev A) (f1 f2 : A -> prog ev B) :
  lockstep L1 L2 name mid p1 p2 ->
  (forall a1 a2, mid a1 a2 -> lockstep L1 L2 name post (f1 a1) (f2 a2)) ->
  lockstep L1 L2 name post (bind p1 f1) (bind p2 f2).
Proof.
  intros Hp Hf. revert p2 Hp.
  induction p1 as [a1 | e1 | X1 c1 k1 IH | cmd1 k1 IH]; intros p2 Hp.
  - destruct p2 as [a2 | e2 | X2 c2 k2 | cmd2 k2]; simpl in *; try done.
    + by apply Hf.
    + apply lockstep_raise_r.
  - done.
  - destruct p2 as [a2 | e2 | X2 c2 k2 | cmd2 k2]; simpl in *; try done.
    intros x1 x2 H1 H2. destruct (Hp x1 x2 H1 H2) as [Hrel Hk]. split; [done |].
    by apply IH.
  - destruct p2 as [a2 | e2 | X2 c2 k2 | cmd2 k2]; simpl in *; try done.
    by apply IH.
Qed.

Lemma lockstep_no_call {A} (post : A -> A -> Prop) (p1 p2 : prog ev A) :
  no_call p1 -> no_call p2 ->
  (forall a1 a2, p1 = Ret a1 -> p2 = Ret a2 -> post a1 a2) ->
  lockstep L1 L2 name post p1 p2.
Proof. destruct p1, p2; simpl; try done. eauto. Qed.

Lemma lockstep_bind_no_call {A B} (post : B -> B -> Prop)
    (p1 p2 : prog ev A) (f1 f2 : A -> prog ev B) :
  no_call p1 -> no_call p2 ->
  (forall a1 a2, p1 = Ret a1 -> p2 = Ret a2 -> lockstep L1 L2 name post (f1 a1) (f2 a2)) ->
  lockstep L1 L2 name post (bind p1 f1) (bind p2 f2).
Proof.
  intros H1 H2 Hf. apply (lockstep_bind (fun a1 a2 => p1 = Ret a1 /\ p2 = Ret a2)).
  - by apply lockstep_no_call.
  - intros a1 a2 [? ?]. by apply Hf.
Qed.

Lemma lockstep_bind_call {X1 X2 B} (post : B -> B -> Prop)
    (c1 : ev X1) (c2 : ev X2) (f1 : X1 -> prog ev B) (f2 : X2 -> prog ev B) :
  (forall x1 x2, response L1 c1 = inr x1 -> response L2 c2 = inr x2 ->
     related name (Called c1 (inr x1)) (Called c2 (inr x2)) /\
     lockstep L1 L2 name post (f1 x1) (f2 x2)) ->
  lockstep L1 L2 name post (bind (call c1) f1) (bind (call c2) f2).
Proof. done. Qed.

Lemma answer_response (L : Library) {X} (c : ev X) w : (answer L c w).1 = response L c.
Proof.
  unfold response. destruct c; simpl; try done.
  by destruct (split_rows L (nrows df) random_state) as [e | [tr te]].
Qed.

Lemma answer_shown {X1 X2} (c1 : ev X1) (c2 : ev X2) r1 r2 w1 w2 :
  related name (Called c1 r1) (Called c2 r2) ->
  Forall2 (same_output name) w1 w2 ->
  Forall2 (same_output name) (answer L1 c1 w1).2 (answer L2 c2 w2).2.
Proof.
  intros [_ Hrel] Hw.
  destruct c1; destruct c2; simpl in *; try done;
    repeat match goal with
           | |- context [split_rows ?L ?n ?s] => destruct (split_rows L n s) as [? | [? ?]]
           end; simpl; try done;
    (apply Forall2_app; [done |]; by constructor).
Qed.

Lemma lockstep_run {R} (post : R -> R -> Prop) (p1 p2 : prog ev R) w1 w2 r1 r2 :
  lockstep L1 L2 name post p1 p2 ->
  Forall2 (same_output name) w1 w2 ->
  result (run (environment L1) p1 w1) = inr r1 ->
  result (run (environment L2) p2 w2) = inr r2 ->
  post r1 r2 /\
  Forall2 (related name) (trace (run (environment L1) p1 w1))
                         (trace (run (environment L2) p2 w2)) /\
  Forall2 (same_output name) (world (run (environment L1) p1 w1))
                             (world (run (environment L2) p2 w2)).
Proof.
  revert p2 w1 w2.
  induction p1 as [a1 | e1 | X1 c1 k1 IH | cmd1 k1 IH]; intros p2 w1 w2 Hp Hw.
  - destruct p2 as [a2 | e2 | X2 c2 k2 | cmd2 k2]; simpl in *; try done.
    intros [= <-] [= <-]. split; [done |]. split; [constructor | done].
  - done.
  - destruct p2 as [a2 | e2 | X2 c2 k2 | cmd2 k2]; simpl in *; try done.
    pose proof (answer_response L1 c1 w1) as Ha1.
    pose proof (answer_response L2 c2 w2) as Ha2.
    pose proof (fun r1 r2 H => answer_shown c1 c2 r1 r2 w1 w2 H Hw) as Hsh.
    destruct (answer L1 c1 w1) as [[e1 | x1] w1'] eqn:Hl1; simpl in *; [done |].
    destruct (answer L2 c2 w2) as [[e2 | x2] w2'] eqn:Hl2; simpl in *; [done |].
    intros Hr1 Hr2. destruct (Hp x1 x2) as [Hrel Hk]; [done | done |].
    destruct (IH x1 (k2 x2) w1' w2' Hk (Hsh _ _ Hrel) Hr1 Hr2) as (Hpost & Htr & Hw').
    split; [done |]. split; [by constructor | done].
  - destruct p2 as [a2 | e2 | X2 c2 k2 | cmd2 k2]; simpl in *; try done.
    intros Hr1 Hr2. destruct (IH k2 w1 w2 Hp Hw Hr1 Hr2) as (Hpost & Htr & Hw').
    split; [done |]. split; [| done]. constructor; [| done]. split; [done | done].
Qed.

Lemma related_model_calls tr1 tr2 :
  Forall2 (related name) tr1 tr2 -> model_calls tr1 = model_calls tr2.
Proof.
  induction 1 as [| t1 t2 tr1 tr2 [Heq _] _ IH]; [done |].
  unfold model_calls in *. simpl.
  destruct (is_model_call t1) eqn:H1.
  - rewrite <- (Heq eq_refl), H1. by f_equal.
  - destruct (is_model_call t2) eqn:H2; [| done].
    rewrite (Heq eq_refl) in H1. congruence.
Qed.

End Lockstep.

(** ** Tables that differ in one column *)

Section SameExcept.
Context (c : string).

Lemma same_nrows df1 df2 : same_except c df1 df2 -> nrows df1 = nrows df2.
Proof. intros [Hi _]. unfold nrows. by rewrite Hi. Qed.

Lemma same_column_names df1 df2 :
  same_except c df1 df2 -> column_names df1 = column_names df2.
Proof.
  intros [_ Hc]. unfold column_names. induction Hc as [| [n1 s1] [n2 s2] l1 l2 (Hn & _) _ IH].
  - done.
  - rewrite !fmap_cons. simpl in Hn. simpl. by rewrite Hn, IH.
Qed.

Lemma same_lookup df1 df2 n :
  same_except c df1 df2 -> n <> c ->
  lookup_column n (columns df1) = lookup_column n (columns df2).
Proof.
  intros [_ Hc] Hn. induction Hc as [| [n1 s1] [n2 s2] l1 l2 (Hn' & Hl & Hs) _ IH].
  - done.
  - simpl in *. subst n2. destruct (String.eqb_spec n1 n) as [-> | Hne]; [| done].
    by rewrite Hs.
Qed.

Lemma same_getitem {E} df1 df2 n :
  same_except c df1 df2 -> n <> c -> @getitem E df1 n = @getitem E df2 n.
Proof. intros H Hn. unfold getitem. by rewrite (same_lookup df1 df2 n H Hn). Qed.

Lemma same_assign cols1 cols2 n s1 s2 :
  Forall2 (same_column_except c) cols1 cols2 ->
  length (values s1) = length (values s2) -> (n <> c -> s1 = s2) ->
  Forall2 (same_column_except c) (assign_column n s1 cols1) (assign_column n s2 cols2).
Proof.
  intros Hc Hl Hs. induction Hc as [| [n1 t1] [n2 t2] l1 l2 (Hn' & Hl' & Hs') Htl IH].
  - simpl. constructor; [| done]. by repeat split.
  - simpl in *. subst n2. destruct (String.eqb n1 n) eqn:Heq.
    + constructor; [| done]. apply String.eqb_eq in Heq as ->. by repeat split.
    + constructor; [| done]. by repeat split.
Qed.

Lemma same_setitem {E} df1 df2 n s1 s2 r1 r2 :
  same_except c df1 df2 -> (n <> c -> s1 = s2) ->
  @setitem E df1 n s1 = Ret r1 -> @setitem E df2 n s2 = Ret r2 ->
  same_except c r1 r2.
Proof.
  intros H Hs. unfold setitem. pose proof (same_nrows _ _ H) as Hn.
  destruct (Nat.eqb_spec (length (values s1)) (nrows df1)) as [H1 |]; [| done].
  destruct (Nat.eqb_spec (length (values s2)) (nrows df2)) as [H2 |]; [| done].
  intros [= <-] [= <-]. destruct H as [Hi Hc]. split; [done |]. simpl.
  apply same_assign; [done | lia | done].
Qed.

Lemma same_filter_columns (P : string -> bool) cols1 cols2 :
  Forall2 (same_column_except c) cols1 cols2 ->
  Forall2 (same_column_except c) (List.filter (fun x => P x.1) cols1)
                                 (List.filter (fun x => P x.1) cols2).
Proof.
  intros Hc. induction Hc as [| [n1 t1] [n2 t2] l1 l2 (Hn' & Hl' & Hs') _ IH]; [done |].
  simpl in *. subst n2. destruct (P n1); [constructor |]; try done.
Qed.

Lemma same_filter_columns_eq (P : string -> bool) cols1 cols2 :
  Forall2 (same_column_except c) cols1 cols2 -> P c = false ->
  List.filter (fun x => P x.1) cols1 = List.filter (fun x => P x.1) cols2.
Proof.
  intros Hc HP. induction Hc as [| [n1 t1] [n2 t2] l1 l2 (Hn' & Hl' & Hs') _ IH]; [done |].
  simpl in *. subst n2. destruct (P n1) eqn:HP1; [| done].
  rewrite IH. f_equal. f_equal. apply Hs'. intros ->. congruence.
Qed.

Lemma same_drop_columns_eq {E} df1 df2 names :
  same_except c df1 df2 -> string_in c names = true ->
  @drop_columns E df1 names = @drop_columns E df2 names.
Proof.
  intros H Hin. unfold drop_columns. rewrite (same_column_names _ _ H).
  destruct (List.find _ names); [done |]. destruct H as [Hi Hc]. rewrite Hi. f_equal. f_equal.
  apply (same_filter_columns_eq (fun n => negb (string_in n names))); [done |].
  by rewrite Hin.
Qed.

Lemma take_length {A B} (l1 : list A) (l2 : list B) ps :
  length l1 = length l2 -> length (take l1 ps) = length (take l2 ps).
Proof.
  intros Hl. unfold take. induction ps as [| p ps IH]; [done |]. simpl.
  destruct (l1 !! p) eqn:H1, (l2 !! p) eqn:H2; simpl; try done; try lia.
  all: first [ f_equal; exact IH
             | apply lookup_lt_Some in H1; apply lookup_ge_None in H2; lia
             | apply lookup_lt_Some in H2; apply lookup_ge_None in H1; lia ].
Qed.

Lemma same_take_rows df1 df2 ps :
  same_except c df1 df2 -> same_except c (take_rows df1 ps) (take_rows df2 ps).
Proof.
  intros [Hi Hc]. split; simpl; [by rewrite Hi |].
  induction Hc as [| [n1 t1] [n2 t2] l1 l2 (Hn' & Hl' & Hs') _ IH]; [done |].
  simpl in *. constructor; [| done]. split; [done |]. split.
  - simpl. by apply take_length.
  - simpl. intros Hn. by rewrite (Hs' Hn).
Qed.

Lemma same_reset_index df1 df2 :
  same_except c df1 df2 -> same_except c (reset_index df1) (reset_index df2).
Proof. intros H. split; simpl; [by rewrite (same_nrows _ _ H) | apply H]. Qed.

Lemma same_where df1 df2 mask :
  same_except c df1 df2 -> same_except c (where_ df1 mask) (where_ df2 mask).
Proof. apply same_take_rows. Qed.

Lemma same_without_labels df1 df2 labels :
  same_except c df1 df2 ->
  same_except c (without_labels df1 labels) (without_labels df2 labels).
Proof. intros H. unfold without_labels. destruct H as [Hi Hc]. rewrite Hi. by apply same_where. Qed.

Lemma same_head df1 df2 : same_except c df1 df2 -> same_except c (head df1) (head df2).
Proof. intros H. unfold head. rewrite (same_nrows _ _ H). by apply same_take_rows. Qed.

Lemma same_iloc {E} df1 df2 ps r1 r2 :
  same_except c df1 df2 -> @iloc E df1 ps = Ret r1 -> @iloc E df2 ps = Ret r2 ->
  same_except c r1 r2.
Proof.
  intros H. unfold iloc. rewrite (same_nrows _ _ H). destruct (forallb _ _); [| done].
  intros [= <-] [= <-]. by apply same_take_rows.
Qed.

Lemma same_drop {E} df1 df2 ls r1 r2 :
  same_except c df1 df2 -> @drop E df1 ls = Ret r1 -> @drop E df2 ls = Ret r2 ->
  same_except c r1 r2.
Proof.
  intros H. unfold drop. destruct H as [Hi Hc]. rewrite Hi. destruct (forallb _ _); [| done].
  intros [= <-] [= <-]. by apply same_without_labels.
Qed.

Lemma same_sort_values {E} df1 df2 n order r1 r2 :
  same_except c df1 df2 -> n <> c ->
  @sort_values_by_position E df1 n order = Ret r1 ->
  @sort_values_by_position E df2 n order = Ret r2 ->
  same_except c r1 r2.
Proof.
  intros H Hn. unfold sort_values_by_position. rewrite (same_getitem df1 df2 n H Hn).
  unfold getitem. destruct (lookup_column n (columns df2)); [| done]. simpl.
  destruct (mapM _ _); [| done]. intros [= <-] [= <-]. by apply same_take_rows.
Qed.

Lemma same_select_columns_eq {E} df1 df2 names :
  same_except c df1 df2 -> string_in c names = false ->
  @select_columns E df1 names = @select_columns E df2 names.
Proof.
  intros H Hin. unfold select_columns. rewrite (same_column_names _ _ H).
  destruct (List.find _ names); [done |]. destruct H as [Hi Hc]. rewrite Hi.
  f_equal. f_equal. by apply (same_filter_columns_eq (fun n => string_in n names)).
Qed.

Lemma same_except_refl df : same_except c df df.
Proof.
  split; [done |]. apply Forall2_same_length_lookup_2; [done |].
  intros i x y Hx Hy. by simplify_eq.
Qed.

Lemma same_without_column df1 df2 :
  same_except c df1 df2 -> without_column c df1 = without_column c df2.
Proof.
  intros [Hi Hc]. unfold without_column. rewrite Hi. f_equal.
  apply (same_filter_columns_eq (fun n => negb (String.eqb n c))); [done |].
  by rewrite String.eqb_refl.
Qed.

End SameExcept.

(** ** The cells, side by side *)

Section TwoRuns.
Context (L : Library) (df1 df2 : DataFrame).
Context (Hdf : same_except "letter_grade" df1 df2).
Let L1 := with_grades L df1.
Let L2 := with_grades L df2.
Local Abbreviation c := "letter_grade".

Ltac lock_step :=
  lazymatch goal with
  | |- lockstep _ _ _ _ (bind (call _) _) (bind (call _) _) =>
      apply lockstep_bind_call; intros ? ? ? ?; split
  | |- lockstep _ _ _ _ (bind (bang _) _) (bind (bang _) _) => cbn [lockstep bind bang]
  | |- lockstep _ _ _ _ (bind _ _) (bind _ _) =>
      apply lockstep_bind_no_call;
      [solve [auto with no_call] | solve [auto with no_call] | intros ? ? ? ?]
  end.

(** The same call gets the same answer from both libraries. *)
Ltac same_answer :=
  match goal with
  | H1 : response L1 ?c1 = inr ?x1, H2 : response L2 ?c2 = inr ?x2 |- _ =>
      let H := fresh in
      assert (x1 = x2) as H by (unfold response in H1, H2; simpl in H1, H2; congruence);
      subst x2; clear H2
  end.

Ltac same_call := split; [ first [ by intros _ | by simpl ] | by simpl ].

Ltac same_value :=
  match goal with
  | H1 : ?p = Ret ?a1, H2 : ?p = Ret ?a2 |- _ =>
      let H := fresh in assert (a1 = a2) as H by congruence; subst a2; clear H2
  end.

Lemma read_grades df : response (with_grades L df) (read_csv grades_url) = inr df.
Proof. reflexivity. Qed.

Lemma encode_other df df' n :
  same_except c df df' -> n <> c ->
  lockstep L1 L2 c (same_except c) (encode_column df n) (encode_column df' n).
Proof.
  intros H Hn. unfold encode_column. rewrite (same_getitem c df df' n H Hn).
  lock_step. same_value. lock_step.
  - same_call.
  - same_answer. apply lockstep_no_call; auto with no_call.
    intros r1 r2 Hr1 Hr2. eapply same_setitem; eauto.
Qed.

Lemma encode_any df df' n :
  same_except c df df' ->
  lockstep L1 L2 c (same_except c) (encode_column df n) (encode_column df' n).
Proof.
  intros H. destruct (decide (n = c)) as [-> | Hn]; [| by apply encode_other].
  unfold encode_column. lock_step. lock_step.
  - same_call.
  - apply lockstep_no_call; auto with no_call.
    intros r1 r2 Hr1 Hr2.
    refine (same_setitem c df df' c _ _ r1 r2 H _ Hr1 Hr2). intros Hc; by destruct Hc.
Qed.

Tactic Notation "lock_call" simple_intropattern(x1) simple_intropattern(x2)
    simple_intropattern(H1) simple_intropattern(H2) :=
  apply lockstep_bind_call; intros x1 x2 H1 H2; split.
Tactic Notation "lock_pure" simple_intropattern(x1) simple_intropattern(x2)
    simple_intropattern(H1) simple_intropattern(H2) :=
  apply lockstep_bind_no_call;
  [solve [auto with no_call] | solve [auto with no_call] | intros x1 x2 H1 H2].

Lemma cell_4_lockstep :
  lockstep L1 L2 c (related_cell4 c) cell_4 cell_4.
Proof.
  unfold cell_4. lock_step. lock_call x1 x2 Hx1 Hx2; [same_call |].
  assert (same_except c x1 x2) as Hx.
  { assert (x1 = df1) as ->.
    { pose proof (read_grades df1) as E. fold L1 in E. unfold grades_url in E. congruence. }
    assert (x2 = df2) as ->.
    { pose proof (read_grades df2) as E. fold L2 in E. unfold grades_url in E. congruence. }
    done. }
  eapply lockstep_bind; [by apply encode_any |]. intros d1 d2 Hd.
  eapply lockstep_bind; [by apply encode_other |]. intros d1' d2' Hd'.
  eapply lockstep_bind; [by apply encode_other |]. intros d1'' d2'' Hd''.
  rewrite (same_getitem c d1'' d2'' "notes" Hd'') by done.
  lock_pure notes ? Hn ?. same_value. lock_pure e1 e2 He1 He2.
  assert (same_except c e1 e2) as Ha by (eapply same_setitem; eauto).
  lock_call s1 s2 Hs1 Hs2; [same_call |].
  assert (same_except c s1.1 s2.1 /\ same_except c s1.2 s2.2) as [Ht Hs].
  { unfold response in *. simpl in *. rewrite (same_nrows c _ _ Ha) in *.
    destruct (split_rows L (nrows e2) 0) as [e | [tr te]]; [done |].
    simpl in *. simplify_eq. simpl. split; by apply same_take_rows. }
  rewrite (same_drop_columns_eq c (reset_index s1.2) (reset_index s2.2));
    [| by apply same_reset_index | done].
  lock_pure t1 ? Ht1 ?. same_value. lock_pure l1 l2 Hl1 Hl2.
  cbn [lockstep]. unfold related_cell4. cbn [df_c df_train df_test test_data].
  split_and!; [exact Hx | by apply same_reset_index | by apply same_reset_index | done].
Qed.

Lemma cell_6_lockstep v v' :
  related_cell4 c v v' -> lockstep L1 L2 c related_cell6 (cell_6 v) (cell_6 v').
Proof.
  intros (Hc & Htr & Hte & Htd). unfold cell_6.
  rewrite (same_drop_columns_eq c (df_train v) (df_train v')) by done.
  rewrite (same_getitem c (df_train v) (df_train v') "noisy_letter_grade") by done.
  rewrite Htd.
  lock_pure d ? Hd ?. same_value. lock_pure l ? Hl ?. same_value.
  lock_call m1 m2 Hm1 Hm2; [same_answer; same_call | same_answer].
  lock_call p1 p2 Hp1 Hp2; [same_answer; same_call | same_answer].
  lock_call a1 a2 Ha1 Ha2; [same_call |].
  lock_call u1 u2 Hu1 Hu2; [same_call |].
  cbn [lockstep]. by split.
Qed.

Lemma cell_9_lockstep v4 v4' v6 v6' :
  related_cell4 c v4 v4' -> related_cell6 v6 v6' ->
  lockstep L1 L2 c eq (cell_9 v4 v6) (cell_9 v4' v6').
Proof.
  intros (Hc & Htr & Hte & Htd) [Hd Hl]. unfold cell_9. rewrite Hd, Hl.
  lock_call p1 p2 Hp1 Hp2; [same_answer; same_call | same_answer].
  lock_call i1 i2 Hi1 Hi2; [same_answer; same_call | same_answer].
  lock_pure r1 r2 Hr1 Hr2.
  pose proof (same_iloc c _ _ _ _ _ Htr Hr1 Hr2) as Hr.
  rewrite (same_getitem c r1 r2 "stud_ID" Hr) by done.
  lock_pure s ? Hs ?. same_value.
  rewrite (same_getitem c (df_c v4) (df_c v4') "stud_ID" Hc) by done.
  lock_pure ids ? Hids ?. same_value.
  lock_pure o1 o2 Ho1 Ho2.
  assert (same_except c o1 o2) as Ho.
  { eapply (same_sort_values c); [| | exact Ho1 | exact Ho2]; [by apply same_where | done]. }
  lock_call u1 u2 Hu1 Hu2.
  - split; [by simpl |]. simpl. apply same_without_column. by apply same_head.
  - reflexivity.
Qed.

Lemma cell_12_lockstep v4 v4' issue_idx :
  related_cell4 c v4 v4' ->
  lockstep L1 L2 c (fun _ _ => True) (cell_12 v4 issue_idx) (cell_12 v4' issue_idx).
Proof.
  intros (Hc & Htr & Hte & Htd). unfold cell_12.
  lock_pure g1 g2 Hg1 Hg2.
  rewrite (same_getitem c (df_train v4) (df_train v4') "noisy_letter_grade") by done.
  lock_pure n ? Hn ?. same_value.
  lock_pure a1 a2 Ha1 Ha2.
  unfold call. cbn [lockstep]. intros u1 u2 _ _. split; [same_call | done].
Qed.

Lemma cell_14_lockstep v4 v4' v6 v6' issue_idx :
  related_cell4 c v4 v4' ->
  lockstep L1 L2 c (fun _ _ => True) (cell_14 v4 v6 issue_idx) (cell_14 v4' v6' issue_idx).
Proof.
  intros (Hc & Htr & Hte & Htd). unfold cell_14. rewrite Htd.
  lock_pure d1 d2 Hd1 Hd2.
  pose proof (same_drop c _ _ _ _ _ Htr Hd1 Hd2) as Hd.
  rewrite (same_getitem c d1 d2 "noisy_letter_grade" Hd) by done.
  lock_pure l ? Hl ?. same_value.
  rewrite (same_drop_columns_eq c d1 d2) by done.
  lock_pure t ? Ht ?. same_value.
  lock_call m1 m2 Hm1 Hm2; [same_answer; same_call | same_answer].
  lock_call p1 p2 Hp1 Hp2; [same_answer; same_call | same_answer].
  lock_call a1 a2 Ha1 Ha2; [same_call |].
  lock_call ? ? _ _; [same_call |].
  lock_call ? ? _ _; [same_call |].
  lock_call ? ? _ _; [same_call | done].
Qed.

Lemma cell_17_lockstep v4 v4' v6 v6' acc acc' :
  related_cell4 c v4 v4' ->
  lockstep L1 L2 c (fun _ _ => True) (cell_17 v4 v6 acc) (cell_17 v4' v6' acc').
Proof.
  intros (Hc & Htr & Hte & Htd). unfold cell_17. rewrite Htd.
  lock_call e1 e2 He1 He2; [same_call |]. same_answer.
  rewrite (same_getitem c (df_train v4) (df_train v4') "stud_ID") by done.
  lock_pure s ? Hs ?. same_value. lock_pure ids ? Hids ?. same_value.
  eapply lockstep_bind; [apply encode_other; [apply same_except_refl | done] |]. intros d1 d2 Hd.
  eapply lockstep_bind; [by apply encode_other |]. intros d1' d2' Hd'.
  rewrite (same_getitem c d1' d2' "notes" Hd') by done.
  lock_pure notes ? Hn ?. same_value. lock_pure g1 g2 Hg1 Hg2.
  assert (same_except c g1 g2) as Hg by (eapply same_setitem; eauto).
  rewrite (same_getitem c g1 g2 "cleanlab_suggested_label" Hg) by done.
  lock_pure l ? Hl ?. same_value.
  rewrite (same_select_columns_eq c g1 g2) by done.
  lock_pure t ? Ht ?. same_value.
  lock_call m1 m2 Hm1 Hm2; [same_answer; same_call | same_answer].
  lock_call p1 p2 Hp1 Hp2; [same_answer; same_call | same_answer].
  lock_call a1 a2 Ha1 Ha2; [same_call |].
  do 6 (lock_call ? ? _ _; [same_call |]).
  unfold call. cbn [lockstep]. intros u1 u2 _ _. split; [same_call | done].
Qed.

Lemma notebook_lockstep : lockstep L1 L2 c (fun _ _ => True) notebook notebook.
Proof.
  unfold notebook.
  eapply lockstep_bind; [apply cell_4_lockstep |]. intros v4 v4' H4.
  eapply lockstep_bind; [by apply cell_6_lockstep |]. intros v6 v6' H6.
  eapply lockstep_bind; [by apply cell_9_lockstep |]. intros i ? <-.
  eapply lockstep_bind; [by apply cell_12_lockstep |]. intros _ _ _.
  eapply lockstep_bind; [by apply cell_14_lockstep |]. intros acc acc' _.
  by apply cell_17_lockstep.
Qed.
End TwoRuns.


(** C9, counterexample.  Two runs on tables that differ only in the
    [letter_grade] of student b both complete, and the table of issues shown
    by cell 9 is not the same in both: [issues_df] is cut from the copy of
    the table made before encoding, with all its columns, so the row of
    student b shows the grade A in one run and C in the other. *)
Lemma issues_table_shows_letter_grade :
  same_except "letter_grade" (toy_grades ["B"; "A"; "F"; "C"])
                             (toy_grades ["B"; "C"; "F"; "C"]) /\
  result (run_with ["B"; "A"; "F"; "C"]) = inr tt /\
  result (run_with ["B"; "C"; "F"; "C"]) = inr tt /\
  displays (world (run_with ["B"; "A"; "F"; "C"]))
  <> displays (world (run_with ["B"; "C"; "F"; "C"])).
Proof.
  split; [| split; [| split]].
  - split; [done |].
    repeat (constructor;
            [split_and!; [done | done | first [done | intros H; by destruct H]] |]).
    constructor.
  - by vm_compute.
  - by vm_compute.
  - vm_compute. intros H. discriminate H.
Qed.

(** C9, as amended.  In the tabular notebook no table given to [fit],
    [predict] or [cross_val_predict] as features has a [letter_grade] column.
    For two complete runs with the same libraries on student tables that
    differ only in the values of [letter_grade], the calls that fit a model,
    predict, cross-validate or look for label issues are the same calls, with
    the same arguments (features and labels) and the same answers (models,
    predictions, predicted probabilities, [issue_idx]).  What the two runs
    show can differ only in the numbers printed (the accuracies, the
    reductions in error computed from them and the percentage of errors
    found) and in the [letter_grade] column of the table of issues. *)
Theorem letter_grade_never_reaches_the_models (L : Library) (df1 df2 : DataFrame) :
  same_except "letter_grade" df1 df2 ->
  result (run (environment (with_grades L df1)) notebook []) = inr tt ->
  result (run (environment (with_grades L df2)) notebook []) = inr tt ->
  (forall (W : Type) (h : env ev W) (w : W),
     each_call (fun _ => @features_contract) [] (trace (run h notebook w))) /\
  model_calls (trace (run (environment (with_grades L df1)) notebook []))
  = model_calls (trace (run (environment (with_grades L df2)) notebook [])) /\
  Forall2 (same_output "letter_grade")
    (world (run (environment (with_grades L df1)) notebook []))
    (world (run (environment (with_grades L df2)) notebook [])).
Proof.
  intros Hdf Hr1 Hr2. split.
  - intros W h w. eapply (safe_run _ (fun _ _ => True)).
    eapply safe_mono; [| | apply tabular_contract_kept]; [| done].
    by intros hist X c (_ & _ & H).
  - destruct (lockstep_run _ _ _ _ _ _ [] [] tt tt (notebook_lockstep L df1 df2 Hdf)
                (List.Forall2_nil _) Hr1 Hr2) as (_ & Htr & Hw).
    split; [by eapply related_model_calls | done].
Qed.

Lemma letter_grade_never_reaches_the_models_witness :
  same_except "letter_grade" (toy_grades ["B"; "A"; "F"; "C"])
                             (toy_grades ["B"; "C"; "F"; "C"]) /\
  result (run_with ["B"; "A"; "F"; "C"]) = inr tt /\
  result (run_with ["B"; "C"; "F"; "C"]) = inr tt /\
  model_calls (trace (run_with ["B"; "A"; "F"; "C"]))
  = model_calls (trace (run_with ["B"; "C"; "F"; "C"])) /\
  Forall2 (same_output "letter_grade") (world (run_with ["B"; "A"; "F"; "C"]))
                                       (world (run_with ["B"; "C"; "F"; "C"])).
Proof.
  assert (same_except "letter_grade" (toy_grades ["B"; "A"; "F"; "C"])
                                     (toy_grades ["B"; "C"; "F"; "C"])) as Hdf.
  { split; [reflexivity |].
    repeat (constructor;
            [split; [reflexivity | split; [reflexivity |
               first [intros _; reflexivity | intros H; destruct H; reflexivity]]] |]).
    constructor. }
  assert (result (run_with ["B"; "A"; "F"; "C"]) = inr tt) as Hr1 by (vm_compute; reflexivity).
  assert (result (run_with ["B"; "C"; "F"; "C"]) = inr tt) as Hr2 by (vm_compute; reflexivity).
  split; [exact Hdf |]. split; [exact Hr1 |]. split; [exact Hr2 |].
  exact (proj2 (letter_grade_never_reaches_the_models toy _ _ Hdf Hr1 Hr2)).
Defined.

(* ===================================================================== *)
(** * More on the tabular notebook                                        *)
(* ===================================================================== *)

(** ** Cell 9: the table of the flagged students *)

Section IssuesTable.
Import pd.

Lemma lookup_column_take_rows_eq name df ps :
  lookup_column name (columns (take_rows df ps))
  = take_series ps <$> lookup_column name (columns df).
Proof.
  unfold take_rows. simpl. induction (columns df) as [| [n s] cols IH]; simpl; [done |].
  by destruct (String.eqb n name).
Qed.

(** The values of a column after [df[column.isin(xs)]]. *)
Lemma isin_values (s : Series) (xs : list value) :
  pd.take (values s) (positions_where (isin s xs))
  = List.filter (fun v => bool_decide (v ∈ xs)) (values s).
Proof.
  unfold isin. rewrite take_positions_where by done.
  exact (zip_diag_filter (fun v => bool_decide (v ∈ xs)) (values s)).
Qed.

Lemma list_index_Some e xs k : list_index e xs = Some k -> xs !! k = Some e.
Proof.
  revert k. induction xs as [| x xs IH]; intros k; simpl; [done |].
  destruct (decide (x = e)) as [-> | Hne]; [by intros [= <-] |].
  destruct (list_index e xs) as [k' |]; simpl; [| done]. intros [= <-]. by apply IH.
Qed.

Lemma list_index_is_Some e xs : e ∈ xs -> is_Some (list_index e xs).
Proof.
  induction xs as [| x xs IH]; [by intros ?%elem_of_nil |]. simpl.
  destruct (decide (x = e)) as [-> | Hne]; [by eauto |].
  intros [-> | Hin]%elem_of_cons; [done |]. destruct (IH Hin) as [k ->]. by eauto.
Qed.

(** Insertion by key sorts and loses nothing. *)

Lemma insert_by_key_perm k l : insert_by_key k l ≡ₚ k :: l.
Proof.
  induction l as [| k' l IH]; simpl; [done |].
  destruct (Nat.ltb k.1 k'.1); [done |]. rewrite IH. apply Permutation_swap.
Qed.

Lemma insert_by_key_ascending k l : ascending l -> ascending (insert_by_key k l).
Proof.
  induction l as [| k' l IH]; simpl; [done |]. intros [Hall Hl].
  destruct (Nat.ltb_spec k.1 k'.1) as [Hlt | Hge]; simpl.
  - split; [| done]. constructor; [lia |].
    eapply Forall_impl; [exact Hall |]. simpl. intros y Hy. lia.
  - split; [| by apply IH]. rewrite insert_by_key_perm. by constructor.
Qed.

Lemma sort_pairs_perm l : fold_right insert_by_key [] l ≡ₚ l.
Proof. induction l as [| k l IH]; simpl; [done |]. by rewrite insert_by_key_perm, IH. Qed.

Lemma sort_pairs_ascending l : ascending (fold_right insert_by_key [] l).
Proof. induction l as [| k l IH]; simpl; [done |]. by apply insert_by_key_ascending. Qed.

Lemma ascending_lookup l i j a b :
  ascending l -> i < j -> l.*1 !! i = Some a -> l.*1 !! j = Some b -> a <= b.
Proof.
  revert i j. induction l as [| x l IH]; intros i j Hl Hij Hi Hj; [done |].
  destruct Hl as [Hall Hl]. destruct j as [| j]; [lia |]. simpl in Hj.
  destruct i as [| i]; simpl in Hi.
  - simplify_eq. apply list_lookup_fmap_Some in Hj as (y & -> & Hy).
    rewrite Forall_forall in Hall. apply Hall. by eapply list_elem_of_lookup_2.
  - apply (IH i j); [done | lia | done | done].
Qed.

Lemma take_seq_from {A} (pre l : list A) :
  omap (fun p => (pre ++ l) !! p) (seq (length pre) (length l)) = l.
Proof.
  revert pre. induction l as [| x l IH]; intros pre; [done |]. simpl.
  rewrite list_lookup_middle by done. f_equal.
  specialize (IH (pre ++ [x])). rewrite <- app_assoc, length_app in IH. simpl in IH.
  by rewrite Nat.add_1_r in IH.
Qed.

Lemma take_ranked (vals : list value) (order : list value) (keys : list nat)
    (qs : list (nat * nat)) :
  Forall2 (fun v k => list_index v order = Some k) vals keys ->
  Forall (fun q => keys !! q.2 = Some q.1) qs ->
  mapM (fun e => list_index e order) (pd.take vals qs.*2) = Some qs.*1.
Proof.
  intros Hvk. induction 1 as [| [k p] qs Hq Hqs IH]; [done |]. simpl in Hq.
  destruct (Forall2_lookup_r _ _ _ _ _ Hvk Hq) as (v & Hv & Hi).
  unfold pd.take in *. cbn [fmap list_fmap omap list_omap snd fst]. rewrite Hv.
  cbn [mapM]. rewrite Hi. cbn [mbind option_bind]. rewrite IH. done.
Qed.

Lemma sort_by_rank (vals order : list value) (keys : list nat) :
  mapM (fun e => list_index e order) vals = Some keys ->
  pd.take vals (argsort keys) ≡ₚ vals /\
  exists ranks,
    mapM (fun e => list_index e order) (pd.take vals (argsort keys)) = Some ranks /\
    forall i j a b, i < j -> ranks !! i = Some a -> ranks !! j = Some b -> a <= b.
Proof.
  intros Hm. pose proof (length_mapM _ _ _ Hm) as Hlen. apply mapM_Some in Hm.
  unfold argsort. set (pairs := fold_right insert_by_key [] (zip keys (seq 0 (length keys)))).
  assert (pairs ≡ₚ zip keys (seq 0 (length keys))) as Hperm by apply sort_pairs_perm.
  split.
  - unfold pd.take. rewrite Hperm, snd_zip by (rewrite length_seq; lia).
    replace (length keys) with (length vals) by congruence.
    pose proof (take_seq_from [] vals) as Hs. simpl in Hs. by rewrite Hs.
  - exists pairs.*1. split.
    + apply (take_ranked vals order keys); [done |]. apply Forall_forall. intros [k p] Hin.
      rewrite Hperm in Hin. apply list_elem_of_lookup in Hin as [i Hi].
      apply lookup_zip_with_Some in Hi as (k' & p' & [= -> ->] & Hk & Hp).
      apply lookup_seq in Hp as [-> _]. done.
    + intros i j a b. apply ascending_lookup. apply sort_pairs_ascending.
Qed.

Lemma flagged_have_rank (ids : Series) (order : list value) :
  is_Some (mapM (fun e => list_index e order)
             (List.filter (fun v => bool_decide (v ∈ order)) (values ids))).
Proof.
  apply mapM_is_Some. apply Forall_forall. intros v Hv.
  apply list_elem_of_In, List.filter_In in Hv as [_ Hv]. apply bool_decide_eq_true in Hv.
  by apply list_index_is_Some.
Qed.

Lemma sort_flagged_returns {E} df ids order :
  lookup_column "stud_ID" (columns df) = Some ids ->
  exists keys,
    mapM (fun e => list_index e order)
      (List.filter (fun v => bool_decide (v ∈ order)) (values ids)) = Some keys /\
    @sort_values_by_position E (where_ df (isin ids order)) "stud_ID" order
    = Ret (take_rows (where_ df (isin ids order)) (argsort keys)).
Proof.
  intros Hids. destruct (flagged_have_rank ids order) as [keys Hkeys]. exists keys.
  split; [done |]. unfold sort_values_by_position, getitem, where_.
  rewrite lookup_column_take_rows_eq, Hids.
  cbn [fmap option_fmap option_map bind take_series values].
  by rewrite isin_values, Hkeys.
Qed.

End IssuesTable.



(** ** Cell 12: the share of the true errors that were found *)

Section TrueErrors.

Lemma length_remove_dups_le {A} `{EqDecision A} (l : list A) :
  length (remove_dups l) <= length l.
Proof.
  induction l as [| x l IH]; [done |]. simpl. destruct (decide_rel _ x l); simpl; lia.
Qed.

Lemma filter_differ_nil {A B} `{EqDecision A} (v : list A) (idx : list B) :
  List.filter (fun p : A * A * B => negb (bool_decide (p.1.1 = p.1.2))) (zip (zip v v) idx) = [].
Proof.
  revert idx. induction v as [| x v IH]; intros [| i idx]; try done.
  cbn [zip zip_with List.filter fst snd]. rewrite bool_decide_eq_true_2 by done. simpl. apply IH.
Qed.

Lemma filter_differ_cons {A B} `{EqDecision A} (v v' : list A) (idx : list B) :
  length v = length idx -> length v' = length idx -> v <> v' ->
  List.filter (fun p : A * A * B => negb (bool_decide (p.1.1 = p.1.2))) (zip (zip v v') idx) <> [].
Proof.
  revert v' idx. induction v as [| x v IH]; intros [| x' v'] [| i idx] Hv Hv' Hne; try done.
  cbn [zip zip_with List.filter fst snd]. destruct (decide (x = x')) as [-> | Hx].
  - rewrite bool_decide_eq_true_2 by done. simpl. apply IH; simpl in *; [lia | lia | congruence].
  - by rewrite bool_decide_eq_false_2 by done.
Qed.

Lemma true_error_idx_eq df lg nlg :
  length (values lg) = nrows df -> length (values nlg) = nrows df ->
  index (where_ df (ne lg nlg))
  = List.map snd (List.filter (fun p : value * value * nat => negb (bool_decide (p.1.1 = p.1.2)))
                    (zip (zip (values lg) (values nlg)) (index df))).
Proof.
  intros Hlg Hnlg. unfold where_, take_rows, ne. cbn [index].
  apply (take_positions_where (fun p : value * value => negb (bool_decide (p.1 = p.2)))).
  rewrite length_zip_with. unfold nrows in *. lia.
Qed.

End TrueErrors.

(** X8. Cell 12 divides the number of true label errors that were flagged by
    the number of true label errors of the training table.  When no label of
    the training table is wrong, it raises ZeroDivisionError; otherwise it
    prints [found / total] for two counts with [found <= total] (a position
    flagged twice counts once), and raises nothing.  The true grades are
    taken to have no missing value (pandas finds a missing value different
    from itself). *)
Theorem error_recall_divides_by_true_errors (v4 : cell4_vars) (issue_idx : list nat)
    (lg nlg : Series) :
  lookup_column "letter_grade" (columns (df_train v4)) = Some lg ->
  lookup_column "noisy_letter_grade" (columns (df_train v4)) = Some nlg ->
  length (values lg) = nrows (df_train v4) ->
  length (values nlg) = nrows (df_train v4) ->
  NaN ∉ values lg ->
  (values lg = values nlg -> cell_12 v4 issue_idx = Raise ZeroDivisionError) /\
  (values lg <> values nlg ->
   exists found total,
     found <= total /\ 0 < total /\
     cell_12 v4 issue_idx
     = call (print [Txt "Percentage of errors found: ";
                    percent (float_of_nat found / float_of_nat total); Txt "%"])).
Proof.
  intros Hlg Hnlg Hl Hn _. unfold cell_12, getitem. rewrite Hlg, Hnlg. cbn [bind].
  rewrite (true_error_idx_eq _ _ _ Hl Hn). split.
  - intros Heq. rewrite Heq, filter_differ_nil. done.
  - intros Hne. pose proof (filter_differ_cons _ _ (index (df_train v4)) Hl Hn Hne) as Hnil.
    set (errs := List.map snd (List.filter _ _)) in *.
    exists (length (remove_dups (List.filter (fun i => nat_in i issue_idx) errs))), (length errs).
    assert (0 < length errs) as Hpos.
    { subst errs. rewrite length_map. destruct (List.filter _ _); [done | simpl; lia]. }
    split; [| split; [done |]].
    + etransitivity; [apply length_remove_dups_le |]. apply filter_length_le.
    + unfold int_truediv. destruct (Nat.eqb_spec (length errs) 0) as [H0 | _]; [lia |]. done.
Qed.

Lemma error_recall_divides_by_true_errors_witness :
  cell_12 (four_students ["F"; "F"; "A"; "A"]) [0] = Raise ZeroDivisionError /\
  exists found total,
    found <= total /\ 0 < total /\
    cell_12 (four_students ["B"; "A"; "F"; "C"]) [0]
    = call (print [Txt "Percentage of errors found: ";
                   percent (float_of_nat found / float_of_nat total); Txt "%"]).
Proof.
  assert (NaN ∉ List.map VStr ["F"; "F"; "A"; "A"]) as H1
    by (apply (bool_decide_unpack _); vm_compute; exact I).
  assert (NaN ∉ List.map VStr ["B"; "A"; "F"; "C"]) as H2
    by (apply (bool_decide_unpack _); vm_compute; exact I).
  split.
  - exact (proj1 (error_recall_divides_by_true_errors (four_students ["F"; "F"; "A"; "A"]) [0]
                    _ _ eq_refl eq_refl eq_refl eq_refl H1) eq_refl).
  - refine (proj2 (error_recall_divides_by_true_errors (four_students ["B"; "A"; "F"; "C"]) [0]
                     _ _ eq_refl eq_refl eq_refl eq_refl H2) _).
    simpl. discriminate.
Defined.

(** ** What the notebook raises itself *)

Section Guarded.
Context {E : Type -> Type}.

Lemma guarded_bind {A B} (Ex : exn -> Prop) (mid : A -> Prop) (post : B -> Prop)
    (p : prog E A) (f : A -> prog E B) :
  guarded Ex mid p -> (forall a, mid a -> guarded Ex post (f a)) ->
  guarded Ex post (bind p f).
Proof.
  intros Hp Hf. induction p as [r | e | X c k IH | cmd k IH]; simpl in *; auto.
Qed.

Lemma guarded_conseq {R} (Ex : exn -> Prop) (post post' : R -> Prop) (p : prog E R) :
  guarded Ex post p -> (forall r, post r -> post' r) -> guarded Ex post' p.
Proof.
  intros Hp Himp. induction p as [r | e | X c k IH | cmd k IH]; simpl in *; auto.
Qed.

Lemma guarded_run {W R} (Ex : exn -> Prop) (post : R -> Prop) (p : prog E R)
    (h : env E W) (w : W) :
  guarded Ex post p ->
  match result (run h p w) with
  | inl e => Ex e \/ exists t, last (trace (run h p w)) = Some t /\ entry_failed e t
  | inr r => post r
  end.
Proof.
  revert w. induction p as [r | e | X c k IH | cmd k IH]; intros w Hp; simpl in *.
  - done.
  - by left.
  - destruct (lib h c w) as [[e | x] w'] eqn:Hc; simpl.
    + right. by eexists.
    + specialize (IH x w' (Hp x)). destruct (result (run h (k x) w')) as [e | r]; [| done].
      destruct IH as [He | (t & Ht & Hf)]; [by left | right].
      exists t. split; [| done]. destruct (trace (run h (k x) w')); [done |]. done.
  - specialize (IH (shell h cmd w) Hp).
    destruct (result (run h k (shell h cmd w))) as [e | r]; [| done].
    destruct IH as [He | (t & Ht & Hf)]; [by left | right].
    exists t. split; [| done]. destruct (trace (run h k (shell h cmd w))); [done |]. done.
Qed.
End Guarded.

Section PandasFailures.
Import pd.
Context {E : Type -> Type} (Ex : exn -> Prop).

Lemma guarded_getitem df name :
  Ex (KeyError name) ->
  guarded Ex (fun s => lookup_column name (columns df) = Some s) (@getitem E df name).
Proof. intros H. unfold getitem. by destruct (lookup_column name (columns df)). Qed.

Lemma guarded_setitem df name s :
  Ex (ValueError "Length of values does not match length of index") ->
  guarded Ex (fun _ => True) (@setitem E df name s).
Proof. intros H. unfold setitem. by destruct (Nat.eqb _ _). Qed.

Lemma guarded_drop_columns df names :
  (forall n, n ∈ names -> Ex (KeyError n)) ->
  guarded Ex (fun _ => True) (@drop_columns E df names).
Proof.
  intros H. unfold drop_columns.
  destruct (List.find _ names) as [n |] eqn:Hf; [| done]. simpl.
  apply List.find_some in Hf as [Hin _]. by apply H, list_elem_of_In.
Qed.

Lemma guarded_select_columns df names :
  (forall n, n ∈ names -> Ex (KeyError n)) ->
  guarded Ex (fun _ => True) (@select_columns E df names).
Proof.
  intros H. unfold select_columns.
  destruct (List.find _ names) as [n |] eqn:Hf; [| done]. simpl.
  apply List.find_some in Hf as [Hin _]. by apply H, list_elem_of_In.
Qed.

Lemma guarded_iloc df ps :
  Ex (IndexError "positional indexers are out-of-bounds") ->
  guarded Ex (fun rows => rows = take_rows df ps /\ Forall (fun p => p < nrows df) ps)
    (@iloc E df ps).
Proof.
  intros H. unfold iloc. destruct (forallb _ ps) eqn:Hall; [| done]. simpl.
  split; [done |]. apply Forall_forall. intros p Hp.
  rewrite forallb_forall in Hall. apply Nat.ltb_lt, Hall. by apply list_elem_of_In.
Qed.

Lemma guarded_int_truediv a b :
  Ex ZeroDivisionError -> guarded Ex (fun _ => True) (@int_truediv E a b).
Proof. intros H. unfold int_truediv. by destruct (Nat.eqb b 0). Qed.

(** After [reset_index], [drop] of positions that [iloc] accepts finds every
    label. *)
Lemma drop_positions df labels :
  index df = seq 0 (nrows df) ->
  Forall (fun p => p < nrows df) labels ->
  @drop E df labels = Ret (without_labels df labels).
Proof.
  intros Hidx Hall. unfold drop.
  assert (forallb (fun l => nat_in l (index df)) labels = true) as ->; [| done].
  apply forallb_forall. intros l Hl. rewrite Forall_forall in Hall.
  apply list_elem_of_In, Hall in Hl. unfold nat_in. apply existsb_exists.
  exists l. split; [| by apply Nat.eqb_eq]. rewrite Hidx. apply in_seq. lia.
Qed.
End PandasFailures.

Section TabularFailures.

Local Abbreviation Own := (fun e => e ∈ tabular_failures).

Ltac own := unfold tabular_failures; repeat constructor.


Lemma own_non_features n : n ∈ non_features -> KeyError n ∈ tabular_failures.
Proof.
  unfold non_features. rewrite !elem_of_cons, elem_of_nil.
  intros [-> | [-> | [-> | []]]]; own.
Qed.

Ltac g_bind mid := eapply (guarded_bind _ mid); [| intros ? ?].

Ltac g_step :=
  cbv beta zeta;
  lazymatch goal with
  | |- guarded _ _ (bind (call _) _) => cbn [bind call guarded]; intros ?
  | |- guarded _ _ (bind (bang _) _) => cbn [bind bang guarded]
  | |- guarded _ _ (Call _ _) => cbn [guarded]; intros ?
  | |- forall _, _ => intros ?
  | |- guarded _ _ (bind (getitem ?df ?n) _) =>
      eapply (guarded_bind _ (fun s => lookup_column n (columns df) = Some s));
        [apply guarded_getitem; own | intros ? ?]
  | |- guarded _ _ (bind (setitem _ _ _) _) =>
      eapply (guarded_bind _ (fun _ => True)); [apply guarded_setitem; own | intros ? _]
  | |- guarded _ _ (bind (drop_columns _ non_features) _) =>
      eapply (guarded_bind _ (fun _ => True));
        [apply guarded_drop_columns, own_non_features | intros ? _]
  end.

Lemma guarded_encode_column df name :
  KeyError name ∈ tabular_failures ->
  guarded Own (fun _ => True) (encode_column df name).
Proof.
  intros H. unfold encode_column.
  eapply (guarded_bind _ _ _ _ _ (guarded_getitem _ df name H)); intros column _.
  g_step. cbv beta. apply guarded_setitem. own.
Qed.

Lemma cell_4_failures :
  guarded Own (fun v4 => index (df_train v4) = seq 0 (nrows (df_train v4))) cell_4.
Proof.
  unfold cell_4. do 2 g_step.
  eapply (guarded_bind _ (fun _ => True)); [apply guarded_encode_column; own | intros ? _].
  eapply (guarded_bind _ (fun _ => True)); [apply guarded_encode_column; own | intros ? _].
  eapply (guarded_bind _ (fun _ => True)); [apply guarded_encode_column; own | intros ? _].
  do 3 g_step.
  eapply (guarded_bind _ (fun _ => True));
    [apply guarded_drop_columns, own_non_features | intros ? _].
  g_step. simpl. unfold reset_index, nrows. simpl. by rewrite length_seq.
Qed.

Lemma cell_6_failures v4 : guarded Own (fun _ => True) (cell_6 v4).
Proof. unfold cell_6. by repeat g_step. Qed.

Lemma cell_9_failures v4 v6 :
  guarded Own (fun issue_idx => Forall (fun p => p < nrows (df_train v4)) issue_idx)
    (cell_9 v4 v6).
Proof.
  unfold cell_9. do 2 g_step.
  eapply (guarded_bind _ (fun rows => rows = take_rows (df_train v4) x0 /\
                                   Forall (fun p => p < nrows (df_train v4)) x0));
    [apply guarded_iloc; own | intros rows [_ Hall]].
  do 2 g_step.
  destruct (@sort_flagged_returns ev (df_c v4) a0 (values a) H0) as (keys & _ & ->).
  cbn [bind guarded]. by intros _.
Qed.

Lemma cell_12_failures v4 issue_idx : guarded Own (fun _ => True) (cell_12 v4 issue_idx).
Proof.
  unfold cell_12. do 2 g_step.
  eapply (guarded_bind _ (fun _ => True)); [apply guarded_int_truediv; own | intros ? _].
  by repeat g_step.
Qed.

Lemma cell_14_failures v4 v6 issue_idx :
  index (df_train v4) = seq 0 (nrows (df_train v4)) ->
  Forall (fun p => p < nrows (df_train v4)) issue_idx ->
  guarded Own (fun _ => True) (cell_14 v4 v6 issue_idx).
Proof.
  intros Hidx Hall. unfold cell_14. rewrite (drop_positions _ _ Hidx Hall).
  cbn [bind]. by repeat g_step.
Qed.

Lemma cell_17_failures v4 v6 acc_clean : guarded Own (fun _ => True) (cell_17 v4 v6 acc_clean).
Proof.
  unfold cell_17. do 3 g_step.
  eapply (guarded_bind _ (fun _ => True)); [apply guarded_encode_column; own | intros ? _].
  eapply (guarded_bind _ (fun _ => True)); [apply guarded_encode_column; own | intros ? _].
  do 3 g_step.
  eapply (guarded_bind _ (fun _ => True)); [apply guarded_select_columns | intros ? _].
  { intros n. rewrite !elem_of_cons, elem_of_nil. intros [-> | [-> | [-> | [-> | []]]]]; own. }
  by repeat g_step.
Qed.

Lemma notebook_failures : guarded Own (fun _ => True) notebook.
Proof.
  unfold notebook.
  eapply (guarded_bind _ _ _ _ _ cell_4_failures). intros v4 Hidx.
  eapply (guarded_bind _ _ _ _ _ (cell_6_failures v4)). intros v6 _.
  eapply (guarded_bind _ _ _ _ _ (cell_9_failures v4 v6)). intros issue_idx Hall.
  eapply (guarded_bind _ _ _ _ _ (cell_12_failures v4 issue_idx)). intros _ _.
  eapply (guarded_bind _ _ _ _ _ (cell_14_failures v4 v6 issue_idx Hidx Hall)).
  intros acc_clean _. apply cell_17_failures.
Qed.

End TabularFailures.


(** ** Cell 9: what cross-validation is run on *)

Section CrossVal.
Context {E : Type -> Type}.

(** Two contracts checked on the same program hold together. *)
Lemma safe_and (P Q : list (entry E) -> forall X, E X -> Prop) {R}
    (post post' : list (entry E) -> R -> Prop) hist (p : prog E R) :
  safe P post hist p -> safe Q post' hist p ->
  safe (fun h X c => P h X c /\ Q h X c) (fun h r => post h r /\ post' h r) hist p.
Proof.
  revert hist. induction p as [r | e | X c k IH | cmd k IH]; intros hist Hp Hq; simpl in *.
  - done.
  - done.
  - destruct Hp as [Hc Hk], Hq as [Hc' Hk']. split; [done |]. intros x. by apply IH.
  - by apply IH.
Qed.
End CrossVal.

Section CrossValNotebook.

Local Abbreviation Both :=
  (fun h X (c : ev X) => @contract h X c /\ @crossval_contract h X c).

Ltac quiet := repeat safe_step; try done.

Lemma cell_4_crossval hist : safe (@crossval_contract) (fun _ _ => True) hist cell_4.
Proof. unfold cell_4, encode_column. quiet. Qed.

Lemma cell_6_crossval v4 hist : safe (@crossval_contract) (fun _ _ => True) hist (cell_6 v4).
Proof. unfold cell_6. quiet. Qed.

Lemma cell_9_crossval v4 v6 hist :
  known v4 1 None hist -> trained v4 v6 ->
  safe (@crossval_contract) (fun _ _ => True) hist (cell_9 v4 v6).
Proof.
  intros ((Hs & _) & _) (Hd & Hl). unfold cell_9. quiet.
  cbn [crossval_contract]. split; [done |]. split; [done |].
  by exists (df_train v4), (df_test v4).
Qed.

Lemma cell_12_crossval v4 issue_idx hist :
  safe (@crossval_contract) (fun _ _ => True) hist (cell_12 v4 issue_idx).
Proof. unfold cell_12. quiet. Qed.

Lemma cell_14_crossval v4 v6 issue_idx hist :
  safe (@crossval_contract) (fun _ _ => True) hist (cell_14 v4 v6 issue_idx).
Proof. unfold cell_14. quiet. Qed.

Lemma cell_17_crossval v4 v6 acc hist :
  safe (@crossval_contract) (fun _ _ => True) hist (cell_17 v4 v6 acc).
Proof. unfold cell_17, encode_column. quiet. Qed.

Lemma crossval_contract_kept : safe Both (fun _ _ => True) [] notebook.
Proof.
  unfold notebook.
  eapply safe_then; [apply (safe_and _ _ _ _ _ _ cell_4_safe (cell_4_crossval [])) |].
  cbv beta. intros h4 v4 [H4 _].
  eapply safe_then;
    [apply (safe_and _ _ _ _ _ _ (cell_6_safe v4 h4 H4) (cell_6_crossval v4 h4)) |].
  cbv beta. intros h6 v6 [[H6 Ht] _].
  eapply safe_then;
    [apply (safe_and _ _ _ _ _ _ (cell_9_safe _ _ _ H6 Ht) (cell_9_crossval _ _ _ H6 Ht)) |].
  cbv beta. intros h9 issue_idx [H9 _].
  eapply safe_then;
    [apply (safe_and _ _ _ _ _ _ (cell_12_safe _ _ _ _ H9) (cell_12_crossval _ _ h9)) |].
  cbv beta. intros h12 [] [H12 _].
  eapply safe_then;
    [apply (safe_and _ _ _ _ _ _ (cell_14_safe _ v6 _ _ H12) (cell_14_crossval _ v6 _ h12)) |].
  cbv beta. intros h14 acc [H14 _].
  eapply safe_mono; [| | apply (safe_and _ _ _ _ _ _ (cell_17_safe _ v6 acc _ _ H14)
                                   (cell_17_crossval v4 v6 acc h14))]; [done | done].
Qed.

End CrossValNotebook.

(** X10. Whatever the libraries answer, [cross_val_predict] is given a new
    classifier with the parameters of the baseline one, the training table
    without the columns [stud_ID], [letter_grade] and [noisy_letter_grade],
    and the noisy labels of the training table, and is asked for
    [predict_proba]: the predicted probabilities handed to the detector are
    computed from the rows and the labels the baseline model was fitted on,
    and from no row of the test table. *)
Theorem cross_validation_runs_on_the_training_features (W : Type) (h : env ev W) (w : W) :
  each_call (@crossval_contract) [] (trace (run h notebook w)).
Proof.
  eapply (safe_run _ (fun _ _ => True)).
  eapply safe_mono; [| | apply crossval_contract_kept]; [| done].
  by intros hist X c [_ H].
Qed.

(** ** Cell 17: the rows the Studio model is fitted on *)

Section StudioFit.

Lemma lookup_assign_other name name' s cols :
  name' <> name ->
  lookup_column name' (assign_column name s cols) = lookup_column name' cols.
Proof.
  intros Hne. induction cols as [| [n s'] cols IH]; simpl.
  - destruct (String.eqb_spec name name'); [congruence | done].
  - destruct (String.eqb_spec n name) as [-> | Hn]; simpl.
    + destruct (String.eqb_spec name name'); [congruence | done].
    + destruct (String.eqb_spec n name'); [done | exact IH].
Qed.

Lemma setitem_lookup_other {E} df name s df' name' :
  @setitem E df name s = Ret df' -> name' <> name ->
  lookup_column name' (columns df') = lookup_column name' (columns df).
Proof.
  unfold setitem. destruct (Nat.eqb _ _); [| done]. intros [= <-] Hne. simpl.
  by apply lookup_assign_other.
Qed.

Lemma lookup_where_isin df name ids xs :
  lookup_column name (columns df) = Some ids ->
  exists kept, lookup_column name (columns (where_ df (isin ids xs))) = Some kept /\
    values kept = List.filter (fun v => bool_decide (v ∈ xs)) (values ids).
Proof.
  intros Hids. unfold where_. rewrite lookup_column_take_rows_eq, Hids. simpl.
  eexists. split; [done |]. simpl. apply isin_values.
Qed.

End StudioFit.

(** X11. Whatever the libraries answer, the model of cell 17 is fitted on the
    four feature columns and the [cleanlab_suggested_label] column of one
    table, every row of which has the [stud_ID] of a student of the training
    table: the rows of the exported file that belong to other students (the
    test students among them) are never used for fitting. *)
Theorem studio_model_is_fitted_on_training_students (v4 : cell4_vars) (v6 : cell6_vars)
    (acc_clean : float) :
  only (@studio_fit v4) (cell_17 v4 v6 acc_clean).
Proof.
  intros hist. unfold cell_17, encode_column. repeat safe_step; try done.
  lookups. cbn [studio_fit].
  match goal with
  | H : lookup_column "stud_ID" (columns x) = Some ?ids |- _ =>
      destruct (lookup_where_isin x "stud_ID" ids (values a) H) as (kept & Hk & Hv)
  end.
  eexists _, a, kept. split; [done |]. split; [| split; [| split; [eassumption | done]]].
  - repeat match goal with
           | H : setitem _ _ _ = Ret _ |- _ =>
               rewrite (setitem_lookup_other _ _ _ _ "stud_ID" H) by done; clear H
           end.
    exact Hk.
  - rewrite Hv. apply Forall_forall. intros v Hin.
    apply list_elem_of_In, List.filter_In in Hin as [_ Hin]. by apply bool_decide_eq_true in Hin.
Qed.
(* ===================================================================== *)
(** * More on the transformer notebook                                    *)
(* ===================================================================== *)

(** ** The example rows *)

Section ExampleRows.
Import pd Transformer.

Lemma lookup_column_take_rows name df positions :
  is_Some (lookup_column name (columns (take_rows df positions))) ->
  is_Some (lookup_column name (columns df)).
Proof.
  unfold take_rows. simpl. induction (columns df) as [| [n s] cols IH]; simpl; [done |].
  destruct (String.eqb n name); [by eauto | done].
Qed.

Lemma iloc_at_ret df i name v :
  iloc_at df i name = Ret v ->
  i < nrows df /\ is_Some (lookup_column name (columns df)).
Proof.
  unfold iloc_at, iloc. simpl.
  destruct (Nat.ltb_spec i (nrows df)) as [Hlt | Hge]; simpl; [| done].
  unfold getitem.
  destruct (lookup_column name (columns (take_rows df [i]))) as [col |] eqn:Hc; simpl; [| done].
  intros _. split; [done |]. apply (lookup_column_take_rows name df [i]). by rewrite Hc.
Qed.

Context {W : Type} (h : env ev W).
Local Abbreviation K0 := (keeps h (fun _ => True)).

Lemma print_example_returns df i :
  K0 (print_example df i)
     (fun _ => i < nrows df /\
               is_Some (lookup_column "label" (columns df)) /\
               is_Some (lookup_column "review_text" (columns df))).
Proof.
  unfold print_example.
  eapply keeps_bind;
    [apply keeps_no_call; [apply no_call_iloc_at | intros v Hv; exact (iloc_at_ret _ _ _ _ Hv)] |].
  intros label [Hi Hl].
  eapply keeps_bind; [apply keeps_any |]. intros _ _.
  eapply keeps_bind;
    [apply keeps_no_call; [apply no_call_iloc_at | intros v Hv; exact (iloc_at_ret _ _ _ _ Hv)] |].
  intros text [_ Ht].
  eapply keeps_conseq; [| apply keeps_any]. by intros _ _.
Qed.

End ExampleRows.

Section ExampleRowsTheorem.
Import pd Transformer.

(** X12. The notebook prints the label and the text of the rows 0, 3477, 4560
    and 4516 of the training table.  So a run that completes, whatever the
    libraries answer, read as its first call a training table of more than
    4560 rows with a [label] and a [review_text] column: on a shorter table
    or without one of the columns the run ends with an exception. *)
Theorem example_rows_must_exist (W : Type) (h : env ev W) (w : W) :
  result (run h notebook w) = inr tt ->
  exists train_data rest,
    trace (run h notebook w)
    = Called (read_csv "https://s.cleanlab.ai/amazon_reviews/train.csv") (inr train_data)
      :: rest /\
    4560 < nrows train_data /\
    is_Some (lookup_column "label" (columns train_data)) /\
    is_Some (lookup_column "review_text" (columns train_data)).
Proof.
  intros Hres. unfold notebook in Hres |- *. rewrite run_bind in Hres |- *.
  destruct (result (run h load_and_preprocess w)) as [e | d] eqn:Hload; [done |].
  cbn [result trace] in Hres |- *.
  assert (4560 < nrows (train_data d) /\
          is_Some (lookup_column "label" (columns (train_data d))) /\
          is_Some (lookup_column "review_text" (columns (train_data d)))) as HQ.
  { refine (proj2 (keeps_run h (fun _ => True) _
                       (fun _ => 4560 < nrows (train_data d) /\
                          is_Some (lookup_column "label" (columns (train_data d))) /\
                          is_Some (lookup_column "review_text" (columns (train_data d))))
                       _ _ _ I Hres)).
    do 16 (eapply keeps_bind; [apply keeps_any |]; intros ? _).
    eapply keeps_bind; [apply print_example_returns |]. intros ? H.
    eapply keeps_conseq; [| apply keeps_any]. by intros _ _. }
  clear Hres. unfold load_and_preprocess in Hload |- *. rewrite run_bind in Hload |- *.
  unfold call in Hload |- *. cbn [run] in Hload |- *.
  destruct (lib h (read_csv "https://s.cleanlab.ai/amazon_reviews/train.csv") w)
    as [[e | train] w1]; [done |].
  cbn [logged result trace world run] in Hload |- *.
  assert (train_data d = train) as Hd.
  { refine (proj2 (keeps_run h (fun _ => True) _ (fun d => train_data d = train)
                       _ _ _ I Hload)).
    do 9 (eapply keeps_bind; [apply keeps_any |]; intros ? _).
    by apply keeps_ret. }
  rewrite Hd in HQ.
  eexists train, _. split; [reflexivity | exact HQ].
Qed.

Lemma example_rows_must_exist_witness :
  result Toy.Txt.run_notebook = inr tt /\
  exists train_data rest,
    trace Toy.Txt.run_notebook
    = Called (read_csv "https://s.cleanlab.ai/amazon_reviews/train.csv") (inr train_data)
      :: rest /\
    4560 < nrows train_data.
Proof.
  assert (result Toy.Txt.run_notebook = inr tt) as Hres by (vm_compute; reflexivity).
  split; [exact Hres |].
  destruct (example_rows_must_exist nat Toy.Txt.environment 0 Hres)
    as (train & rest & Htr & Hn & _).
  exists train, rest. split; [exact Htr | exact Hn].
Defined.
End ExampleRowsTheorem.

(** ** The ten lowest label-quality scores *)


Section LowestQuality.
Import Transformer.

Lemma insert_by_score_perm k sorted : insert_by_score k sorted ≡ₚ k :: sorted.
Proof.
  induction sorted as [| k' rest IH]; [done |]. simpl.
  destruct (PrimFloat.ltb k.1 k'.1); [done |]. rewrite IH. apply Permutation_swap.
Qed.

Lemma sort_scores_perm l : fold_right insert_by_score [] l ≡ₚ l.
Proof.
  induction l as [| k l IH]; [done |]. simpl. by rewrite insert_by_score_perm, IH.
Qed.

Lemma argsort_perm scores : argsort scores ≡ₚ seq 0 (length scores).
Proof.
  unfold argsort. rewrite sort_scores_perm. by rewrite snd_zip by (rewrite length_seq; lia).
Qed.

Local Abbreviation number := (fun y : float * nat => PrimFloat.is_nan y.1 = false).

Lemma insert_by_score_ascending k l :
  number k -> Forall number l ->
  ascending_scores l -> ascending_scores (insert_by_score k l).
Proof.
  intros Hk. induction l as [| k' l IH]; intros Hl Hasc; simpl; [done |].
  destruct Hasc as [Hall Hasc]. inversion Hl as [| ? ? Hk' Hl']; subst.
  destruct (PrimFloat.ltb k.1 k'.1) eqn:Hlt; simpl.
  - split; [| done]. constructor; [by apply ltb_asym |].
    rewrite Forall_forall in Hall, Hl' |- *. intros y Hy.
    apply (not_below_trans _ k'.1);
      [done | done | by apply Hl' | by apply ltb_asym | by apply Hall].
  - split; [| by apply IH]. rewrite insert_by_score_perm. by constructor.
Qed.

Lemma sort_scores_ascending l :
  Forall number l -> ascending_scores (fold_right insert_by_score [] l).
Proof.
  induction l as [| k l IH]; intros Hl; simpl; [done |]. inversion Hl; subst.
  apply insert_by_score_ascending; [done | | by apply IH].
  by rewrite sort_scores_perm.
Qed.

Lemma ascending_scores_lookup l i j x y :
  ascending_scores l -> i < j -> l !! i = Some x -> l !! j = Some y ->
  PrimFloat.ltb y.1 x.1 = false.
Proof.
  revert i j. induction l as [| z l IH]; intros i j Hl Hij Hi Hj; [done |].
  destruct Hl as [Hall Hl]. destruct j as [| j]; [lia |]. simpl in Hj.
  destruct i as [| i]; simpl in Hi.
  - simplify_eq. rewrite Forall_forall in Hall. apply Hall. by eapply list_elem_of_lookup_2.
  - apply (IH i j); [done | lia | done | done].
Qed.

(** The positions in the order of their scores. *)
Lemma argsort_sorted scores i j p q sp sq :
  Forall (fun s => PrimFloat.is_nan s = false) scores ->
  i < j -> argsort scores !! i = Some p -> argsort scores !! j = Some q ->
  scores !! p = Some sp -> scores !! q = Some sq ->
  PrimFloat.ltb sq sp = false.
Proof.
  intros Hnum Hij Hi Hj Hp Hq. unfold argsort in Hi, Hj.
  set (pairs := zip scores (seq 0 (length scores))) in *.
  assert (forall x, x ∈ pairs -> scores !! x.2 = Some x.1) as Hpairs.
  { intros [s k] Hin. apply list_elem_of_lookup in Hin as [n Hn].
    apply lookup_zip_with_Some in Hn as (s' & k' & [= -> ->] & Hs & Hk).
    apply lookup_seq in Hk as [-> _]. done. }
  assert (Forall number pairs) as Hnums.
  { apply Forall_forall. intros x Hx. apply Hpairs in Hx.
    rewrite Forall_forall in Hnum. apply Hnum. by eapply list_elem_of_lookup_2. }
  apply list_lookup_fmap_Some in Hi as (x & -> & Hx).
  apply list_lookup_fmap_Some in Hj as (y & -> & Hy).
  pose proof (ascending_scores_lookup _ i j x y (sort_scores_ascending pairs Hnums) Hij Hx Hy)
    as Hlt.
  assert (x ∈ pairs) as Hxin
    by (rewrite <- (sort_scores_perm pairs); by eapply list_elem_of_lookup_2).
  assert (y ∈ pairs) as Hyin
    by (rewrite <- (sort_scores_perm pairs); by eapply list_elem_of_lookup_2).
  apply Hpairs in Hxin, Hyin. by simplify_eq.
Qed.

(** X13. The indices printed as the ten most likely label errors (the first
    ten of [argsort] of the label-quality scores, none of them missing) are
    positions of rows of the label-issues table, no position twice, and ten
    of them unless the table has fewer rows; they are listed with no score
    below an earlier one, and no row that is not listed has a score below
    that of a listed row. *)
Theorem printed_indices_have_the_lowest_scores (scores : list float) :
  Forall (fun s => PrimFloat.is_nan s = false) scores ->
  let lowest := firstn 10 (argsort scores) in
  NoDup lowest /\
  Forall (fun i => i < length scores) lowest /\
  length lowest = Nat.min 10 (length scores) /\
  (forall i j p q sp sq,
     i < j -> lowest !! i = Some p -> lowest !! j = Some q ->
     scores !! p = Some sp -> scores !! q = Some sq -> PrimFloat.ltb sq sp = false) /\
  (forall p q sp sq,
     p ∈ lowest -> q ∉ lowest ->
     scores !! p = Some sp -> scores !! q = Some sq -> PrimFloat.ltb sq sp = false).
Proof.
  intros Hnum lowest. subst lowest. pose proof (argsort_perm scores) as Hperm.
  split; [| split; [| split; [| split]]].
  - assert (NoDup (argsort scores)) as Hnd by (rewrite Hperm; apply NoDup_seq).
    rewrite <- (take_drop 10 (argsort scores)) in Hnd. by apply NoDup_app in Hnd as [Hnd _].
  - apply Forall_forall. intros i Hi. apply (subseteq_take 10) in Hi.
    rewrite Hperm in Hi. apply elem_of_seq in Hi. lia.
  - rewrite length_take. by rewrite Hperm, length_seq.
  - intros i j p q sp sq Hij Hi Hj Hsp Hsq.
    apply lookup_take_Some in Hi as [Hi _]. apply lookup_take_Some in Hj as [Hj _].
    by apply (argsort_sorted scores i j p q).
  - intros p q sp sq Hp Hq Hsp Hsq.
    apply list_elem_of_lookup in Hp as [i Hi]. apply lookup_take_Some in Hi as [Hi Hi10].
    assert (q ∈ argsort scores) as Hqin.
    { rewrite Hperm. apply elem_of_seq. apply lookup_lt_Some in Hsq. lia. }
    apply list_elem_of_lookup in Hqin as [j Hj].
    assert (10 <= j) as Hj10.
    { destruct (decide (j < 10)) as [Hlt | Hge]; [| lia]. exfalso. apply Hq.
      apply list_elem_of_lookup. exists j. by apply lookup_take_Some. }
    apply (argsort_sorted scores i j p q); [done | lia | done | done | done | done].
Qed.

Lemma printed_indices_have_the_lowest_scores_witness :
  NoDup (firstn 10 (argsort (label_quality Toy.Txt.issues))) /\
  length (firstn 10 (argsort (label_quality Toy.Txt.issues))) = 3.
Proof.
  destruct (printed_indices_have_the_lowest_scores (label_quality Toy.Txt.issues))
    as (Hnd & _ & Hlen & _).
  - repeat constructor.
  - split; [exact Hnd | exact Hlen].
Defined.
End LowestQuality.
